(** * Airport-checkpoint queueing simulation: a shallow embedding

    The development follows the two TypeScript sources of the repository:
    the fixed-step simulation engine ([truncatedNormal],
    [calculateWaitingTimeDistribution], [runSimulation]) and the M/M/c
    theoretical model ([factorial], [calculateTheoretical]).  Of the page
    that calls them it keeps the default parameters of the form and the
    ranges of its sliders.

    Numbers.  A JavaScript [number] is modelled by [num]: an exact rational
    or one of the three IEEE special values.  Finite arithmetic is exact
    (no rounding, no overflow) and there is a single zero, which behaves as
    [+0] when it is a divisor.

    Effects.  [Math.random] reads a stream of draws; the functions of the
    engine that draw, throw or loop live in the monad [M].  A loop runs at
    most [fuel] iterations and then ends in [OutOfFuel].

    History variables.  [logArgs] (the arguments [Math.log] was called
    with) and [primaryCompleted] (the completions of primary service) are
    written by the embedding and never read by it: they name what the
    properties speak about and the code does not store. *)

From Stdlib Require Import QArith Qround Qabs ZArith List Bool Lia Lqa Arith.
From Stdlib Require Import Sorted.
Import ListNotations.

Set Implicit Arguments.
Local Open Scope Q_scope.

(** ** JavaScript numbers *)

Inductive num : Type :=
| Fin (q : Q)
| PInf
| NInf
| NaN.

Definition num_eq (a b : num) : Prop :=
  match a, b with
  | Fin p, Fin q => p == q
  | PInf, PInf | NInf, NInf | NaN, NaN => True
  | _, _ => False
  end.

Definition num_of_Z (z : Z) : num := Fin (inject_Z z).
Definition num_of_nat (n : nat) : num := num_of_Z (Z.of_nat n).

Definition num_neg (a : num) : num :=
  match a with
  | Fin q => Fin (- q)
  | PInf => NInf
  | NInf => PInf
  | NaN => NaN
  end.

Definition num_add (a b : num) : num :=
  match a, b with
  | NaN, _ | _, NaN => NaN
  | Fin p, Fin q => Fin (p + q)
  | PInf, NInf | NInf, PInf => NaN
  | PInf, _ | _, PInf => PInf
  | NInf, _ | _, NInf => NInf
  end.

Definition num_sub (a b : num) : num := num_add a (num_neg b).

(** [signed c] is the infinity whose sign is the comparison of a finite
    factor with zero; a zero factor gives [NaN] (0 * Infinity, 0 / 0). *)
Definition signed (c : comparison) : num :=
  match c with
  | Gt => PInf
  | Lt => NInf
  | Eq => NaN
  end.

Definition num_mul (a b : num) : num :=
  match a, b with
  | NaN, _ | _, NaN => NaN
  | Fin p, Fin q => Fin (p * q)
  | Fin p, PInf | PInf, Fin p => signed (p ?= 0)
  | Fin p, NInf | NInf, Fin p => signed (0 ?= p)
  | PInf, PInf | NInf, NInf => PInf
  | PInf, NInf | NInf, PInf => NInf
  end.

Definition num_div (a b : num) : num :=
  match a, b with
  | NaN, _ | _, NaN => NaN
  | Fin p, Fin q => if Qeq_bool q 0 then signed (p ?= 0) else Fin (p / q)
  | Fin _, PInf | Fin _, NInf => Fin 0
  | PInf, Fin q => if Qle_bool 0 q then PInf else NInf
  | NInf, Fin q => if Qle_bool 0 q then NInf else PInf
  | PInf, PInf | PInf, NInf | NInf, PInf | NInf, NInf => NaN
  end.

(** Comparisons: every comparison with [NaN] is false. *)
Definition Qlt_bool (p q : Q) : bool := negb (Qle_bool q p).

Definition num_lt (a b : num) : bool :=
  match a, b with
  | NaN, _ | _, NaN => false
  | Fin p, Fin q => Qlt_bool p q
  | NInf, NInf | PInf, _ | _, NInf => false
  | NInf, _ | _, PInf => true
  end.

Definition num_le (a b : num) : bool :=
  match a, b with
  | NaN, _ | _, NaN => false
  | Fin p, Fin q => Qle_bool p q
  | NInf, _ | _, PInf => true
  | PInf, _ | _, NInf => false
  end.

(** Strict equality [===] on numbers. *)
Definition num_seq (a b : num) : bool :=
  match a, b with
  | Fin p, Fin q => Qeq_bool p q
  | PInf, PInf | NInf, NInf => true
  | _, _ => false
  end.

Definition Math_floor (a : num) : num :=
  match a with
  | Fin q => num_of_Z (Qfloor q)
  | _ => a
  end.

Definition Math_ceil (a : num) : num :=
  match a with
  | Fin q => num_of_Z (Qceiling q)
  | _ => a
  end.

Definition Math_min (a b : num) : num :=
  match a, b with
  | NaN, _ | _, NaN => NaN
  | _, _ => if num_le a b then a else b
  end.

Definition Math_max2 (a b : num) : num :=
  match a, b with
  | NaN, _ | _, NaN => NaN
  | _, _ => if num_le a b then b else a
  end.

(** [Math.max(...xs)]: the maximum of no argument is [-Infinity]. *)
Definition Math_max (xs : list num) : num := fold_left Math_max2 xs NInf.

(** [Math.pow] at an integer exponent. *)
Fixpoint pow_nat (x : num) (n : nat) : num :=
  match n with
  | O => Fin 1
  | S n' => num_mul x (pow_nat x n')
  end.

Definition Math_pow (x : num) (e : Z) : num :=
  if (0 <=? e)%Z then pow_nat x (Z.to_nat e)
  else num_div (Fin 1) (pow_nat x (Z.to_nat (- e))).

(** [xs.reduce((a, b) => a + b, 0)] *)
Definition sum_num (xs : list num) : num := fold_left num_add xs (Fin 0).

(** ** Parameters *)

(** [numStations] is used as an array length; it is an integer here, and
    may be zero or negative. *)
Record SimParams : Type := {
  numStations : Z;
  arrivalRate : num;
  mu1 : num;
  sigma1 : num;
  mu2 : num;
  sigma2 : num;
  screenProb : num;
  simulationTime : num
}.

(** ** Theoretical model (TheoreticalResults.tsx) *)

Module Theoretical.

Record TheoreticalResults : Type := {
  utilization : num;
  avgQueueLength : num;
  avgWaitTime : num;
  avgSystemTime : num
}.

(** [factorial(n)]: [n <= 1 ? 1 : n * factorial(n - 1)], by recursion on
    the integer argument. *)
Fixpoint factorial_nat (k : nat) : num :=
  match k with
  | O => Fin 1
  | S k' =>
      if (Z.of_nat k <=? 1)%Z then Fin 1
      else num_mul (num_of_nat k) (factorial_nat k')
  end.

Definition factorial (n : Z) : num := factorial_nat (Z.to_nat n).

(** [Array.from({length: c}, (_, k) => f k)] *)
Definition Array_from (c : Z) (f : Z -> num) : list num :=
  map (fun k => f (Z.of_nat k)) (seq 0 (Z.to_nat c)).

Definition calculateTheoretical (params : SimParams) : TheoreticalResults :=
  let lambda := num_div (arrivalRate params) (Fin 60) in
  let mu := num_div (Fin 1) (num_div (mu1 params) (Fin 1000)) in
  let c := numStations params in
  let cn := num_of_Z c in
  let rho := num_div lambda (num_mul cn mu) in
  let p0_sum :=
    Array_from c (fun k => num_div (Math_pow (num_mul cn rho) k) (factorial k)) in
  let p0_final :=
    num_div (Math_pow (num_mul cn rho) c)
            (num_mul (factorial c) (num_sub (Fin 1) rho)) in
  let p0 := num_div (Fin 1) (num_add (sum_num p0_sum) p0_final) in
  let erlangC :=
    num_div (num_mul (Math_pow (num_mul cn rho) c) p0)
            (num_mul (factorial c) (num_sub (Fin 1) rho)) in
  let Lq := num_div (num_mul erlangC rho) (num_sub (Fin 1) rho) in
  let Wq := num_div Lq lambda in
  let Ws := num_add Wq (num_div (Fin 1) mu) in
  {| utilization := rho;
     avgQueueLength := Lq;
     avgWaitTime := Wq;
     avgSystemTime := Ws |}.

End Theoretical.

(** ** The ambient effects of the engine

    [Math.random] is a stream of rationals read through a cursor.  The
    transcendental functions are a parameter of the development
    ([MathLib]); their behaviour at the IEEE special values and outside
    their domain is written out.  [logArgs] is a history variable: the
    arguments [Math.log] has been called with, oldest first.  The code
    never reads it. *)

Class MathLib : Type := {
  ln_pos : Q -> Q;      (* Math.log on a positive finite argument *)
  sqrt_nonneg : Q -> Q; (* Math.sqrt on a non-negative finite argument *)
  cos_fin : Q -> Q;     (* Math.cos on a finite argument *)
  Math_PI : Q
}.

Record World : Type := {
  randomStream : nat -> Q;
  cursor : nat;
  logArgs : list num
}.

Inductive exn : Type :=
| TypeError   (* reduce of an empty array with no initial value *)
| RangeError. (* invalid array length *)

(** How an execution ends: with a value, with an exception, or with a loop
    that has used up its iterations, which stands for a loop that does not
    end.  Each carries the world reached. *)
Inductive outcome (A : Type) : Type :=
| Ok (a : A) (w : World)
| Throw (e : exn) (w : World)
| OutOfFuel (w : World).

Arguments Throw {A} e w.
Arguments OutOfFuel {A} w.

Definition M (A : Type) : Type := World -> outcome A.

Definition ret {A : Type} (a : A) : M A := fun w => Ok a w.

Definition bind {A B : Type} (m : M A) (f : A -> M B) : M B :=
  fun w =>
    match m w with
    | Ok a w' => f a w'
    | Throw e w' => Throw e w'
    | OutOfFuel w' => OutOfFuel w'
    end.

Definition throw {A : Type} (e : exn) : M A := fun w => Throw e w.
Definition diverge {A : Type} : M A := fun w => OutOfFuel w.

Declare Scope sim_scope.
Delimit Scope sim_scope with sim.
Notation "x <- m ;; k" := (bind m (fun x => k))
  (at level 61, m at next level, right associativity) : sim_scope.
Local Open Scope sim_scope.

(** The world an execution stopped in, whatever the way it stopped. *)
Definition worldOf {A : Type} (o : outcome A) : World :=
  match o with
  | Ok _ w | Throw _ w | OutOfFuel w => w
  end.

Definition isOk {A : Type} (o : outcome A) : bool :=
  match o with
  | Ok _ _ => true
  | _ => false
  end.

Definition Math_random : M num :=
  fun w =>
    Ok (Fin (randomStream w (cursor w)))
       {| randomStream := randomStream w;
          cursor := S (cursor w);
          logArgs := logArgs w |}.

Section Engine.

Context {ML : MathLib}.

Definition log_value (x : num) : num :=
  match x with
  | Fin q =>
      match q ?= 0 with
      | Gt => Fin (ln_pos q)
      | Eq => NInf
      | Lt => NaN
      end
  | PInf => PInf
  | NInf | NaN => NaN
  end.

Definition Math_log (x : num) : M num :=
  fun w =>
    Ok (log_value x)
       {| randomStream := randomStream w;
          cursor := cursor w;
          logArgs := logArgs w ++ [x] |}.

Definition Math_sqrt (x : num) : num :=
  match x with
  | Fin q => if Qle_bool 0 q then Fin (sqrt_nonneg q) else NaN
  | PInf => PInf
  | NInf | NaN => NaN
  end.

Definition Math_cos (x : num) : num :=
  match x with
  | Fin q => Fin (cos_fin q)
  | _ => NaN
  end.

(** *** truncatedNormal *)

(** [let u = 0; while (u === 0) u = Math.random();] *)
Fixpoint drawNonZero (fuel : nat) : M num :=
  match fuel with
  | O => diverge
  | S fuel' =>
      u <- Math_random ;;
      if num_seq u (Fin 0) then drawNonZero fuel' else ret u
  end.

Fixpoint truncatedNormal_loop (fuel n : nat) (mu sigma : num) : M num :=
  match n with
  | O => diverge
  | S n' =>
      u <- drawNonZero fuel ;;
      v <- drawNonZero fuel ;;
      l <- Math_log u ;;
      let value :=
        num_mul (Math_sqrt (num_mul (Fin (-2)) l))
                (Math_cos (num_mul (num_mul (Fin 2) (Fin Math_PI)) v)) in
      let value := num_add mu (num_mul sigma value) in
      if num_lt value (Fin 0) then truncatedNormal_loop fuel n' mu sigma
      else ret value
  end.

(** Every loop of the engine may run at most [fuel] iterations. *)
Definition truncatedNormal (fuel : nat) (mu sigma : num) : M num :=
  truncatedNormal_loop fuel fuel mu sigma.

End Engine.

(** *** calculateWaitingTimeDistribution *)

Record WaitingTimeDistribution : Type := {
  bins : list num;
  counts : list nat
}.

Definition numBins : nat := 20.

(** The array index a number denotes as a property key, if any. *)
Definition array_index (k : num) : option nat :=
  match k with
  | Fin q =>
      if Qeq_bool q (inject_Z (Qfloor q)) && Qle_bool 0 q
      then Some (Z.to_nat (Qfloor q)) else None
  | _ => None
  end.

Fixpoint incr_nth (l : list nat) (i : nat) : list nat :=
  match l, i with
  | [], _ => []
  | x :: l', O => S x :: l'
  | x :: l', S i' => x :: incr_nth l' i'
  end.

(** [counts[binIndex]++].  A key that is not an array index ([NaN], a
    negative number, [-Infinity]) creates a named property and leaves the
    elements of the array as they are.  [binIndex] is at most
    [numBins - 1], so the array is never extended. *)
Definition counts_incr (cs : list nat) (binIndex : num) : list nat :=
  match array_index binIndex with
  | Some i => incr_nth cs i
  | None => cs
  end.

Definition binIndexOf (binSize time : num) : num :=
  Math_min (Math_floor (num_div time binSize)) (num_of_nat (numBins - 1)).

Definition calculateWaitingTimeDistribution (waitingTimes : list num)
  : WaitingTimeDistribution :=
  let max := Math_max waitingTimes in
  let binSize := num_div max (num_of_nat numBins) in
  let bins := map (fun i => num_mul (num_of_nat i) binSize) (seq 0 numBins) in
  let counts := repeat 0%nat numBins in
  let counts :=
    fold_left (fun cs time => counts_incr cs (binIndexOf binSize time))
              waitingTimes counts in
  {| bins := bins; counts := counts |}.

(** ** Simulation state *)

Record Traveler : Type := {
  arrivalTime : num;
  needsScreening : bool;
  startServiceTime : option num;
  endServiceTime : option num
}.

Record Station : Type := {
  busy : bool;
  remainingTime : num;
  traveler : option Traveler;
  queue : list Traveler
}.

Record TimeSeriesPoint : Type := {
  time : num;
  queueLengths : list nat;
  seniorQueueLength : nat;
  totalQueueLength : nat
}.

(** The [let] variables of [runSimulation].  [primaryCompleted] is a
    history variable: the number of times the completion branch of a
    primary station has run.  The code never reads it. *)
Record SimState : Type := {
  primaryStations : list Station;
  seniorStation : Station;
  timeSeries : list TimeSeriesPoint;
  waitingTimes : list num;
  primaryServiceTimes : list num;
  seniorServiceTimes : list num;
  stationBusyTime : list num;
  seniorBusyTime : num;
  timeToNextArrival : num;
  primaryCompleted : nat
}.

(** The result record; its [timeSeries] field is [res_timeSeries] here, the
    name [timeSeries] being the variable of the loop. *)
Record SimulationResult : Type := {
  res_timeSeries : list TimeSeriesPoint;
  avgWaitingTime : num;
  maxQueueLength : num;
  utilization : num;
  avgQueueLength : num;
  avgSystemTime : num;
  waitingTimeDistribution : WaitingTimeDistribution;
  perStationUtilization : list num;
  seniorUtilization : num
}.

Definition set_primaryStations (v : list Station) (st : SimState) : SimState :=
  {| primaryStations := v; seniorStation := seniorStation st;
     timeSeries := timeSeries st; waitingTimes := waitingTimes st;
     primaryServiceTimes := primaryServiceTimes st;
     seniorServiceTimes := seniorServiceTimes st;
     stationBusyTime := stationBusyTime st;
     seniorBusyTime := seniorBusyTime st;
     timeToNextArrival := timeToNextArrival st;
     primaryCompleted := primaryCompleted st |}.

Definition set_seniorStation (v : Station) (st : SimState) : SimState :=
  {| primaryStations := primaryStations st; seniorStation := v;
     timeSeries := timeSeries st; waitingTimes := waitingTimes st;
     primaryServiceTimes := primaryServiceTimes st;
     seniorServiceTimes := seniorServiceTimes st;
     stationBusyTime := stationBusyTime st;
     seniorBusyTime := seniorBusyTime st;
     timeToNextArrival := timeToNextArrival st;
     primaryCompleted := primaryCompleted st |}.

Definition set_timeSeries (v : list TimeSeriesPoint) (st : SimState) : SimState :=
  {| primaryStations := primaryStations st; seniorStation := seniorStation st;
     timeSeries := v; waitingTimes := waitingTimes st;
     primaryServiceTimes := primaryServiceTimes st;
     seniorServiceTimes := seniorServiceTimes st;
     stationBusyTime := stationBusyTime st;
     seniorBusyTime := seniorBusyTime st;
     timeToNextArrival := timeToNextArrival st;
     primaryCompleted := primaryCompleted st |}.

Definition set_waitingTimes (v : list num) (st : SimState) : SimState :=
  {| primaryStations := primaryStations st; seniorStation := seniorStation st;
     timeSeries := timeSeries st; waitingTimes := v;
     primaryServiceTimes := primaryServiceTimes st;
     seniorServiceTimes := seniorServiceTimes st;
     stationBusyTime := stationBusyTime st;
     seniorBusyTime := seniorBusyTime st;
     timeToNextArrival := timeToNextArrival st;
     primaryCompleted := primaryCompleted st |}.

Definition set_primaryServiceTimes (v : list num) (st : SimState) : SimState :=
  {| primaryStations := primaryStations st; seniorStation := seniorStation st;
     timeSeries := timeSeries st; waitingTimes := waitingTimes st;
     primaryServiceTimes := v;
     seniorServiceTimes := seniorServiceTimes st;
     stationBusyTime := stationBusyTime st;
     seniorBusyTime := seniorBusyTime st;
     timeToNextArrival := timeToNextArrival st;
     primaryCompleted := primaryCompleted st |}.

Definition set_seniorServiceTimes (v : list num) (st : SimState) : SimState :=
  {| primaryStations := primaryStations st; seniorStation := seniorStation st;
     timeSeries := timeSeries st; waitingTimes := waitingTimes st;
     primaryServiceTimes := primaryServiceTimes st;
     seniorServiceTimes := v;
     stationBusyTime := stationBusyTime st;
     seniorBusyTime := seniorBusyTime st;
     timeToNextArrival := timeToNextArrival st;
     primaryCompleted := primaryCompleted st |}.

Definition set_stationBusyTime (v : list num) (st : SimState) : SimState :=
  {| primaryStations := primaryStations st; seniorStation := seniorStation st;
     timeSeries := timeSeries st; waitingTimes := waitingTimes st;
     primaryServiceTimes := primaryServiceTimes st;
     seniorServiceTimes := seniorServiceTimes st;
     stationBusyTime := v;
     seniorBusyTime := seniorBusyTime st;
     timeToNextArrival := timeToNextArrival st;
     primaryCompleted := primaryCompleted st |}.

Definition set_seniorBusyTime (v : num) (st : SimState) : SimState :=
  {| primaryStations := primaryStations st; seniorStation := seniorStation st;
     timeSeries := timeSeries st; waitingTimes := waitingTimes st;
     primaryServiceTimes := primaryServiceTimes st;
     seniorServiceTimes := seniorServiceTimes st;
     stationBusyTime := stationBusyTime st;
     seniorBusyTime := v;
     timeToNextArrival := timeToNextArrival st;
     primaryCompleted := primaryCompleted st |}.

Definition set_timeToNextArrival (v : num) (st : SimState) : SimState :=
  {| primaryStations := primaryStations st; seniorStation := seniorStation st;
     timeSeries := timeSeries st; waitingTimes := waitingTimes st;
     primaryServiceTimes := primaryServiceTimes st;
     seniorServiceTimes := seniorServiceTimes st;
     stationBusyTime := stationBusyTime st;
     seniorBusyTime := seniorBusyTime st;
     timeToNextArrival := v;
     primaryCompleted := primaryCompleted st |}.

Definition set_primaryCompleted (v : nat) (st : SimState) : SimState :=
  {| primaryStations := primaryStations st; seniorStation := seniorStation st;
     timeSeries := timeSeries st; waitingTimes := waitingTimes st;
     primaryServiceTimes := primaryServiceTimes st;
     seniorServiceTimes := seniorServiceTimes st;
     stationBusyTime := stationBusyTime st;
     seniorBusyTime := seniorBusyTime st;
     timeToNextArrival := timeToNextArrival st;
     primaryCompleted := v |}.

Definition set_queue (q : list Traveler) (s : Station) : Station :=
  {| busy := busy s; remainingTime := remainingTime s;
     traveler := traveler s; queue := q |}.

(** [l[i] = f(l[i])] for an index inside the array. *)
Fixpoint update_nth {A : Type} (l : list A) (i : nat) (f : A -> A) : list A :=
  match l, i with
  | [], _ => []
  | x :: l', O => f x :: l'
  | x :: l', S i' => x :: update_nth l' i' f
  end.

Definition stepSize : num := Fin (1 # 10).

Definition idleStation : Station :=
  {| busy := false; remainingTime := Fin 0; traveler := None; queue := [] |}.

(** [Array(n)]: a negative length, or one above 2^32 - 1, is a RangeError. *)
Definition Array_new (n : Z) : M nat :=
  if ((n <? 0) || (4294967295 <? n))%Z then throw RangeError
  else ret (Z.to_nat n).

(** The index of the shortest queue: [map] to (length, index) pairs, then
    [reduce] with no initial value, keeping the running minimum unless the
    current pair is strictly shorter. *)
Definition shortestQueueIndex (stations : list Station) : M nat :=
  let pairs :=
    map (fun si => (length (queue (fst si)), snd si))
        (combine stations (seq 0 (length stations))) in
  match pairs with
  | [] => throw TypeError
  | first :: rest =>
      ret (snd (fold_left
                  (fun min curr =>
                     if (fst curr <? fst min)%nat then curr else min)
                  rest first))
  end.

(** [x || 0] on a number: [0] and [NaN] are falsy. *)
Definition or_zero (x : num) : num :=
  match x with
  | NaN => Fin 0
  | Fin q => if Qeq_bool q 0 then Fin 0 else x
  | _ => x
  end.

Fixpoint forEachIndex (idxs : list nat) (body : nat -> SimState -> M SimState)
  (st : SimState) : M SimState :=
  match idxs with
  | [] => ret st
  | i :: idxs' => st' <- body i st ;; forEachIndex idxs' body st'
  end.

(** ** runSimulation *)

Section Simulation.

Context {ML : MathLib}.
Variable fuel : nat.
Variable params : SimParams.

Definition totalSteps : num :=
  Math_ceil (num_div (simulationTime params) stepSize).

Definition arrivalRatePerSecond : num := num_div (arrivalRate params) (Fin 60).

(** [-Math.log(Math.random()) / arrivalRatePerSecond] *)
Definition sampleInterArrival : M num :=
  u <- Math_random ;;
  l <- Math_log u ;;
  ret (num_div (num_neg l) arrivalRatePerSecond).

Definition initialState : M SimState :=
  n <- Array_new (numStations params) ;;
  m <- Array_new (numStations params) ;;
  t <- sampleInterArrival ;;
  ret {| primaryStations := repeat idleStation n;
         seniorStation := idleStation;
         timeSeries := [];
         waitingTimes := [];
         primaryServiceTimes := [];
         seniorServiceTimes := [];
         stationBusyTime := repeat (Fin 0) m;
         seniorBusyTime := Fin 0;
         timeToNextArrival := t;
         primaryCompleted := 0 |}.

(** *** Arrivals *)

Definition handleArrivals (currentTime : num) (st : SimState) : M SimState :=
  let t := num_sub (timeToNextArrival st) stepSize in
  if num_le t (Fin 0) then
    shortest <- shortestQueueIndex (primaryStations st) ;;
    r <- Math_random ;;
    let arrival :=
      {| arrivalTime := currentTime;
         needsScreening := num_lt r (screenProb params);
         startServiceTime := None;
         endServiceTime := None |} in
    let stations :=
      update_nth (primaryStations st) shortest
                 (fun s => set_queue (queue s ++ [arrival]) s) in
    t' <- sampleInterArrival ;;
    ret (set_timeToNextArrival t' (set_primaryStations stations st))
  else ret (set_timeToNextArrival t st).

(** *** Primary stations *)

(** [if (station.traveler?.needsScreening) seniorStation.queue.push(...)] *)
Definition dispatchToSenior (station : Station) (st : SimState) : SimState :=
  match traveler station with
  | Some t =>
      if needsScreening t
      then set_seniorStation
             (set_queue (queue (seniorStation st) ++ [t]) (seniorStation st)) st
      else st
  | None => st
  end.

(** The [if (station.busy)] block of a primary station; the completion
    branch also counts itself in [primaryCompleted]. *)
Definition tickPrimary (index : nat) (station : Station) (st : SimState)
  : Station * SimState :=
  if busy station then
    let remaining := num_sub (remainingTime station) stepSize in
    let st :=
      set_stationBusyTime
        (update_nth (stationBusyTime st) index (fun b => num_add b stepSize))
        st in
    if num_le remaining (Fin 0) then
      let st := dispatchToSenior station st in
      ({| busy := false; remainingTime := remaining;
          traveler := None; queue := queue station |},
       set_primaryCompleted (S (primaryCompleted st)) st)
    else
      ({| busy := true; remainingTime := remaining;
          traveler := traveler station; queue := queue station |}, st)
  else (station, st).

(** The [if (!station.busy && station.queue.length > 0)] block. *)
Definition startPrimary (currentTime : num) (station : Station) (st : SimState)
  : M (Station * SimState) :=
  if negb (busy station) && (0 <? length (queue station))%nat then
    match queue station with
    | [] => ret (station, st)
    | head :: rest =>
        serviceTime <- truncatedNormal fuel (mu1 params) (sigma1 params) ;;
        let station' :=
          {| busy := true;
             remainingTime := serviceTime;
             traveler :=
               Some {| arrivalTime := arrivalTime head;
                       needsScreening := needsScreening head;
                       startServiceTime := Some currentTime;
                       endServiceTime := endServiceTime head |};
             queue := rest |} in
        let st :=
          set_waitingTimes
            (waitingTimes st ++ [num_sub currentTime (arrivalTime head)]) st in
        let st :=
          set_primaryServiceTimes (primaryServiceTimes st ++ [serviceTime]) st in
        ret (station', st)
    end
  else ret (station, st).

(** The callback of [primaryStations.forEach]; the station object is
    mutated in place, that is, written back at its index. *)
Definition processPrimaryStation (currentTime : num) (index : nat)
  (st : SimState) : M SimState :=
  match nth_error (primaryStations st) index with
  | None => ret st
  | Some station =>
      let '(station, st) := tickPrimary index station st in
      r <- startPrimary currentTime station st ;;
      let '(station, st) := r in
      ret (set_primaryStations
             (update_nth (primaryStations st) index (fun _ => station)) st)
  end.

(** *** Senior station *)

Definition tickSenior (st : SimState) : SimState :=
  let station := seniorStation st in
  if busy station then
    let remaining := num_sub (remainingTime station) stepSize in
    let st := set_seniorBusyTime (num_add (seniorBusyTime st) stepSize) st in
    if num_le remaining (Fin 0) then
      set_seniorStation
        {| busy := false; remainingTime := remaining;
           traveler := None; queue := queue station |} st
    else
      set_seniorStation
        {| busy := true; remainingTime := remaining;
           traveler := traveler station; queue := queue station |} st
  else st.

Definition startSenior (st : SimState) : M SimState :=
  let station := seniorStation st in
  if negb (busy station) && (0 <? length (queue station))%nat then
    match queue station with
    | [] => ret st
    | head :: rest =>
        serviceTime <- truncatedNormal fuel (mu2 params) (sigma2 params) ;;
        let st :=
          set_seniorStation
            {| busy := true; remainingTime := serviceTime;
               traveler := Some head; queue := rest |} st in
        ret (set_seniorServiceTimes (seniorServiceTimes st ++ [serviceTime]) st)
    end
  else ret st.

(** *** Recording *)

Definition recordTimeSeries (currentTime : num) (st : SimState) : SimState :=
  let queueLengths := map (fun s => length (queue s)) (primaryStations st) in
  let totalQueueLength :=
    (fold_left Nat.add queueLengths 0 + length (queue (seniorStation st)))%nat in
  set_timeSeries
    (timeSeries st ++
       [{| time := currentTime;
           queueLengths := queueLengths;
           seniorQueueLength := length (queue (seniorStation st));
           totalQueueLength := totalQueueLength |}]) st.

(** *** One iteration of the main loop *)

Definition simStep (step : nat) (st : SimState) : M SimState :=
  let currentTime := num_mul (num_of_nat step) stepSize in
  st <- handleArrivals currentTime st ;;
  st <- forEachIndex (seq 0 (length (primaryStations st)))
                     (processPrimaryStation currentTime) st ;;
  st <- startSenior (tickSenior st) ;;
  ret (recordTimeSeries currentTime st).

(** [for (let step = 0; step < totalSteps; step++)] *)
Fixpoint mainLoop (n : nat) (step : nat) (st : SimState) : M SimState :=
  if num_lt (num_of_nat step) totalSteps then
    match n with
    | O => diverge
    | S n' => st' <- simStep step st ;; mainLoop n' (S step) st'
    end
  else ret st.

(** The state after the loop. *)
Definition simulate : M SimState :=
  st <- initialState ;;
  mainLoop fuel 0 st.

(** *** Aggregation *)

Definition mean (xs : list num) : num :=
  num_div (sum_num xs) (num_of_nat (length xs)).

Definition aggregate (st : SimState) : SimulationResult :=
  let avgWaitingTime := or_zero (mean (waitingTimes st)) in
  let totals := map (fun t => num_of_nat (totalQueueLength t)) (timeSeries st) in
  let maxQueueLength := Math_max totals in
  let avgQueueLength := mean totals in
  let perStationUtilization :=
    map (fun t => num_div t (simulationTime params)) (stationBusyTime st) in
  let seniorUtilization := num_div (seniorBusyTime st) (simulationTime params) in
  {| res_timeSeries := timeSeries st;
     avgWaitingTime := avgWaitingTime;
     maxQueueLength := maxQueueLength;
     utilization :=
       num_div (sum_num perStationUtilization) (num_of_Z (numStations params));
     avgQueueLength := avgQueueLength;
     avgSystemTime :=
       num_add
         (num_add avgWaitingTime (or_zero (mean (primaryServiceTimes st))))
         (if (0 <? length (seniorServiceTimes st))%nat
          then mean (seniorServiceTimes st) else Fin 0);
     waitingTimeDistribution :=
       calculateWaitingTimeDistribution (waitingTimes st);
     perStationUtilization := perStationUtilization;
     seniorUtilization := seniorUtilization |}.

Definition runSimulation : M SimulationResult :=
  st <- simulate ;;
  ret (aggregate st).

End Simulation.

(** ** A rational instance of the mathematical functions

    Used to run the engine on concrete inputs: [ln] by the series of the
    inverse hyperbolic tangent, [sqrt] by Heron's iteration, [cos] by its
    Taylor polynomial and [PI] by a rational approximation. *)

Module RationalMath.

(** [atanh_tail y k n] is the sum of [y^j / (2 (k + j) + 1)] for [j < n]. *)
Fixpoint atanh_tail (y : Q) (k : nat) (n : nat) : Q :=
  match n with
  | O => 0
  | S n' => 1 / inject_Z (2 * Z.of_nat k + 1) + y * atanh_tail y (S k) n'
  end.

Definition ln (q : Q) : Q :=
  let z := Qred ((q - 1) / (q + 1)) in
  Qred (2 * z * atanh_tail (Qred (z * z)) 0 11).

Fixpoint heron (q x : Q) (k : nat) : Q :=
  match k with
  | O => x
  | S k' => heron q (Qred ((x + q / x) / 2)) k'
  end.

Definition sqrt (q : Q) : Q :=
  if Qeq_bool q 0 then 0 else heron q (Qred ((q + 1) / 2)) 5.

Fixpoint cos_terms (x2 term acc : Q) (k : Z) (n : nat) : Q :=
  match n with
  | O => acc
  | S n' =>
      let term' := Qred (- term * x2 / inject_Z ((2 * k - 1) * (2 * k))) in
      cos_terms x2 term' (Qred (acc + term')) (k + 1) n'
  end.

Definition cos (x : Q) : Q := cos_terms (x * x) 1 1 1 10.

Definition PI : Q := 355 # 113.

End RationalMath.

#[export] Instance rationalMath : MathLib :=
  {| ln_pos := RationalMath.ln;
     sqrt_nonneg := RationalMath.sqrt;
     cos_fin := RationalMath.cos;
     Math_PI := RationalMath.PI |}.

(** * Vocabulary of the properties *)

(** ** Numbers *)

Definition finite (x : num) : Prop := exists q : Q, x = Fin q.

Definition finite_nonneg (x : num) : Prop :=
  exists q : Q, x = Fin q /\ 0 <= q.

Definition positive (x : num) : Prop := exists q : Q, x = Fin q /\ 0 < q.

Definition nonzero (x : num) : Prop := num_seq x (Fin 0) = false.



(** ** Random draws and calls of [Math.log] *)

(** The one fact about [Math.log] the engine relies on: it is not positive
    on the open unit interval. *)
Definition log_nonpositive_on_unit (ML : MathLib) : Prop :=
  forall q : Q, 0 < q -> q < 1 -> ln_pos q <= 0.

(** Streams of [Math.random]: every draw lies in [0, 1). *)
Definition unit_stream (f : nat -> Q) : Prop :=
  forall n : nat, 0 <= f n /\ f n < 1.

Definition constStream (q : Q) : nat -> Q := fun _ => q.

Definition newWorld (f : nat -> Q) : World :=
  {| randomStream := f; cursor := 0; logArgs := [] |}.

(** [w'] continues [w]: same random stream, and the calls of [Math.log]
    made in between all satisfy [P]. *)
Definition continues (P : num -> Prop) (w w' : World) : Prop :=
  randomStream w' = randomStream w /\
  exists l : list num, logArgs w' = logArgs w ++ l /\ Forall P l.

Definition log_calls {A : Type} (P : num -> Prop) (m : M A) : Prop :=
  forall w : World, continues P w (worldOf (m w)).

Definition anyLog : num -> Prop := fun _ => True.

(** ** Routing *)

Definition queueLength (s : Station) : nat := length (queue s).

(** [i] is the lowest index at which [lens] takes its minimum. *)
Definition first_shortest (lens : list nat) (i : nat) : Prop :=
  exists li : nat,
    nth_error lens i = Some li /\
    (forall j lj, nth_error lens j = Some lj -> (li <= lj)%nat) /\
    (forall j lj, (j < i)%nat -> nth_error lens j = Some lj -> (li < lj)%nat).

(** The callback of the [reduce] in [shortestQueueIndex]. *)
Definition keepShorter (min curr : nat * nat) : nat * nat :=
  if (fst curr <? fst min)%nat then curr else min.

(** ** Invariants of the loop *)

Definition b2n (b : bool) : nat := if b then 1%nat else 0%nat.

(** The number of primary stations in service. *)
Definition countBusy (l : list Station) : nat :=
  list_sum (map (fun s => b2n (busy s)) l).

Arguments countBusy : simpl never.

(** A station is busy exactly when it holds a traveler. *)
Definition station_ok (s : Station) : Prop :=
  busy s = true <-> traveler s <> None.

Definition stations_ok (st : SimState) : Prop :=
  Forall station_ok (primaryStations st) /\ station_ok (seniorStation st).

(** Every waiting-time sample belongs to a traveler that left primary
    service or is in it. *)
Definition conserved (st : SimState) : Prop :=
  length (waitingTimes st)
  = (primaryCompleted st + countBusy (primaryStations st))%nat.




(** The instant of iteration [k]: [k * stepSize]. *)
Definition timeOfStep (k : nat) : Q := inject_Z (Z.of_nat k) * (1 # 10).

(** A traveler that arrived at an instant not after [B]. *)
Definition arrivedBy (B : Q) (t : Traveler) : Prop :=
  exists q : Q, arrivalTime t = Fin q /\ q <= B.

(** Before iteration [k]: the recorded waits are numbers >= 0 and every
    traveler in a primary queue arrived at or before the instant of [k]. *)
Definition waitsBefore (k : nat) (st : SimState) : Prop :=
  Forall finite_nonneg (waitingTimes st) /\
  Forall (fun s => Forall (arrivedBy (timeOfStep k)) (queue s))
         (primaryStations st).

(** ** The closed form of the specification

    Written from the documented formulas, not from the code: the sum over
    [k < c], the factorial of the Standard Library and [mu = 1000 / mu1].
    It is compared with [calculateTheoretical] below. *)

Fixpoint bigsum (f : nat -> num) (n : nat) : num :=
  match n with
  | O => Fin 0
  | S n' => num_add (bigsum f n') (f n')
  end.

Definition closedForm (arrivalRate mu1 : num) (c : nat)
  : Theoretical.TheoreticalResults :=
  let lambda := num_div arrivalRate (Fin 60) in
  let mu := num_div (Fin 1000) mu1 in
  let rho := num_div lambda (num_mul (num_of_nat c) mu) in
  let a := num_mul (num_of_nat c) rho in
  let tail :=
    num_div (pow_nat a c)
            (num_mul (num_of_nat (fact c)) (num_sub (Fin 1) rho)) in
  let P0 :=
    num_div (Fin 1)
      (num_add
         (bigsum (fun k => num_div (pow_nat a k) (num_of_nat (fact k))) c)
         tail) in
  let C :=
    num_div (num_mul (pow_nat a c) P0)
            (num_mul (num_of_nat (fact c)) (num_sub (Fin 1) rho)) in
  let Lq := num_div (num_mul C rho) (num_sub (Fin 1) rho) in
  let Wq := num_div Lq lambda in
  let Ws := num_add Wq (num_div (Fin 1) mu) in
  {| Theoretical.utilization := rho;
     Theoretical.avgQueueLength := Lq;
     Theoretical.avgWaitTime := Wq;
     Theoretical.avgSystemTime := Ws |}.

Definition results_eq (r r' : Theoretical.TheoreticalResults) : Prop :=
  num_eq (Theoretical.utilization r) (Theoretical.utilization r') /\
  num_eq (Theoretical.avgQueueLength r) (Theoretical.avgQueueLength r') /\
  num_eq (Theoretical.avgWaitTime r) (Theoretical.avgWaitTime r') /\
  num_eq (Theoretical.avgSystemTime r) (Theoretical.avgSystemTime r').

(** ** Concrete inputs *)

(** The parameters of the stability example of the specification. *)
Definition documentedParams : SimParams :=
  {| numStations := 2; arrivalRate := Fin 10; mu1 := Fin 30000;
     sigma1 := Fin 10; mu2 := Fin 120; sigma2 := Fin 120;
     screenProb := Fin (3 # 100); simulationTime := Fin 3600 |}.

(** One station, one arrival per second on average, a constant service
    time of thirty seconds and a horizon of one second (ten steps). *)
Definition lightParams : SimParams :=
  {| numStations := 1; arrivalRate := Fin 60; mu1 := Fin 30;
     sigma1 := Fin 0; mu2 := Fin 120; sigma2 := Fin 0;
     screenProb := Fin 0; simulationTime := Fin 1 |}.

(** [Math.random] returns one half at every call. *)
Definition halfWorld : World := newWorld (constStream (1 # 2)).


Definition waiting (n : nat) : list Traveler :=
  repeat {| arrivalTime := Fin 0; needsScreening := false;
            startServiceTime := None; endServiceTime := None |} n.

(** Three idle stations with queues of length 2, 0 and 3, and an arrival
    due. *)
Definition snapshotState : SimState :=
  {| primaryStations :=
       [set_queue (waiting 2) idleStation;
        set_queue (waiting 0) idleStation;
        set_queue (waiting 3) idleStation];
     seniorStation := idleStation;
     timeSeries := [];
     waitingTimes := [];
     primaryServiceTimes := [];
     seniorServiceTimes := [];
     stationBusyTime := [Fin 0; Fin 0; Fin 0];
     seniorBusyTime := Fin 0;
     timeToNextArrival := Fin 0;
     primaryCompleted := 0 |}.

(** ** Further vocabulary *)

(** The traveler created by an arrival at [currentTime] with the draw [r]. *)
Definition newArrival (params : SimParams) (currentTime r : num) : Traveler :=
  {| arrivalTime := currentTime;
     needsScreening := num_lt r (screenProb params);
     startServiceTime := None;
     endServiceTime := None |}.

(** The number of iterations of the main loop for the horizon [T]. *)
Definition stepCount (T : num) : nat :=
  match T with
  | Fin t => Z.to_nat (Qceiling (t / (1 # 10)))
  | _ => O
  end.

(** An execution whose exception, if it ends in one, satisfies [P]. *)
Definition throws {A : Type} (P : exn -> Prop) (o : outcome A) : Prop :=
  match o with
  | Throw e _ => P e
  | _ => True
  end.

(** An execution that does not end in an exception. *)
Definition quiet {A : Type} (o : outcome A) : Prop := throws (fun _ => False) o.

(** With no station: nothing is queued, served or recorded as waiting. *)
Definition deserted (st : SimState) : Prop :=
  primaryStations st = [] /\
  waitingTimes st = [] /\
  queue (seniorStation st) = [] /\
  Forall (fun p => totalQueueLength p = 0%nat) (timeSeries st).

(** The number of travelers waiting in the primary queues. *)
Definition queued (l : list Station) : nat :=
  list_sum (map queueLength l).

Arguments queued : simpl never.

(** A recorded point of a run with [n] stations. *)
Definition point_ok (n : nat) (p : TimeSeriesPoint) : Prop :=
  length (queueLengths p) = n /\
  totalQueueLength p = (list_sum (queueLengths p) + seniorQueueLength p)%nat.

(** Before iteration [k] of a run with [n] stations: the shape of the
    arrays, one recorded point per iteration, one service duration per
    waiting time and at most [a] arrivals so far. *)
Definition ledger (n k a : nat) (st : SimState) : Prop :=
  length (primaryStations st) = n /\
  length (stationBusyTime st) = n /\
  map time (timeSeries st) = map (fun j => Fin (timeOfStep j)) (seq 0 k) /\
  Forall (point_ok n) (timeSeries st) /\
  length (primaryServiceTimes st) = length (waitingTimes st) /\
  (length (waitingTimes st) + queued (primaryStations st) <= a)%nat.

(** A number that is not below zero ([!(x < 0)]; [NaN] passes). *)
Definition notNegative (x : num) : Prop := num_lt x (Fin 0) = false.



(** Service durations are never negative, and only travelers selected for
    additional screening reach the senior station. *)
Definition service_ok (st : SimState) : Prop :=
  Forall notNegative (primaryServiceTimes st) /\
  Forall notNegative (seniorServiceTimes st) /\
  Forall (fun s => busy s = true -> notNegative (remainingTime s))
         (primaryStations st) /\
  (busy (seniorStation st) = true ->
   notNegative (remainingTime (seniorStation st))) /\
  Forall (fun t => needsScreening t = true) (queue (seniorStation st)) /\
  (forall t, traveler (seniorStation st) = Some t -> needsScreening t = true).

(** No traveler is selected for additional screening and the senior
    station has never been used. *)
Definition unscreened (st : SimState) : Prop :=
  Forall (fun s => Forall (fun t => needsScreening t = false) (queue s) /\
                   (forall t, traveler s = Some t -> needsScreening t = false))
         (primaryStations st) /\
  seniorStation st = idleStation /\
  seniorServiceTimes st = [] /\
  seniorBusyTime st = Fin 0 /\
  Forall (fun p => seniorQueueLength p = 0%nat) (timeSeries st).

(** Every recorded service duration is a number >= 0. *)
Definition timed (st : SimState) : Prop :=
  Forall finite_nonneg (primaryServiceTimes st) /\
  Forall finite_nonneg (seniorServiceTimes st).

(** ** The form of the page

    [defaultParams] is the initial state of the form; every slider keeps
    its value between its [min] and [max] attributes. *)

Definition defaultParams : SimParams :=
  {| numStations := 2; arrivalRate := Fin 10; mu1 := Fin 30;
     sigma1 := Fin 10; mu2 := Fin 120; sigma2 := Fin 120;
     screenProb := Fin (3 # 100); simulationTime := Fin 3600 |}.

Definition within (lo hi : Q) (x : num) : Prop :=
  exists q : Q, x = Fin q /\ lo <= q /\ q <= hi.

(** ** Further inputs *)

(** [lightParams] with no station at all. *)
Definition noStationParams : SimParams :=
  {| numStations := 0; arrivalRate := Fin 60; mu1 := Fin 30;
     sigma1 := Fin 0; mu2 := Fin 120; sigma2 := Fin 0;
     screenProb := Fin 0; simulationTime := Fin 1 |}.

(** One station, one arrival per second, service of one second. *)
Definition saturatedParams : SimParams :=
  {| numStations := 1; arrivalRate := Fin 60; mu1 := Fin 1000;
     sigma1 := Fin 0; mu2 := Fin 120; sigma2 := Fin 0;
     screenProb := Fin 0; simulationTime := Fin 1 |}.

(** A stream of [n] draws equal to zero, then draws equal to [q]. *)
Definition zerosThen (n : nat) (q : Q) : nat -> Q :=
  fun k => if (k <? n)%nat then 0 else q.

(** [lightParams] with no arrival at all. *)
Definition idleParams : SimParams :=
  {| numStations := 1; arrivalRate := Fin 0; mu1 := Fin 30;
     sigma1 := Fin 0; mu2 := Fin 120; sigma2 := Fin 0;
     screenProb := Fin 0; simulationTime := Fin 1 |}.

(** Nothing has happened and no arrival is scheduled: the time to the next
    arrival is [Infinity] or [NaN]. *)
Definition calm (st : SimState) : Prop :=
  Forall (fun s => s = idleStation) (primaryStations st) /\
  seniorStation st = idleStation /\
  waitingTimes st = [] /\
  Forall (fun b => b = Fin 0) (stationBusyTime st) /\
  seniorBusyTime st = Fin 0 /\
  (timeToNextArrival st = PInf \/ timeToNextArrival st = NaN) /\
  Forall (fun p => totalQueueLength p = 0%nat) (timeSeries st).

(** * Properties *)

(** ** The effect monad *)

Lemma bind_Ok (A B : Type) (m : M A) (f : A -> M B) w b w2 :
  bind m f w = Ok b w2 ->
  exists a w1, m w = Ok a w1 /\ f a w1 = Ok b w2.
Proof.
  unfold bind. destruct (m w) as [a w1| |]; try discriminate.
  intros H. exists a, w1. split; [reflexivity | exact H].
Qed.

Lemma ret_Ok (A : Type) (a b : A) w w' : ret a w = Ok b w' -> a = b /\ w = w'.
Proof. unfold ret. intros H. inversion H. split; reflexivity. Qed.

Ltac inv_ret H :=
  let E1 := fresh "E" in
  let E2 := fresh "E" in
  apply ret_Ok in H; destruct H as [E1 E2]; subst.

Ltac inv_bind H :=
  let a := fresh "a" in
  let w1 := fresh "w" in
  let H1 := fresh "Hm" in
  apply bind_Ok in H; destruct H as (a & w1 & H1 & H).

Lemma continues_refl (P : num -> Prop) w : continues P w w.
Proof.
  split; [reflexivity|]. exists []. rewrite app_nil_r. split; constructor.
Qed.

Lemma continues_trans (P : num -> Prop) w1 w2 w3 :
  continues P w1 w2 -> continues P w2 w3 -> continues P w1 w3.
Proof.
  intros [S1 (l1 & E1 & F1)] [S2 (l2 & E2 & F2)]. split.
  - congruence.
  - exists (l1 ++ l2). rewrite E2, E1, app_assoc. split; [reflexivity|].
    apply Forall_app. split; assumption.
Qed.

Lemma continues_weaken (P Q : num -> Prop) w w' :
  (forall x, P x -> Q x) -> continues P w w' -> continues Q w w'.
Proof.
  intros HPQ [S1 (l & E & F)]. split; [assumption|].
  exists l. split; [assumption|]. eapply Forall_impl; eauto.
Qed.

Lemma log_calls_ret (A : Type) (P : num -> Prop) (a : A) : log_calls P (ret a).
Proof. intros w. apply continues_refl. Qed.

Lemma log_calls_throw (A : Type) (P : num -> Prop) e : log_calls P (@throw A e).
Proof. intros w. apply continues_refl. Qed.

Lemma log_calls_diverge (A : Type) (P : num -> Prop) : log_calls P (@diverge A).
Proof. intros w. apply continues_refl. Qed.

Lemma log_calls_bind (A B : Type) (P : num -> Prop) (m : M A) (f : A -> M B) :
  log_calls P m -> (forall a, log_calls P (f a)) -> log_calls P (bind m f).
Proof.
  intros Hm Hf w. unfold bind. specialize (Hm w).
  destruct (m w) as [a w1|e w1|w1]; simpl in *; try assumption.
  eapply continues_trans; [exact Hm | apply Hf].
Qed.

Lemma log_calls_random (P : num -> Prop) : log_calls P Math_random.
Proof.
  intros w. split; [reflexivity|]. exists []. simpl.
  rewrite app_nil_r. split; constructor.
Qed.

Lemma log_calls_if (A : Type) (P : num -> Prop) (b : bool) (m1 m2 : M A) :
  log_calls P m1 -> log_calls P m2 -> log_calls P (if b then m1 else m2).
Proof. destruct b; auto. Qed.

Create HintDb logs.

#[local] Hint Resolve log_calls_ret log_calls_throw log_calls_diverge
  log_calls_random : logs.

(** ** Comparisons on numbers *)

Lemma Qlt_bool_iff (p q : Q) : Qlt_bool p q = true <-> p < q.
Proof.
  unfold Qlt_bool. rewrite negb_true_iff. split.
  - intros H. apply Qnot_le_lt. intros C.
    apply Qle_bool_iff in C. congruence.
  - intros H. destruct (Qle_bool q p) eqn:E; [|reflexivity].
    apply Qle_bool_iff in E. exfalso. eapply Qlt_not_le; eauto.
Qed.

Lemma Qlt_bool_false (p q : Q) : Qlt_bool p q = false <-> q <= p.
Proof.
  unfold Qlt_bool. rewrite negb_false_iff. apply Qle_bool_iff.
Qed.

Lemma Qle_bool_false (p q : Q) : Qle_bool p q = false <-> q < p.
Proof.
  split.
  - intros H. apply Qnot_le_lt. intros C.
    apply Qle_bool_iff in C. congruence.
  - intros H. destruct (Qle_bool p q) eqn:E; [|reflexivity].
    apply Qle_bool_iff in E. exfalso. eapply Qlt_not_le; eauto.
Qed.

Lemma Qeq_bool_false (p q : Q) : Qeq_bool p q = false <-> ~ p == q.
Proof.
  split.
  - apply Qeq_bool_neq.
  - intros H. destruct (Qeq_bool p q) eqn:E; [|reflexivity].
    apply Qeq_bool_iff in E. contradiction.
Qed.

(** ** truncatedNormal *)

Section SamplingFacts.

Context {ML : MathLib}.

Lemma log_calls_Math_log (P : num -> Prop) (x : num) :
  P x -> log_calls P (Math_log x).
Proof.
  intros Hx w. split; [reflexivity|]. exists [x]. simpl.
  split; [reflexivity|]. constructor; [assumption | constructor].
Qed.

(** The inner [while] loops leave with a draw that is not zero. *)
Lemma drawNonZero_nonzero (fuel : nat) w u w' :
  drawNonZero fuel w = Ok u w' ->
  nonzero u /\ exists n : nat, u = Fin (randomStream w n).
Proof.
  revert w. induction fuel as [|fuel IH]; intros w H; simpl in H.
  - discriminate.
  - inv_bind H. unfold Math_random in Hm. inversion Hm; subst; clear Hm.
    destruct (num_seq _ _) eqn:E.
    + apply IH in H. destruct H as [Hn [n Hu]]. split; [assumption|].
      exists n. exact Hu.
    + inv_ret H. split; [exact E|]. exists (cursor w). reflexivity.
Qed.

Lemma log_calls_drawNonZero (P : num -> Prop) (fuel : nat) :
  log_calls P (drawNonZero fuel).
Proof.
  induction fuel as [|fuel IH]; simpl; auto with logs.
  apply log_calls_bind; auto with logs.
  intros u. apply log_calls_if; auto with logs.
Qed.

(** Every call of [Math.log] made by [truncatedNormal] has a non-zero
    argument, however the call ends. *)
Lemma truncatedNormal_loop_log_nonzero (fuel n : nat) (mu sigma : num) :
  log_calls nonzero (truncatedNormal_loop fuel n mu sigma).
Proof.
  induction n as [|n IH]; simpl; auto with logs.
  intros w. unfold bind.
  pose proof (log_calls_drawNonZero nonzero fuel w) as Hu.
  destruct (drawNonZero fuel w) as [u w1|e w1|w1] eqn:Eu; simpl in Hu;
    try exact Hu.
  pose proof (log_calls_drawNonZero nonzero fuel w1) as Hv.
  destruct (drawNonZero fuel w1) as [v w2|e w2|w2] eqn:Ev; simpl in Hv;
    try (eapply continues_trans; eauto; fail).
  apply drawNonZero_nonzero in Eu. destruct Eu as [Hnz _].
  pose proof (log_calls_Math_log nonzero u Hnz w2) as Hl.
  unfold Math_log in *. simpl in Hl.
  match goal with
  | |- context [if ?c then _ else _] => destruct c
  end.
  - eapply continues_trans; [exact Hu|].
    eapply continues_trans; [exact Hv|].
    eapply continues_trans; [exact Hl|]. apply IH.
  - simpl. eapply continues_trans; [exact Hu|].
    eapply continues_trans; [exact Hv|]. exact Hl.
Qed.

Lemma truncatedNormal_log_nonzero (fuel : nat) (mu sigma : num) :
  log_calls nonzero (truncatedNormal fuel mu sigma).
Proof. apply truncatedNormal_loop_log_nonzero. Qed.

Lemma log_calls_truncatedNormal (fuel : nat) (mu sigma : num) :
  log_calls (fun _ => True) (truncatedNormal fuel mu sigma).
Proof.
  intros w. eapply continues_weaken; [|apply truncatedNormal_log_nonzero].
  intros; exact I.
Qed.

(** The value the loop leaves with is not negative; it is a number as soon
    as the parameters are. *)
Lemma truncatedNormal_loop_not_negative (fuel n : nat) (mu sigma : num) w v w' :
  truncatedNormal_loop fuel n mu sigma w = Ok v w' ->
  num_lt v (Fin 0) = false.
Proof.
  revert w. induction n as [|n IH]; intros w H; simpl in H.
  - discriminate.
  - inv_bind H. inv_bind H. inv_bind H.
    match type of H with
    | (if ?c then _ else _) _ = _ => destruct c eqn:E
    end.
    + eapply IH; eauto.
    + inv_ret H. exact E.
Qed.

Lemma log_value_unit (q : Q) :
  log_nonpositive_on_unit ML -> 0 < q -> q < 1 ->
  exists l : Q, log_value (Fin q) = Fin l /\ l <= 0.
Proof.
  intros Hlaw H0 H1. unfold log_value.
  destruct (q ?= 0) eqn:E.
  - apply Qeq_alt in E. rewrite E in H0. exfalso. eapply Qlt_irrefl; eauto.
  - apply Qlt_alt in E. exfalso. eapply Qlt_irrefl.
    eapply Qlt_trans; eauto.
  - exists (ln_pos q). split; [reflexivity|]. apply Hlaw; assumption.
Qed.

Lemma drawNonZero_unit (fuel : nat) w u w' :
  unit_stream (randomStream w) ->
  drawNonZero fuel w = Ok u w' ->
  exists q : Q, u = Fin q /\ 0 < q /\ q < 1.
Proof.
  intros Hs H. apply drawNonZero_nonzero in H.
  destruct H as [Hnz [n Hu]]. subst u.
  exists (randomStream w n). split; [reflexivity|].
  destruct (Hs n) as [H0 H1]. split; [|assumption].
  unfold nonzero in Hnz. simpl in Hnz. apply Qeq_bool_false in Hnz.
  apply Qle_lteq in H0. destruct H0 as [H0|H0]; [assumption|].
  exfalso. apply Hnz. symmetry. exact H0.
Qed.

Lemma drawNonZero_stream (fuel : nat) w u w' :
  drawNonZero fuel w = Ok u w' -> randomStream w' = randomStream w.
Proof.
  intros H. pose proof (log_calls_drawNonZero (fun _ => True) fuel w) as C.
  rewrite H in C. simpl in C. apply C.
Qed.

Lemma truncatedNormal_loop_finite (fuel n : nat) (m s : Q) w v w' :
  log_nonpositive_on_unit ML ->
  unit_stream (randomStream w) ->
  truncatedNormal_loop fuel n (Fin m) (Fin s) w = Ok v w' ->
  finite_nonneg v.
Proof.
  intros Hlaw. revert w. induction n as [|n IH]; intros w Hs H;
    cbn [truncatedNormal_loop] in H.
  - discriminate.
  - inv_bind H. inv_bind H. inv_bind H.
    pose proof (drawNonZero_stream _ _ Hm) as S1.
    pose proof (drawNonZero_stream _ _ Hm0) as S2.
    apply drawNonZero_unit in Hm; [|assumption].
    destruct Hm as (qu & -> & Hu0 & Hu1).
    apply drawNonZero_unit in Hm0; [|rewrite S1; assumption].
    destruct Hm0 as (qv & -> & Hv0 & Hv1).
    unfold Math_log in Hm1. inversion Hm1; subst; clear Hm1.
    destruct (log_value_unit Hlaw Hu0 Hu1) as (l & El & Hl).
    unfold log_value in El. rewrite El in H. cbn [num_mul Math_sqrt] in H.
    assert (Hsq : Qle_bool 0 (-2 * l) = true).
    { apply Qle_bool_iff. lra. }
    rewrite Hsq in H. cbn [num_mul num_add Math_cos] in H.
    match type of H with
    | (if ?c then _ else _) _ = _ => destruct c eqn:E
    end.
    + eapply IH; [|exact H]. cbn [randomStream]. rewrite S2, S1. assumption.
    + inv_ret H. eexists. split; [reflexivity|].
      apply Qlt_bool_false in E. exact E.
Qed.

End SamplingFacts.

(** ** The waiting-time histogram *)

Lemma incr_nth_length (l : list nat) (i : nat) :
  length (incr_nth l i) = length l.
Proof.
  revert i. induction l as [|x l IH]; intros [|i]; simpl; auto.
Qed.

Lemma incr_nth_sum (l : list nat) (i : nat) :
  (i < length l)%nat -> list_sum (incr_nth l i) = S (list_sum l).
Proof.
  revert i. induction l as [|x l IH]; intros [|i] H; simpl in *; try lia.
  rewrite IH by lia. lia.
Qed.

Lemma array_index_of_Z (z : Z) :
  (0 <= z)%Z -> array_index (num_of_Z z) = Some (Z.to_nat z).
Proof.
  intros Hz. unfold array_index, num_of_Z. rewrite Qfloor_Z.
  rewrite Qeq_bool_refl. simpl.
  assert (E : Qle_bool 0 (inject_Z z) = true).
  { apply Qle_bool_iff. change 0 with (inject_Z 0).
    rewrite <- Zle_Qle. assumption. }
  rewrite E. reflexivity.
Qed.

(** The maximum of finite numbers is finite and bounds each of them. *)
Lemma fold_max_finite (ws : list num) (a : Q) :
  Forall finite ws ->
  exists m : Q,
    fold_left Math_max2 ws (Fin a) = Fin m /\ a <= m /\
    Forall (fun t => exists q, t = Fin q /\ q <= m) ws.
Proof.
  intros H. revert a. induction H as [|t ws [q ->] _ IH]; intros a.
  - exists a. simpl. split; [reflexivity|]. split; [apply Qle_refl | constructor].
  - simpl. destruct (Qle_bool a q) eqn:E.
    + apply Qle_bool_iff in E. destruct (IH q) as (m & Em & Hm & Hall).
      exists m. split; [exact Em|]. split; [lra|].
      constructor; [exists q; split; [reflexivity | assumption] | assumption].
    + apply Qle_bool_false in E. destruct (IH a) as (m & Em & Hm & Hall).
      exists m. split; [exact Em|]. split; [assumption|].
      constructor; [exists q; split; [reflexivity | lra] | assumption].
Qed.

Lemma Math_max_finite (t : num) (ws : list num) :
  Forall finite (t :: ws) ->
  exists m : Q,
    Math_max (t :: ws) = Fin m /\
    Forall (fun t => exists q, t = Fin q /\ q <= m) (t :: ws).
Proof.
  intros H. inversion H as [|? ? [q ->] Hws]; subst.
  unfold Math_max. simpl.
  destruct (fold_max_finite q Hws) as (m & Em & Hm & Hall).
  exists m. split; [exact Em|].
  constructor; [exists q; split; [reflexivity | assumption] | assumption].
Qed.

(** With a positive bin width, a non-negative sample goes to the bin
    [floor (q / b)], clamped to the last one. *)
Lemma binIndexOf_floor_clamped (b q : Q) :
  0 < b -> 0 <= q ->
  array_index (binIndexOf (Fin b) (Fin q))
  = Some (Z.to_nat (Z.min (Qfloor (q / b)) 19)).
Proof.
  intros Hb Hq. unfold binIndexOf. cbn [num_div].
  assert (Eb : Qeq_bool b 0 = false).
  { apply Qeq_bool_false. intros C. rewrite C in Hb.
    eapply Qlt_irrefl; eauto. }
  rewrite Eb. cbn [Math_floor].
  assert (Hz : (0 <= Qfloor (q / b))%Z).
  { rewrite <- (Qfloor_Z 0). apply Qfloor_resp_le.
    change (inject_Z 0) with 0. apply Qle_shift_div_l; [assumption|].
    rewrite Qmult_0_l. assumption. }
  unfold num_of_nat, num_of_Z at 1 2. cbn [Math_min num_le].
  change (Z.of_nat (numBins - 1)) with 19%Z.
  destruct (Qle_bool _ _) eqn:E.
  - apply Qle_bool_iff in E. rewrite <- Zle_Qle in E.
    rewrite Z.min_l by assumption. apply (array_index_of_Z Hz).
  - apply Qle_bool_false in E. rewrite <- Zlt_Qlt in E.
    rewrite Z.min_r by lia. apply (@array_index_of_Z 19). lia.
Qed.

Lemma binIndexOf_in_range (b q : Q) :
  0 < b -> 0 <= q ->
  exists i : nat,
    array_index (binIndexOf (Fin b) (Fin q)) = Some i /\ (i < numBins)%nat.
Proof.
  intros Hb Hq. eexists. split; [apply binIndexOf_floor_clamped; assumption|].
  unfold numBins. lia.
Qed.

(** Whatever the sample and the bin width, the index stays below
    [numBins]: the array of counts is never extended. *)
Lemma binIndexOf_never_extends (binSize time : num) (i : nat) :
  array_index (binIndexOf binSize time) = Some i -> (i < numBins)%nat.
Proof.
  unfold binIndexOf. change (num_of_nat (numBins - 1)) with (num_of_Z 19).
  destruct (Math_floor (num_div time binSize)) as [q| | |];
    cbn [Math_min num_of_Z num_le]; try discriminate.
  - destruct (Qle_bool q (inject_Z 19)) eqn:E.
    + unfold array_index.
      destruct (Qeq_bool q (inject_Z (Qfloor q)) && Qle_bool 0 q)%bool;
        [|discriminate].
      intros H. inversion H; subst. apply Qle_bool_iff in E.
      apply Qfloor_resp_le in E. rewrite Qfloor_Z in E. unfold numBins. lia.
    + intros H. rewrite (@array_index_of_Z 19) in H by lia.
      inversion H. unfold numBins. lia.
  - intros H. rewrite (@array_index_of_Z 19) in H by lia.
    inversion H. unfold numBins. lia.
Qed.

Lemma fold_counts_sum (b : Q) (ws : list num) (cs : list nat) :
  0 < b ->
  Forall finite_nonneg ws ->
  length cs = numBins ->
  length
    (fold_left (fun cs time => counts_incr cs (binIndexOf (Fin b) time)) ws cs)
  = numBins /\
  list_sum
    (fold_left (fun cs time => counts_incr cs (binIndexOf (Fin b) time)) ws cs)
  = (list_sum cs + length ws)%nat.
Proof.
  intros Hb H. revert cs.
  induction H as [|t ws (q & -> & Hq) _ IH]; intros cs Hlen; cbn [fold_left].
  - simpl. split; [assumption | lia].
  - destruct (binIndexOf_in_range Hb Hq) as (i & Ei & Hi).
    assert (E : counts_incr cs (binIndexOf (Fin b) (Fin q)) = incr_nth cs i).
    { unfold counts_incr. rewrite Ei. reflexivity. }
    rewrite E.
    destruct (IH (incr_nth cs i)) as [L S].
    { rewrite incr_nth_length. assumption. }
    split; [exact L|]. rewrite S, incr_nth_sum by lia. simpl. lia.
Qed.

(** With a zero bin width, a zero sample divides to [NaN], which is no
    array index. *)
Lemma binIndexOf_zero (b q : Q) :
  b == 0 -> q == 0 -> array_index (binIndexOf (Fin b) (Fin q)) = None.
Proof.
  intros Hb Hq. unfold binIndexOf. cbn [num_div].
  assert (Eb : Qeq_bool b 0 = true) by (apply Qeq_bool_iff; assumption).
  rewrite Eb.
  assert (Eq : (q ?= 0) = Eq) by (apply Qeq_alt; assumption).
  rewrite Eq. reflexivity.
Qed.

Lemma fold_max_zero (ws : list num) (a : Q) :
  a == 0 ->
  Forall (fun t => num_eq t (Fin 0)) ws ->
  exists m : Q, fold_left Math_max2 ws (Fin a) = Fin m /\ m == 0.
Proof.
  intros Ha H. revert a Ha. induction H as [|t ws Ht _ IH]; intros a Ha.
  - exists a. split; [reflexivity | assumption].
  - destruct t as [q| | |]; simpl in Ht; try contradiction.
    simpl. destruct (Qle_bool a q); apply IH; assumption.
Qed.

Lemma fold_counts_zero (b : Q) (ws : list num) (cs : list nat) :
  b == 0 ->
  Forall (fun t => num_eq t (Fin 0)) ws ->
  fold_left (fun cs time => counts_incr cs (binIndexOf (Fin b) time)) ws cs = cs.
Proof.
  intros Hb H. induction H as [|t ws Ht _ IH]; cbn [fold_left]; [reflexivity|].
  destruct t as [q| | |]; simpl in Ht; try contradiction.
  assert (E : counts_incr cs (binIndexOf (Fin b) (Fin q)) = cs).
  { unfold counts_incr. rewrite (binIndexOf_zero Hb Ht). reflexivity. }
  rewrite E. exact IH.
Qed.

(** When every waiting time is zero, no sample reaches a bin. *)
Lemma all_zero_counts (ws : list num) :
  Forall (fun t => num_eq t (Fin 0)) ws ->
  counts (calculateWaitingTimeDistribution ws) = repeat 0%nat numBins.
Proof.
  intros H. unfold calculateWaitingTimeDistribution. cbn [counts].
  destruct H as [|t ws Ht Hws]; [reflexivity|].
  destruct t as [q| | |]; simpl in Ht; try contradiction.
  unfold Math_max. cbn [fold_left Math_max2 num_le].
  destruct (fold_max_zero Ht Hws) as (m & Em & Hm).
  rewrite Em. cbn [num_div num_of_nat num_of_Z].
  change (Qeq_bool (inject_Z (Z.of_nat numBins)) 0) with false.
  cbv iota.
  set (b := m / inject_Z (Z.of_nat numBins)).
  assert (Hb : b == 0).
  { unfold b. rewrite Hm. reflexivity. }
  apply (fold_counts_zero (ws := Fin q :: ws) _ Hb).
  constructor; assumption.
Qed.

(** ** Arrays updated in place *)

Lemma update_nth_length (A : Type) (l : list A) (i : nat) (f : A -> A) :
  length (update_nth l i f) = length l.
Proof.
  revert i. induction l as [|x l IH]; intros [|i]; simpl; auto.
Qed.



Lemma update_nth_Forall (A : Type) (P : A -> Prop) (l : list A) (i : nat)
  (f : A -> A) :
  Forall P l ->
  (forall x, nth_error l i = Some x -> P x -> P (f x)) ->
  Forall P (update_nth l i f).
Proof.
  intros H. revert i. induction H as [|x l Hx Hl IH]; intros [|i] Hf; simpl.
  - constructor.
  - constructor.
  - constructor; [apply Hf; [reflexivity | assumption] | assumption].
  - constructor; [assumption|]. apply IH. intros y Hy. apply Hf. exact Hy.
Qed.

Lemma Forall_nth_error (A : Type) (P : A -> Prop) (l : list A) (i : nat) (x : A) :
  Forall P l -> nth_error l i = Some x -> P x.
Proof.
  intros H E. rewrite Forall_forall in H. apply H.
  eapply nth_error_In. exact E.
Qed.

(** ** Shortest-queue routing *)

Lemma pairs_combine (stations : list Station) (a : nat) :
  map (fun si : Station * nat => (length (queue (fst si)), snd si))
      (combine stations (seq a (length stations)))
  = combine (map queueLength stations) (seq a (length stations)).
Proof.
  revert a. induction stations as [|s l IH]; intros a; simpl; [reflexivity|].
  rewrite IH. reflexivity.
Qed.

Lemma keepShorter_scan (lens : list nat) (a l0 i0 : nat) :
  let r := fold_left keepShorter (combine lens (seq a (length lens))) (l0, i0) in
  (snd r = i0 /\ fst r = l0 /\ Forall (fun l => (l0 <= l)%nat) lens)
  \/ (exists j : nat,
        snd r = (a + j)%nat /\ nth_error lens j = Some (fst r) /\
        (fst r < l0)%nat /\ Forall (fun l => (fst r <= l)%nat) lens /\
        forall j' lj', (j' < j)%nat -> nth_error lens j' = Some lj' ->
                       (fst r < lj')%nat).
Proof.
  revert a l0 i0. induction lens as [|x lens IH]; intros a l0 i0; cbn zeta.
  - left. simpl. repeat split. constructor.
  - cbn [length seq combine fold_left].
    assert (K : keepShorter (l0, i0) (x, a)
                = if (x <? l0)%nat then (x, a) else (l0, i0)) by reflexivity.
    rewrite K. clear K. destruct (x <? l0)%nat eqn:E.
    + apply Nat.ltb_lt in E.
      destruct (IH (S a) x a) as [(Hi & Hl & Hall)|(j & Hi & Hn & Hlt & Hall & Hbefore)].
      * right. exists 0%nat. rewrite Hi, Hl. repeat split.
        -- lia.
        -- assumption.
        -- constructor; [lia | assumption].
        -- intros j' lj' Hj'. lia.
      * right. exists (S j). rewrite Hi. repeat split.
        -- lia.
        -- exact Hn.
        -- lia.
        -- constructor; [lia | assumption].
        -- intros [|j'] lj' Hj' Hnth; simpl in Hnth.
           ++ inversion Hnth; subst. assumption.
           ++ eapply Hbefore; [|exact Hnth]. lia.
    + apply Nat.ltb_ge in E.
      destruct (IH (S a) l0 i0) as [(Hi & Hl & Hall)|(j & Hi & Hn & Hlt & Hall & Hbefore)].
      * left. repeat split; try assumption. constructor; assumption.
      * right. exists (S j). rewrite Hi. repeat split.
        -- lia.
        -- exact Hn.
        -- assumption.
        -- constructor; [lia | assumption].
        -- intros [|j'] lj' Hj' Hnth; simpl in Hnth.
           ++ inversion Hnth; subst. lia.
           ++ eapply Hbefore; [|exact Hnth]. lia.
Qed.

Lemma shortestQueueIndex_spec (stations : list Station) w i w' :
  shortestQueueIndex stations w = Ok i w' ->
  w' = w /\ first_shortest (map queueLength stations) i.
Proof.
  unfold shortestQueueIndex. rewrite pairs_combine.
  destruct stations as [|s rest]; [discriminate|].
  cbn [map length seq combine]. intros H. inv_ret H.
  split; [reflexivity|].
  change (fun min curr : nat * nat =>
            if (fst curr <? fst min)%nat then curr else min)
    with keepShorter.
  rewrite <- (length_map queueLength rest).
  pose proof (keepShorter_scan (map queueLength rest) 1 (queueLength s) 0) as K.
  cbn zeta in K.
  destruct K as [(Hi & Hl & Hall)|(j & Hi & Hn & Hlt & Hall & Hbefore)].
  - rewrite Hi. exists (queueLength s). repeat split.
    + intros [|j] lj Hj; simpl in Hj.
      * inversion Hj. lia.
      * apply (Forall_nth_error _ Hall Hj).
    + intros j lj Hj. lia.
  - rewrite Hi. cbn [Nat.add].
    exists (fst (fold_left keepShorter
                   (combine (map queueLength rest)
                            (seq 1 (length (map queueLength rest))))
                   (queueLength s, 0%nat))).
    repeat split.
    + exact Hn.
    + intros [|j'] lj Hj; simpl in Hj.
      * inversion Hj; subst. lia.
      * apply (Forall_nth_error _ Hall Hj).
    + intros [|j'] lj Hlt' Hj; simpl in Hj.
      * inversion Hj; subst. assumption.
      * eapply Hbefore; [|exact Hj]. lia.
Qed.

Lemma shortestQueueIndex_total (s : Station) (rest : list Station) w :
  exists i : nat, shortestQueueIndex (s :: rest) w = Ok i w.
Proof. unfold shortestQueueIndex. simpl. eexists. reflexivity. Qed.

(** ** The simulation loop *)

Lemma countBusy_update (l : list Station) (i : nat) (s s' : Station) :
  nth_error l i = Some s ->
  (countBusy (update_nth l i (fun _ => s')) + b2n (busy s)
   = countBusy l + b2n (busy s'))%nat.
Proof.
  unfold countBusy. revert i.
  induction l as [|x l IH]; intros [|i] H; simpl in *; try discriminate.
  - inversion H; subst. lia.
  - specialize (IH i H). lia.
Qed.

Lemma countBusy_set_queue (l : list Station) (i : nat) (f : Station -> list Traveler) :
  countBusy (update_nth l i (fun s => set_queue (f s) s)) = countBusy l.
Proof.
  unfold countBusy. revert i.
  induction l as [|x l IH]; intros [|i]; simpl; try reflexivity.
  rewrite IH. reflexivity.
Qed.

Lemma station_ok_set_queue (q : list Traveler) (s : Station) :
  station_ok s -> station_ok (set_queue q s).
Proof. unfold station_ok. simpl. tauto. Qed.

Lemma station_ok_idle : station_ok idleStation.
Proof. unfold station_ok. simpl. split; [discriminate | congruence]. Qed.

Section SimulationFacts.

Context {ML : MathLib}.
Variable fuel : nat.
Variable params : SimParams.

Lemma forEachIndex_invariant (P : nat -> SimState -> Prop)
  (body : nat -> SimState -> M SimState) :
  (forall i st w st' w', body i st w = Ok st' w' -> P i st -> P (S i) st') ->
  forall n a st w st' w',
    forEachIndex (seq a n) body st w = Ok st' w' -> P a st -> P (a + n)%nat st'.
Proof.
  intros Hbody. induction n as [|n IH]; intros a st w st' w' H HP; simpl in H.
  - inv_ret H. rewrite Nat.add_0_r. assumption.
  - inv_bind H. replace (a + S n)%nat with (S a + n)%nat by lia.
    eapply IH; [exact H|]. eapply Hbody; eauto.
Qed.

Lemma mainLoop_invariant (P : nat -> SimState -> Prop) :
  (forall k st w st' w',
      num_lt (num_of_nat k) (totalSteps params) = true ->
      simStep fuel params k st w = Ok st' w' -> P k st -> P (S k) st') ->
  forall n k st w st' w',
    mainLoop fuel params n k st w = Ok st' w' -> P k st ->
    exists K : nat,
      P K st' /\ num_lt (num_of_nat K) (totalSteps params) = false.
Proof.
  intros Hstep. induction n as [|n IH]; intros k st w st' w' H HP;
    cbn [mainLoop] in H;
    destruct (num_lt (num_of_nat k) (totalSteps params)) eqn:E.
  - discriminate.
  - inv_ret H. exists k. split; assumption.
  - inv_bind H. eapply IH; [exact H|]. eapply Hstep; eauto.
  - inv_ret H. exists k. split; assumption.
Qed.

(** *** What one primary station does in a step *)

Lemma tickPrimary_facts (i : nat) (station : Station) (st : SimState)
  station1 st1 :
  tickPrimary i station st = (station1, st1) ->
  primaryStations st1 = primaryStations st /\
  waitingTimes st1 = waitingTimes st /\
  seniorBusyTime st1 = seniorBusyTime st /\
  busy (seniorStation st1) = busy (seniorStation st) /\
  traveler (seniorStation st1) = traveler (seniorStation st) /\
  (primaryCompleted st1 + b2n (busy station1)
   = primaryCompleted st + b2n (busy station))%nat /\
  (station_ok station -> station_ok station1) /\
  stationBusyTime st1
  = (if busy station
     then update_nth (stationBusyTime st) i (fun b => num_add b stepSize)
     else stationBusyTime st).
Proof.
  unfold tickPrimary, dispatchToSenior, station_ok.
  destruct (busy station) eqn:Eb.
  - destruct (num_le _ _).
    + destruct (traveler station) as [t|]; [destruct (needsScreening t)|];
        intros H; inversion H; subst; clear H; cbn;
        repeat split; try reflexivity; try discriminate; try congruence;
        try lia.
    + intros H; inversion H; subst; clear H; cbn.
      repeat split; try reflexivity; try tauto.
  - intros H; inversion H; subst; clear H. rewrite Eb.
    repeat split; try reflexivity; try tauto.
Qed.

Lemma startPrimary_facts (currentTime : num) (station1 : Station)
  (st1 : SimState) w station2 st2 w' :
  startPrimary fuel params currentTime station1 st1 w = Ok (station2, st2) w' ->
  primaryStations st2 = primaryStations st1 /\
  stationBusyTime st2 = stationBusyTime st1 /\
  seniorStation st2 = seniorStation st1 /\
  seniorBusyTime st2 = seniorBusyTime st1 /\
  primaryCompleted st2 = primaryCompleted st1 /\
  (length (waitingTimes st2) + b2n (busy station1)
   = length (waitingTimes st1) + b2n (busy station2))%nat /\
  (station_ok station1 -> station_ok station2).
Proof.
  unfold startPrimary, station_ok.
  destruct (busy station1) eqn:Eb; cbn [negb andb].
  - intros H. inv_ret H. inversion E; subst. rewrite Eb.
    repeat split; try reflexivity; tauto.
  - destruct (queue station1) as [|head rest]; cbn [length Nat.ltb Nat.leb].
    + intros H. inv_ret H. inversion E; subst. rewrite Eb.
      repeat split; try reflexivity; tauto.
    + intros H. inv_bind H. inv_ret H. inversion E; subst. cbn.
      rewrite length_app. cbn.
      repeat split; try reflexivity; try lia; try discriminate.
Qed.

Lemma processPrimaryStation_Ok (currentTime : num) (i : nat) (st : SimState)
  w st' w' :
  processPrimaryStation fuel params currentTime i st w = Ok st' w' ->
  (nth_error (primaryStations st) i = None /\ st' = st)
  \/ exists station station1 st1 station2 st2 w1,
       nth_error (primaryStations st) i = Some station /\
       tickPrimary i station st = (station1, st1) /\
       startPrimary fuel params currentTime station1 st1 w1
       = Ok (station2, st2) w' /\
       st' = set_primaryStations
               (update_nth (primaryStations st2) i (fun _ => station2)) st2.
Proof.
  unfold processPrimaryStation.
  destruct (nth_error (primaryStations st) i) as [station|] eqn:En.
  - destruct (tickPrimary i station st) as [station1 st1] eqn:Et.
    intros H. inv_bind H. destruct a as [station2 st2]. inv_ret H.
    right. exists station, station1, st1, station2, st2, w.
    repeat split; assumption.
  - intros H. inv_ret H. left. split; reflexivity.
Qed.

(** *** Arrivals leave the service slots alone *)

Lemma handleArrivals_facts (currentTime : num) (st : SimState) w st' w' :
  handleArrivals params currentTime st w = Ok st' w' ->
  (exists (i : nat) (f : Station -> list Traveler),
      primaryStations st'
      = update_nth (primaryStations st) i (fun s => set_queue (f s) s)) /\
  seniorStation st' = seniorStation st /\
  waitingTimes st' = waitingTimes st /\
  stationBusyTime st' = stationBusyTime st /\
  seniorBusyTime st' = seniorBusyTime st /\
  primaryCompleted st' = primaryCompleted st.
Proof.
  unfold handleArrivals. destruct (num_le _ _).
  - intros H. inv_bind H. inv_bind H. inv_bind H. inv_ret H. cbn.
    split; [|repeat split; reflexivity].
    eexists a, (fun s => queue s ++ [_]). reflexivity.
  - intros H. inv_ret H. cbn. split; [|repeat split; reflexivity].
    exists (length (primaryStations st)), queue.
    clear. induction (primaryStations st) as [|x l IH]; simpl;
      [reflexivity | congruence].
Qed.

(** *** The senior station *)

Lemma tickSenior_facts (st : SimState) :
  primaryStations (tickSenior st) = primaryStations st /\
  waitingTimes (tickSenior st) = waitingTimes st /\
  stationBusyTime (tickSenior st) = stationBusyTime st /\
  primaryCompleted (tickSenior st) = primaryCompleted st /\
  (station_ok (seniorStation st) -> station_ok (seniorStation (tickSenior st))) /\
  seniorBusyTime (tickSenior st)
  = (if busy (seniorStation st)
     then num_add (seniorBusyTime st) stepSize else seniorBusyTime st).
Proof.
  unfold tickSenior, station_ok.
  destruct (busy (seniorStation st)) eqn:Eb.
  - destruct (num_le _ _); cbn; repeat split; try reflexivity;
      try discriminate; try congruence; tauto.
  - rewrite Eb. repeat split; try reflexivity; tauto.
Qed.

Lemma startSenior_facts (st : SimState) w st' w' :
  startSenior fuel params st w = Ok st' w' ->
  primaryStations st' = primaryStations st /\
  waitingTimes st' = waitingTimes st /\
  stationBusyTime st' = stationBusyTime st /\
  seniorBusyTime st' = seniorBusyTime st /\
  primaryCompleted st' = primaryCompleted st /\
  (station_ok (seniorStation st) -> station_ok (seniorStation st')).
Proof.
  unfold startSenior, station_ok.
  destruct (busy (seniorStation st)) eqn:Eb; cbn [negb andb].
  - intros H. inv_ret H. rewrite Eb. repeat split; try reflexivity; tauto.
  - destruct (queue (seniorStation st)) as [|head rest];
      cbn [length Nat.ltb Nat.leb].
    + intros H. inv_ret H. rewrite Eb. repeat split; try reflexivity; tauto.
    + intros H. inv_bind H. inv_ret H. cbn.
      repeat split; try reflexivity; try discriminate.
Qed.

(** *** Conservation and the busy flag, step by step *)

Lemma processPrimaryStation_conserved (currentTime : num) (i : nat)
  (st : SimState) w st' w' :
  processPrimaryStation fuel params currentTime i st w = Ok st' w' ->
  conserved st -> conserved st'.
Proof.
  intros H C. apply processPrimaryStation_Ok in H.
  destruct H as [[_ ->]|(s0 & s1 & st1 & s2 & st2 & w1 & En & Et & Es & ->)];
    [assumption|].
  apply tickPrimary_facts in Et.
  destruct Et as (T1 & T2 & _ & _ & _ & T3 & _).
  apply startPrimary_facts in Es.
  destruct Es as (S1 & _ & _ & _ & S2 & S3 & _).
  unfold conserved in *. cbn.
  rewrite S1, T1.
  pose proof (@countBusy_update _ _ _ s2 En) as U.
  rewrite T2 in S3. lia.
Qed.

Lemma processPrimaryStation_ok (currentTime : num) (i : nat)
  (st : SimState) w st' w' :
  processPrimaryStation fuel params currentTime i st w = Ok st' w' ->
  stations_ok st -> stations_ok st'.
Proof.
  intros H [Hp Hs]. apply processPrimaryStation_Ok in H.
  destruct H as [[_ ->]|(s0 & s1 & st1 & s2 & st2 & w1 & En & Et & Es & ->)];
    [split; assumption|].
  apply tickPrimary_facts in Et.
  destruct Et as (T1 & _ & _ & T2 & T3 & _ & T4 & _).
  apply startPrimary_facts in Es.
  destruct Es as (S1 & _ & S2 & _ & _ & _ & S3).
  split; cbn.
  - rewrite S1, T1. apply update_nth_Forall; [assumption|].
    intros x _ _. apply S3, T4. eapply Forall_nth_error; eauto.
  - rewrite S2. unfold station_ok in *. rewrite T2, T3. assumption.
Qed.

Lemma simStep_conserved (step : nat) (st : SimState) w st' w' :
  simStep fuel params step st w = Ok st' w' -> conserved st -> conserved st'.
Proof.
  unfold simStep. intros H C. inv_bind H. inv_bind H. inv_bind H. inv_ret H.
  apply handleArrivals_facts in Hm.
  destruct Hm as ((i & f & A1) & _ & A2 & _ & _ & A3).
  assert (C1 : conserved a).
  { unfold conserved in *. rewrite A1, A2, A3, countBusy_set_queue.
    assumption. }
  assert (C2 : conserved a0).
  { pose proof (@forEachIndex_invariant (fun _ => conserved)
                  (processPrimaryStation fuel params
                     (num_mul (num_of_nat step) stepSize))) as L.
    eapply L; [|exact Hm0|exact C1].
    intros j s1 v1 s2 v2 Hj. eapply processPrimaryStation_conserved; eauto. }
  apply startSenior_facts in Hm1. destruct Hm1 as (P1 & P2 & _ & _ & P3 & _).
  destruct (tickSenior_facts a0) as (Q1 & Q2 & _ & Q3 & _).
  unfold conserved in *. cbn. rewrite P1, P2, P3, Q1, Q2, Q3. assumption.
Qed.

Lemma simStep_ok (step : nat) (st : SimState) w st' w' :
  simStep fuel params step st w = Ok st' w' -> stations_ok st -> stations_ok st'.
Proof.
  unfold simStep. intros H C. inv_bind H. inv_bind H. inv_bind H. inv_ret H.
  apply handleArrivals_facts in Hm.
  destruct Hm as ((i & f & A1) & A2 & _).
  assert (C1 : stations_ok a).
  { destruct C as [Cp Cs]. split.
    - rewrite A1. apply update_nth_Forall; [assumption|].
      intros x _. apply station_ok_set_queue.
    - rewrite A2. assumption. }
  assert (C2 : stations_ok a0).
  { pose proof (@forEachIndex_invariant (fun _ => stations_ok)
                  (processPrimaryStation fuel params
                     (num_mul (num_of_nat step) stepSize))) as L.
    eapply L; [|exact Hm0|exact C1].
    intros j s1 v1 s2 v2 Hj. eapply processPrimaryStation_ok; eauto. }
  apply startSenior_facts in Hm1. destruct Hm1 as (P1 & _ & _ & _ & _ & P2).
  destruct (tickSenior_facts a0) as (Q1 & _ & _ & _ & Q2 & _).
  destruct C2 as [Cp Cs]. split; cbn.
  - rewrite P1, Q1. assumption.
  - apply P2, Q2. assumption.
Qed.

Lemma Array_new_Ok (n : Z) w k w' :
  Array_new n w = Ok k w' -> k = Z.to_nat n /\ w' = w /\ (0 <= n <= 4294967295)%Z.
Proof.
  unfold Array_new. destruct (_ || _)%bool eqn:E; [discriminate|].
  intros H. inv_ret H. apply orb_false_iff in E. destruct E as [E1 E2].
  apply Z.ltb_ge in E1, E2. repeat split; assumption.
Qed.

Lemma initialState_Ok w st w' :
  initialState params w = Ok st w' ->
  primaryStations st = repeat idleStation (Z.to_nat (numStations params)) /\
  seniorStation st = idleStation /\
  waitingTimes st = [] /\
  stationBusyTime st = repeat (Fin 0) (Z.to_nat (numStations params)) /\
  seniorBusyTime st = Fin 0 /\
  primaryCompleted st = 0%nat.
Proof.
  unfold initialState. intros H. inv_bind H. inv_bind H. inv_bind H. inv_ret H.
  apply Array_new_Ok in Hm, Hm0. destruct Hm as (-> & _), Hm0 as (-> & _).
  cbn. repeat split; reflexivity.
Qed.

Lemma countBusy_idle (n : nat) : countBusy (repeat idleStation n) = 0%nat.
Proof. unfold countBusy. induction n; simpl; auto. Qed.

Lemma Forall_repeat_intro (A : Type) (P : A -> Prop) (x : A) (n : nat) :
  P x -> Forall P (repeat x n).
Proof. intros H. induction n; simpl; constructor; assumption. Qed.

Lemma initialState_conserved w st w' :
  initialState params w = Ok st w' -> conserved st.
Proof.
  intros H. apply initialState_Ok in H.
  destruct H as (E1 & _ & E2 & _ & _ & E3).
  unfold conserved. rewrite E1, E2, E3, countBusy_idle. reflexivity.
Qed.

Lemma initialState_ok w st w' :
  initialState params w = Ok st w' -> stations_ok st.
Proof.
  intros H. apply initialState_Ok in H. destruct H as (E1 & E2 & _).
  split.
  - rewrite E1. apply Forall_repeat_intro, station_ok_idle.
  - rewrite E2. apply station_ok_idle.
Qed.

Lemma simulate_conserved w st w' :
  simulate fuel params w = Ok st w' -> conserved st.
Proof.
  unfold simulate. intros H. inv_bind H.
  apply initialState_conserved in Hm.
  assert (Hstep : forall k s1 v1 s2 v2,
             num_lt (num_of_nat k) (totalSteps params) = true ->
             simStep fuel params k s1 v1 = Ok s2 v2 -> conserved s1 -> conserved s2).
  { intros k s1 v1 s2 v2 _ Hs. eapply simStep_conserved; eauto. }
  destruct (@mainLoop_invariant (fun _ => conserved) Hstep _ _ _ _ _ _ H Hm)
    as (K & HK & _).
  assumption.
Qed.

Lemma simulate_ok w st w' :
  simulate fuel params w = Ok st w' -> stations_ok st.
Proof.
  unfold simulate. intros H. inv_bind H.
  apply initialState_ok in Hm.
  assert (Hstep : forall k s1 v1 s2 v2,
             num_lt (num_of_nat k) (totalSteps params) = true ->
             simStep fuel params k s1 v1 = Ok s2 v2 -> stations_ok s1 -> stations_ok s2).
  { intros k s1 v1 s2 v2 _ Hs. eapply simStep_ok; eauto. }
  destruct (@mainLoop_invariant (fun _ => stations_ok) Hstep _ _ _ _ _ _ H Hm)
    as (K & HK & _).
  assumption.
Qed.

End SimulationFacts.

(** ** Busy time *)

Lemma inject_Z_S (k : nat) :
  inject_Z (Z.of_nat (S k)) == inject_Z (Z.of_nat k) + 1.
Proof.
  rewrite Nat2Z.inj_succ. unfold Z.succ. rewrite inject_Z_plus. reflexivity.
Qed.






Section BusyTimeFacts.

Context {ML : MathLib}.
Variable fuel : nat.
Variable params : SimParams.





End BusyTimeFacts.

(** ** Waiting times *)

Lemma arrivedBy_mono (B B' : Q) (t : Traveler) :
  B <= B' -> arrivedBy B t -> arrivedBy B' t.
Proof. intros H (q & E & Hq). exists q. split; [assumption | lra]. Qed.

Lemma timeOfStep_S (k : nat) : timeOfStep k <= timeOfStep (S k).
Proof. unfold timeOfStep. rewrite inject_Z_S. lra. Qed.

Lemma currentTime_timeOfStep (k : nat) :
  num_mul (num_of_nat k) stepSize = Fin (timeOfStep k).
Proof. reflexivity. Qed.

Section WaitingFacts.

Context {ML : MathLib}.
Variable fuel : nat.
Variable params : SimParams.

Lemma handleArrivals_queues (P : Traveler -> Prop) (currentTime : num)
  (st : SimState) w st' w' :
  handleArrivals params currentTime st w = Ok st' w' ->
  (forall t, arrivalTime t = currentTime -> P t) ->
  Forall (fun s => Forall P (queue s)) (primaryStations st) ->
  Forall (fun s => Forall P (queue s)) (primaryStations st').
Proof.
  unfold handleArrivals. destruct (num_le _ _).
  - intros H HP Hall. inv_bind H. inv_bind H. inv_bind H. inv_ret H. cbn.
    apply update_nth_Forall; [assumption|].
    intros s _ Hs. cbn. apply Forall_app. split; [assumption|].
    constructor; [|constructor]. apply HP. reflexivity.
  - intros H _ Hall. inv_ret H. exact Hall.
Qed.

Lemma tickPrimary_queue (i : nat) (station : Station) (st : SimState)
  station1 st1 :
  tickPrimary i station st = (station1, st1) -> queue station1 = queue station.
Proof.
  unfold tickPrimary. destruct (busy station); [destruct (num_le _ _)|];
    intros H; inversion H; reflexivity.
Qed.

Lemma startPrimary_waits (currentTime : num) (station1 : Station)
  (st1 : SimState) w station2 st2 w' :
  startPrimary fuel params currentTime station1 st1 w = Ok (station2, st2) w' ->
  (queue station2 = queue station1 /\ waitingTimes st2 = waitingTimes st1)
  \/ exists head : Traveler,
       queue station1 = head :: queue station2 /\
       waitingTimes st2
       = waitingTimes st1 ++ [num_sub currentTime (arrivalTime head)].
Proof.
  unfold startPrimary. destruct (_ && _)%bool.
  - destruct (queue station1) as [|head rest] eqn:Eq.
    + intros H. inv_ret H. inversion E; subst. left. split; [assumption|].
      reflexivity.
    + intros H. inv_bind H. inv_ret H. inversion E; subst. right.
      exists head. split; reflexivity.
  - intros H. inv_ret H. inversion E; subst. left. split; reflexivity.
Qed.

Lemma processPrimaryStation_waits (k : nat) (i : nat) (st : SimState)
  w st' w' :
  processPrimaryStation fuel params (Fin (timeOfStep k)) i st w = Ok st' w' ->
  waitsBefore k st -> waitsBefore k st'.
Proof.
  intros H [Hw Hq]. apply processPrimaryStation_Ok in H.
  destruct H as [[_ ->]|(s0 & s1 & st1 & s2 & st2 & w1 & En & Et & Es & ->)];
    [split; assumption|].
  pose proof (tickPrimary_queue _ _ _ Et) as Q1.
  apply tickPrimary_facts in Et. destruct Et as (T1 & T2 & _).
  pose proof (startPrimary_waits _ _ _ _ Es) as W.
  apply startPrimary_facts in Es. destruct Es as (S1 & _).
  pose proof (Forall_nth_error _ Hq En) as H0. cbn beta in H0.
  rewrite <- Q1 in H0.
  unfold waitsBefore. cbn. rewrite S1, T1.
  destruct W as [[Eq Ew]|(head & Eq & Ew)]; rewrite Ew, T2.
  - split; [assumption|]. apply update_nth_Forall; [assumption|].
    intros x _ _. rewrite Eq. assumption.
  - rewrite Eq in H0. inversion H0 as [|? ? (q & Ea & Hle) Hrest]; subst.
    split.
    + apply Forall_app. split; [assumption|]. constructor; [|constructor].
      rewrite Ea. cbn [num_sub num_neg num_add].
      exists (timeOfStep k + - q). split; [reflexivity | lra].
    + apply update_nth_Forall; [assumption|]. intros x _ _. assumption.
Qed.

Lemma simStep_waits (k : nat) (st : SimState) w st' w' :
  simStep fuel params k st w = Ok st' w' ->
  waitsBefore k st -> waitsBefore (S k) st'.
Proof.
  unfold simStep. rewrite currentTime_timeOfStep. intros H [Hw Hq].
  inv_bind H. inv_bind H. inv_bind H. inv_ret H.
  assert (W1 : waitsBefore k a).
  { split.
    - apply handleArrivals_facts in Hm.
      destruct Hm as (_ & _ & A & _). rewrite A. assumption.
    - eapply handleArrivals_queues; [exact Hm| |exact Hq].
      intros t Et. exists (timeOfStep k). split; [assumption | apply Qle_refl]. }
  assert (W2 : waitsBefore k a0).
  { pose proof (@forEachIndex_invariant (fun _ => waitsBefore k)
                  (processPrimaryStation fuel params (Fin (timeOfStep k)))) as L.
    eapply L; [|exact Hm0|exact W1].
    intros j s1 v1 s2 v2 Hj. eapply processPrimaryStation_waits; eauto. }
  apply startSenior_facts in Hm1. destruct Hm1 as (P1 & P2 & _).
  destruct (tickSenior_facts a0) as (Q1 & Q2 & _).
  destruct W2 as [Hw2 Hq2]. unfold waitsBefore. cbn. rewrite P1, P2, Q1, Q2.
  split; [assumption|].
  eapply Forall_impl; [|exact Hq2]. intros s Hs.
  eapply Forall_impl; [|exact Hs]. intros t.
  apply arrivedBy_mono, timeOfStep_S.
Qed.

(** Every waiting time a run records is a number >= 0. *)
Lemma simulate_waits w st w' :
  simulate fuel params w = Ok st w' -> Forall finite_nonneg (waitingTimes st).
Proof.
  unfold simulate. intros H. inv_bind H.
  apply initialState_Ok in Hm. destruct Hm as (E1 & _ & E2 & _).
  assert (W0 : waitsBefore 0 a).
  { split; [rewrite E2; constructor|]. rewrite E1.
    apply Forall_repeat_intro. constructor. }
  assert (Hstep : forall k s1 v1 s2 v2,
             num_lt (num_of_nat k) (totalSteps params) = true ->
             simStep fuel params k s1 v1 = Ok s2 v2 ->
             waitsBefore k s1 -> waitsBefore (S k) s2).
  { intros k s1 v1 s2 v2 _ Hs. eapply simStep_waits; eauto. }
  destruct (@mainLoop_invariant _ fuel params waitsBefore Hstep _ _ _ _ _ _ H W0)
    as (K & [HK _] & _).
  assumption.
Qed.

(** The two arrays indexed by the station have the same length
    throughout, so [stationBusyTime[index]] is an element. *)
Lemma processPrimaryStation_lengths (currentTime : num) (i : nat)
  (st : SimState) w st' w' :
  processPrimaryStation fuel params currentTime i st w = Ok st' w' ->
  length (primaryStations st') = length (primaryStations st) /\
  length (stationBusyTime st') = length (stationBusyTime st).
Proof.
  intros H. apply processPrimaryStation_Ok in H.
  destruct H as [[_ ->]|(s0 & s1 & st1 & s2 & st2 & w1 & En & Et & Es & ->)];
    [split; reflexivity|].
  apply tickPrimary_facts in Et.
  destruct Et as (T1 & _ & _ & _ & _ & _ & _ & T2).
  apply startPrimary_facts in Es. destruct Es as (S1 & S2 & _).
  cbn. rewrite update_nth_length, S1, S2, T1, T2.
  split; [reflexivity|]. destruct (busy s0); [apply update_nth_length|reflexivity].
Qed.

Lemma simStep_lengths (k : nat) (st : SimState) w st' w' :
  simStep fuel params k st w = Ok st' w' ->
  length (stationBusyTime st) = length (primaryStations st) ->
  length (stationBusyTime st') = length (primaryStations st').
Proof.
  unfold simStep. intros H E. inv_bind H. inv_bind H. inv_bind H. inv_ret H.
  apply handleArrivals_facts in Hm.
  destruct Hm as ((i & f & A1) & _ & _ & A2 & _).
  assert (E1 : length (stationBusyTime a) = length (primaryStations a)).
  { rewrite A1, A2, update_nth_length. assumption. }
  assert (E2 : length (stationBusyTime a0) = length (primaryStations a0)).
  { pose proof (@forEachIndex_invariant
                  (fun _ s => length (stationBusyTime s)
                              = length (primaryStations s))
                  (processPrimaryStation fuel params
                     (num_mul (num_of_nat k) stepSize))) as L.
    eapply L; [|exact Hm0|exact E1].
    intros j s1 v1 s2 v2 Hj Hs.
    apply processPrimaryStation_lengths in Hj. destruct Hj as [L1 L2].
    congruence. }
  apply startSenior_facts in Hm1. destruct Hm1 as (P1 & _ & P2 & _).
  destruct (tickSenior_facts a0) as (Q1 & _ & Q2 & _).
  cbn. rewrite P1, P2, Q1, Q2. assumption.
Qed.

Lemma simulate_lengths w st w' :
  simulate fuel params w = Ok st w' ->
  length (stationBusyTime st) = length (primaryStations st).
Proof.
  unfold simulate. intros H. inv_bind H.
  apply initialState_Ok in Hm. destruct Hm as (E1 & _ & _ & E2 & _).
  assert (L0 : length (stationBusyTime a) = length (primaryStations a)).
  { rewrite E1, E2, !repeat_length. reflexivity. }
  assert (Hstep : forall k s1 v1 s2 v2,
             num_lt (num_of_nat k) (totalSteps params) = true ->
             simStep fuel params k s1 v1 = Ok s2 v2 ->
             length (stationBusyTime s1) = length (primaryStations s1) ->
             length (stationBusyTime s2) = length (primaryStations s2)).
  { intros k s1 v1 s2 v2 _ Hs. eapply simStep_lengths; eauto. }
  destruct (@mainLoop_invariant _ fuel params
              (fun _ s => length (stationBusyTime s)
                          = length (primaryStations s))
              Hstep _ _ _ _ _ _ H L0) as (K & HK & _).
  assumption.
Qed.

End WaitingFacts.



(** ** Calls of [Math.log] along a run *)

Section LogFacts.

Context {ML : MathLib}.
Variable fuel : nat.
Variable params : SimParams.

Lemma log_calls_sampleInterArrival : log_calls anyLog (sampleInterArrival params).
Proof.
  unfold sampleInterArrival. apply log_calls_bind; auto with logs.
  intros u. apply log_calls_bind; auto with logs.
  apply log_calls_Math_log. exact I.
Qed.

Lemma log_calls_shortestQueueIndex (stations : list Station) :
  log_calls anyLog (shortestQueueIndex stations).
Proof.
  unfold shortestQueueIndex. destruct (map _ _); auto with logs.
Qed.

Lemma log_calls_handleArrivals (currentTime : num) (st : SimState) :
  log_calls anyLog (handleArrivals params currentTime st).
Proof.
  unfold handleArrivals. apply log_calls_if; auto with logs.
  apply log_calls_bind; [apply log_calls_shortestQueueIndex|]. intros i.
  apply log_calls_bind; auto with logs. intros r.
  apply log_calls_bind; [apply log_calls_sampleInterArrival|].
  auto with logs.
Qed.

Lemma log_calls_startPrimary (currentTime : num) (station : Station)
  (st : SimState) :
  log_calls anyLog (startPrimary fuel params currentTime station st).
Proof.
  unfold startPrimary. apply log_calls_if; auto with logs.
  destruct (queue station); auto with logs.
  apply log_calls_bind; [apply log_calls_truncatedNormal|]. auto with logs.
Qed.

Lemma log_calls_processPrimaryStation (currentTime : num) (i : nat)
  (st : SimState) :
  log_calls anyLog (processPrimaryStation fuel params currentTime i st).
Proof.
  unfold processPrimaryStation.
  destruct (nth_error _ _); auto with logs.
  destruct (tickPrimary _ _ _).
  apply log_calls_bind; [apply log_calls_startPrimary|].
  intros [s2 st2]. auto with logs.
Qed.

Lemma log_calls_forEachIndex (idxs : list nat)
  (body : nat -> SimState -> M SimState) (st : SimState) :
  (forall i s, log_calls anyLog (body i s)) ->
  log_calls anyLog (forEachIndex idxs body st).
Proof.
  intros Hb. revert st. induction idxs as [|i idxs IH]; intros st; simpl;
    auto with logs.
  apply log_calls_bind; auto.
Qed.

Lemma log_calls_startSenior (st : SimState) :
  log_calls anyLog (startSenior fuel params st).
Proof.
  unfold startSenior. apply log_calls_if; auto with logs.
  destruct (queue _); auto with logs.
  apply log_calls_bind; [apply log_calls_truncatedNormal|]. auto with logs.
Qed.

Lemma log_calls_simStep (step : nat) (st : SimState) :
  log_calls anyLog (simStep fuel params step st).
Proof.
  unfold simStep.
  apply log_calls_bind; [apply log_calls_handleArrivals|]. intros s1.
  apply log_calls_bind.
  { apply log_calls_forEachIndex. intros i s.
    apply log_calls_processPrimaryStation. }
  intros s2. apply log_calls_bind; [apply log_calls_startSenior|].
  auto with logs.
Qed.

Lemma log_calls_mainLoop (n step : nat) (st : SimState) :
  log_calls anyLog (mainLoop fuel params n step st).
Proof.
  revert step st. induction n as [|n IH]; intros step st; cbn [mainLoop];
    apply log_calls_if; auto with logs.
  apply log_calls_bind; [apply log_calls_simStep|]. auto.
Qed.

(** A draw of zero reaches [Math.log] as it is. *)
Lemma sampleInterArrival_zero w :
  randomStream w (cursor w) == 0 ->
  exists x w',
    sampleInterArrival params w
    = Ok (num_div PInf (arrivalRatePerSecond params)) w' /\
    logArgs w' = logArgs w ++ [x] /\ num_seq x (Fin 0) = true.
Proof.
  intros H0. unfold sampleInterArrival, bind, Math_random, Math_log, ret.
  cbn [randomStream cursor logArgs log_value].
  assert (E : (randomStream w (cursor w) ?= 0) = Eq) by (apply Qeq_alt; exact H0).
  rewrite E. cbn [num_neg].
  eexists. eexists. split; [reflexivity|]. cbn [logArgs].
  split; [reflexivity|]. cbn [num_seq]. apply Qeq_bool_iff. exact H0.
Qed.

Lemma initialState_zero_draw w :
  (0 <= numStations params <= 4294967295)%Z ->
  randomStream w (cursor w) == 0 ->
  exists x st w',
    initialState params w = Ok st w' /\
    logArgs w' = logArgs w ++ [x] /\ num_seq x (Fin 0) = true /\
    timeToNextArrival st = num_div PInf (arrivalRatePerSecond params).
Proof.
  intros Hn H0. unfold initialState.
  assert (A : forall v, Array_new (numStations params) v
                        = Ok (Z.to_nat (numStations params)) v).
  { intros v. unfold Array_new.
    assert (E : ((numStations params <? 0) || (4294967295 <? numStations params))%Z
                = false).
    { apply orb_false_iff. split; apply Z.ltb_ge; lia. }
    rewrite E. reflexivity. }
  destruct (@sampleInterArrival_zero w H0) as (x & w' & Es & El & Ex).
  exists x. eexists. exists w'. unfold bind at 1. rewrite A.
  unfold bind at 1. rewrite A. unfold bind at 1. rewrite Es. unfold ret.
  split; [reflexivity|]. cbn [timeToNextArrival].
  repeat split; assumption.
Qed.

Lemma runSimulation_logs_zero w :
  (0 <= numStations params <= 4294967295)%Z ->
  randomStream w (cursor w) == 0 ->
  exists x : num,
    In x (logArgs (worldOf (runSimulation fuel params w))) /\
    num_seq x (Fin 0) = true.
Proof.
  intros Hn H0.
  destruct (@initialState_zero_draw w Hn H0) as (x & st & w1 & Ei & El & Ex & _).
  exists x. split; [|assumption].
  unfold runSimulation, simulate, bind. rewrite Ei.
  pose proof (log_calls_mainLoop fuel 0 st w1) as [_ (l & E & _)].
  destruct (mainLoop fuel params fuel 0 st w1) as [s2 w2|e w2|w2];
    cbn [worldOf ret] in *; rewrite E, El, !in_app_iff; left; right;
    left; reflexivity.
Qed.

End LogFacts.

(** ** The theoretical model *)

Lemma num_eq_refl (a : num) : num_eq a a.
Proof. destruct a; simpl; auto. apply Qeq_refl. Qed.

Lemma num_eq_sym (a b : num) : num_eq a b -> num_eq b a.
Proof. destruct a, b; simpl; auto. apply Qeq_sym. Qed.

Lemma num_eq_trans (a b c : num) : num_eq a b -> num_eq b c -> num_eq a c.
Proof.
  destruct a, b, c; simpl; auto; try contradiction. apply Qeq_trans.
Qed.

Lemma signed_compare (p q r : Q) :
  p == q -> num_eq (signed (p ?= r)) (signed (q ?= r)).
Proof. intros H. rewrite H. apply num_eq_refl. Qed.

Lemma signed_compare_r (p q r : Q) :
  p == q -> num_eq (signed (r ?= p)) (signed (r ?= q)).
Proof. intros H. rewrite H. apply num_eq_refl. Qed.

Lemma num_neg_proper (a a' : num) : num_eq a a' -> num_eq (num_neg a) (num_neg a').
Proof.
  destruct a, a'; simpl; auto. intros H. rewrite H. reflexivity.
Qed.

Lemma num_add_proper (a a' b b' : num) :
  num_eq a a' -> num_eq b b' -> num_eq (num_add a b) (num_add a' b').
Proof.
  destruct a, a', b, b'; simpl; auto; try contradiction.
  intros H1 H2. rewrite H1, H2. reflexivity.
Qed.

Lemma num_sub_proper (a a' b b' : num) :
  num_eq a a' -> num_eq b b' -> num_eq (num_sub a b) (num_sub a' b').
Proof.
  intros H1 H2. unfold num_sub. apply num_add_proper; [assumption|].
  apply num_neg_proper. assumption.
Qed.

Lemma num_mul_proper (a a' b b' : num) :
  num_eq a a' -> num_eq b b' -> num_eq (num_mul a b) (num_mul a' b').
Proof.
  destruct a, a', b, b'; simpl; auto; try contradiction;
    intros H1 H2;
    try (apply signed_compare; assumption);
    try (apply signed_compare_r; assumption).
  rewrite H1, H2. reflexivity.
Qed.

Lemma num_div_proper (a a' b b' : num) :
  num_eq a a' -> num_eq b b' -> num_eq (num_div a b) (num_div a' b').
Proof.
  destruct a as [p| | |], a' as [p'| | |], b as [q| | |], b' as [q'| | |];
    simpl; auto; try contradiction; intros H1 H2.
  - assert (E : Qeq_bool q 0 = Qeq_bool q' 0) by (rewrite H2; reflexivity).
    rewrite E. destruct (Qeq_bool q' 0) eqn:Z.
    + apply signed_compare. assumption.
    + simpl. rewrite H1, H2. reflexivity.
  - reflexivity.
  - reflexivity.
  - assert (E : Qle_bool 0 q = Qle_bool 0 q') by (rewrite H2; reflexivity).
    rewrite E. apply num_eq_refl.
  - assert (E : Qle_bool 0 q = Qle_bool 0 q') by (rewrite H2; reflexivity).
    rewrite E. apply num_eq_refl.
Qed.

Lemma pow_nat_proper (a a' : num) (n : nat) :
  num_eq a a' -> num_eq (pow_nat a n) (pow_nat a' n).
Proof.
  intros H. induction n as [|n IH]; simpl.
  - apply Qeq_refl.
  - apply num_mul_proper; assumption.
Qed.

Lemma bigsum_proper (f g : nat -> num) (n : nat) :
  (forall k, num_eq (f k) (g k)) -> num_eq (bigsum f n) (bigsum g n).
Proof.
  intros H. induction n as [|n IH]; simpl.
  - apply Qeq_refl.
  - apply num_add_proper; [assumption | apply H].
Qed.

(** The [reduce] over [Array.from] is the sum of the specification. *)
Lemma sum_Array_from (n : nat) (f : Z -> num) :
  sum_num (Theoretical.Array_from (Z.of_nat n) f)
  = bigsum (fun k => f (Z.of_nat k)) n.
Proof.
  unfold sum_num, Theoretical.Array_from. rewrite Nat2Z.id.
  induction n as [|n IH]; [reflexivity|].
  rewrite seq_S, map_app, fold_left_app, IH. reflexivity.
Qed.

Lemma Math_pow_nat (x : num) (k : nat) : Math_pow x (Z.of_nat k) = pow_nat x k.
Proof.
  unfold Math_pow.
  assert (E : (0 <=? Z.of_nat k)%Z = true) by (apply Z.leb_le; lia).
  rewrite E, Nat2Z.id. reflexivity.
Qed.


(** On a natural number it is the factorial. *)
Lemma factorial_fact (k : nat) :
  num_eq (Theoretical.factorial (Z.of_nat k)) (num_of_nat (fact k)).
Proof.
  unfold Theoretical.factorial. rewrite Nat2Z.id.
  induction k as [|k IH].
  - simpl. reflexivity.
  - cbn [Theoretical.factorial_nat]. destruct (Z.of_nat (S k) <=? 1)%Z eqn:E.
    + apply Z.leb_le in E. assert (k = 0%nat) by lia. subst k. simpl.
      reflexivity.
    + eapply num_eq_trans.
      * apply num_mul_proper; [apply num_eq_refl | exact IH].
      * unfold num_of_nat, num_of_Z. cbn [num_mul num_eq].
        rewrite <- inject_Z_mult, <- Nat2Z.inj_mul.
        change (fact (S k)) with (S k * fact k)%nat. reflexivity.
Qed.

(** [1 / (mu1 / 1000)] is [1000 / mu1], also at zero and at the infinities. *)
Lemma service_rate_eq (m : num) :
  num_eq (num_div (Fin 1) (num_div m (Fin 1000))) (num_div (Fin 1000) m).
Proof.
  destruct m as [q| | |]; try (simpl; reflexivity).
  cbn [num_div]. change (Qeq_bool 1000 0) with false. cbv iota.
  assert (E : Qeq_bool (q / 1000) 0 = Qeq_bool q 0).
  { destruct (Qeq_bool q 0) eqn:Z.
    - apply Qeq_bool_iff in Z. apply Qeq_bool_iff. rewrite Z. reflexivity.
    - apply Qeq_bool_false in Z. apply Qeq_bool_false. intros C. apply Z.
      assert (F : q == q / 1000 * 1000) by (field; discriminate).
      rewrite F, C. reflexivity. }
  rewrite E. destruct (Qeq_bool q 0) eqn:Z.
  - simpl. exact I.
  - apply Qeq_bool_false in Z. simpl. field. assumption.
Qed.

Lemma calculateTheoretical_closedForm (params : SimParams) (c : nat) :
  numStations params = Z.of_nat c ->
  results_eq (Theoretical.calculateTheoretical params)
             (closedForm (arrivalRate params) (mu1 params) c).
Proof.
  intros Hc. unfold Theoretical.calculateTheoretical, closedForm.
  rewrite Hc. cbv zeta. rewrite sum_Array_from, !Math_pow_nat.
  change (num_of_Z (Z.of_nat c)) with (num_of_nat c).
  set (lambda := num_div (arrivalRate params) (Fin 60)).
  pose proof (service_rate_eq (mu1 params)) as Hmu.
  set (mu := num_div (Fin 1) (num_div (mu1 params) (Fin 1000))) in *.
  set (mu' := num_div (Fin 1000) (mu1 params)) in *.
  assert (Hrho : num_eq (num_div lambda (num_mul (num_of_nat c) mu))
                        (num_div lambda (num_mul (num_of_nat c) mu'))).
  { apply num_div_proper; [apply num_eq_refl|].
    apply num_mul_proper; [apply num_eq_refl | assumption]. }
  set (rho := num_div lambda (num_mul (num_of_nat c) mu)) in *.
  set (rho' := num_div lambda (num_mul (num_of_nat c) mu')) in *.
  assert (Ha : num_eq (num_mul (num_of_nat c) rho) (num_mul (num_of_nat c) rho')).
  { apply num_mul_proper; [apply num_eq_refl | assumption]. }
  set (a := num_mul (num_of_nat c) rho) in *.
  set (a' := num_mul (num_of_nat c) rho') in *.
  assert (Hone : num_eq (num_sub (Fin 1) rho) (num_sub (Fin 1) rho')).
  { apply num_sub_proper; [apply num_eq_refl | assumption]. }
  assert (Hden : num_eq (num_mul (Theoretical.factorial (Z.of_nat c))
                                 (num_sub (Fin 1) rho))
                        (num_mul (num_of_nat (fact c)) (num_sub (Fin 1) rho'))).
  { apply num_mul_proper; [apply factorial_fact | assumption]. }
  assert (Hsum :
    num_eq (bigsum (fun k => num_div (Math_pow a (Z.of_nat k))
                                     (Theoretical.factorial (Z.of_nat k))) c)
           (bigsum (fun k => num_div (pow_nat a' k) (num_of_nat (fact k))) c)).
  { apply bigsum_proper. intros k. rewrite Math_pow_nat.
    apply num_div_proper; [apply pow_nat_proper; assumption|].
    apply factorial_fact. }
  assert (Hp0 :
    num_eq
      (num_div (Fin 1)
         (num_add
            (bigsum (fun k => num_div (Math_pow a (Z.of_nat k))
                                      (Theoretical.factorial (Z.of_nat k))) c)
            (num_div (pow_nat a c)
               (num_mul (Theoretical.factorial (Z.of_nat c))
                        (num_sub (Fin 1) rho)))))
      (num_div (Fin 1)
         (num_add
            (bigsum (fun k => num_div (pow_nat a' k) (num_of_nat (fact k))) c)
            (num_div (pow_nat a' c)
               (num_mul (num_of_nat (fact c)) (num_sub (Fin 1) rho')))))).
  { apply num_div_proper; [apply num_eq_refl|].
    apply num_add_proper; [assumption|].
    apply num_div_proper; [apply pow_nat_proper|]; assumption. }
  assert (HLq :
    num_eq
      (num_div
         (num_mul
            (num_div
               (num_mul (pow_nat a c)
                  (num_div (Fin 1)
                     (num_add
                        (bigsum (fun k => num_div (Math_pow a (Z.of_nat k))
                                   (Theoretical.factorial (Z.of_nat k))) c)
                        (num_div (pow_nat a c)
                           (num_mul (Theoretical.factorial (Z.of_nat c))
                                    (num_sub (Fin 1) rho))))))
               (num_mul (Theoretical.factorial (Z.of_nat c))
                        (num_sub (Fin 1) rho)))
            rho)
         (num_sub (Fin 1) rho))
      (num_div
         (num_mul
            (num_div
               (num_mul (pow_nat a' c)
                  (num_div (Fin 1)
                     (num_add
                        (bigsum (fun k => num_div (pow_nat a' k)
                                   (num_of_nat (fact k))) c)
                        (num_div (pow_nat a' c)
                           (num_mul (num_of_nat (fact c))
                                    (num_sub (Fin 1) rho'))))))
               (num_mul (num_of_nat (fact c)) (num_sub (Fin 1) rho')))
            rho')
         (num_sub (Fin 1) rho'))).
  { apply num_div_proper; [|assumption].
    apply num_mul_proper; [|assumption].
    apply num_div_proper; [|assumption].
    apply num_mul_proper; [apply pow_nat_proper|]; assumption. }
  unfold results_eq. cbn [Theoretical.utilization Theoretical.avgQueueLength
                          Theoretical.avgWaitTime Theoretical.avgSystemTime].
  split; [exact Hrho|]. split; [exact HLq|]. split.
  - apply num_div_proper; [exact HLq | apply num_eq_refl].
  - apply num_add_proper.
    + apply num_div_proper; [exact HLq | apply num_eq_refl].
    + apply num_div_proper; [apply num_eq_refl | exact Hmu].
Qed.

(** *** Stable inputs *)

Lemma positive_Fin (q : Q) : 0 < q -> positive (Fin q).
Proof. intros H. exists q. split; [reflexivity | assumption]. Qed.

Lemma positive_mul (a b : num) :
  positive a -> positive b -> positive (num_mul a b).
Proof.
  intros (p & -> & Hp) (q & -> & Hq). exists (p * q).
  split; [reflexivity|]. apply Qmult_lt_0_compat; assumption.
Qed.

Lemma positive_div (a b : num) :
  positive a -> positive b -> positive (num_div a b).
Proof.
  intros (p & -> & Hp) (q & -> & Hq). cbn [num_div].
  assert (E : Qeq_bool q 0 = false).
  { apply Qeq_bool_false. intros C. rewrite C in Hq.
    eapply Qlt_irrefl; eauto. }
  rewrite E. exists (p / q). split; [reflexivity|].
  apply Qlt_shift_div_l; [assumption|]. rewrite Qmult_0_l. assumption.
Qed.

Lemma positive_add_nonneg (a b : num) :
  finite_nonneg a -> positive b -> positive (num_add a b).
Proof.
  intros (p & -> & Hp) (q & -> & Hq). exists (p + q).
  split; [reflexivity | lra].
Qed.

Lemma positive_add (a b : num) :
  positive a -> positive b -> positive (num_add a b).
Proof.
  intros (p & -> & Hp) Hb. apply positive_add_nonneg; [|assumption].
  exists p. split; [reflexivity | lra].
Qed.

Lemma positive_pow (a : num) (n : nat) : positive a -> positive (pow_nat a n).
Proof.
  intros H. induction n as [|n IH]; simpl.
  - apply positive_Fin. reflexivity.
  - apply positive_mul; assumption.
Qed.

Lemma positive_of_nat (c : nat) : (1 <= c)%nat -> positive (num_of_nat c).
Proof.
  intros H. apply positive_Fin. change 0 with (inject_Z 0).
  rewrite <- Zlt_Qlt. lia.
Qed.

Lemma positive_factorial (n : Z) : positive (Theoretical.factorial n).
Proof.
  unfold Theoretical.factorial. induction (Z.to_nat n) as [|k IH].
  - apply positive_Fin. reflexivity.
  - cbn [Theoretical.factorial_nat]. destruct (Z.of_nat (S k) <=? 1)%Z.
    + apply positive_Fin. reflexivity.
    + apply positive_mul; [|assumption]. apply positive_of_nat. lia.
Qed.

Lemma bigsum_nonneg (f : nat -> num) (n : nat) :
  (forall k, positive (f k)) -> finite_nonneg (bigsum f n).
Proof.
  intros H. induction n as [|n IH]; simpl.
  - exists 0. split; [reflexivity | apply Qle_refl].
  - destruct (positive_add_nonneg IH (H n)) as (q & E & Hq).
    exists q. split; [assumption | lra].
Qed.

(** On a stable input (a positive arrival rate and mean service time, at
    least one station and a traffic intensity below 1) the four results are
    positive numbers. *)
Lemma calculateTheoretical_stable (params : SimParams) (c : nat) (a m : Q) :
  numStations params = Z.of_nat c -> (1 <= c)%nat ->
  arrivalRate params = Fin a -> 0 < a ->
  mu1 params = Fin m -> 0 < m ->
  let r := Theoretical.calculateTheoretical params in
  num_lt (Theoretical.utilization r) (Fin 1) = true ->
  positive (Theoretical.utilization r) /\
  positive (Theoretical.avgQueueLength r) /\
  positive (Theoretical.avgWaitTime r) /\
  positive (Theoretical.avgSystemTime r).
Proof.
  intros Hc Hc1 Ha Ha0 Hm Hm0. unfold Theoretical.calculateTheoretical.
  rewrite Hc, Ha, Hm. cbv zeta.
  cbn [Theoretical.utilization Theoretical.avgQueueLength
       Theoretical.avgWaitTime Theoretical.avgSystemTime].
  rewrite sum_Array_from, !Math_pow_nat.
  change (num_of_Z (Z.of_nat c)) with (num_of_nat c).
  assert (Hl : positive (num_div (Fin a) (Fin 60))).
  { apply positive_div; apply positive_Fin; [assumption | reflexivity]. }
  set (lambda := num_div (Fin a) (Fin 60)) in *.
  assert (Hmu : positive (num_div (Fin 1) (num_div (Fin m) (Fin 1000)))).
  { apply positive_div; [apply positive_Fin; reflexivity|].
    apply positive_div; apply positive_Fin; [assumption | reflexivity]. }
  set (mu := num_div (Fin 1) (num_div (Fin m) (Fin 1000))) in *.
  pose proof (positive_of_nat Hc1) as Hcn.
  assert (Hrho : positive (num_div lambda (num_mul (num_of_nat c) mu))).
  { apply positive_div; [assumption|]. apply positive_mul; assumption. }
  set (rho := num_div lambda (num_mul (num_of_nat c) mu)) in *.
  intros Hlt.
  assert (Hone : positive (num_sub (Fin 1) rho)).
  { destruct Hrho as (q & E & Hq). rewrite E in *. cbn [num_lt] in Hlt.
    apply Qlt_bool_iff in Hlt. exists (1 + - q).
    split; [reflexivity | lra]. }
  pose proof (positive_mul Hcn Hrho) as Hcr.
  set (cr := num_mul (num_of_nat c) rho) in *.
  pose proof (positive_mul (positive_factorial (Z.of_nat c)) Hone) as Hden.
  set (den := num_mul (Theoretical.factorial (Z.of_nat c))
                      (num_sub (Fin 1) rho)) in *.
  assert (Hsum : positive
            (num_add
               (bigsum (fun k => num_div (Math_pow cr (Z.of_nat k))
                                         (Theoretical.factorial (Z.of_nat k))) c)
               (num_div (pow_nat cr c) den))).
  { apply positive_add_nonneg.
    - apply bigsum_nonneg. intros k. rewrite Math_pow_nat.
      apply positive_div; [apply positive_pow; assumption|].
      apply positive_factorial.
    - apply positive_div; [apply positive_pow|]; assumption. }
  assert (HLq : positive
            (num_div
               (num_mul
                  (num_div
                     (num_mul (pow_nat cr c)
                        (num_div (Fin 1)
                           (num_add
                              (bigsum (fun k => num_div (Math_pow cr (Z.of_nat k))
                                         (Theoretical.factorial (Z.of_nat k))) c)
                              (num_div (pow_nat cr c) den))))
                     den)
                  rho)
               (num_sub (Fin 1) rho))).
  { apply positive_div; [|assumption]. apply positive_mul; [|assumption].
    apply positive_div; [|assumption].
    apply positive_mul; [apply positive_pow; assumption|].
    apply positive_div; [apply positive_Fin; reflexivity | assumption]. }
  split; [assumption|]. split; [assumption|]. split.
  - apply positive_div; assumption.
  - apply positive_add; [apply positive_div; assumption|].
    apply positive_div; [apply positive_Fin; reflexivity | assumption].
Qed.

(** ** The rational instance *)

Lemma atanh_tail_nonneg (y : Q) (k n : nat) :
  0 <= y -> 0 <= RationalMath.atanh_tail y k n.
Proof.
  intros Hy. revert k. induction n as [|n IH]; intros k;
    cbn [RationalMath.atanh_tail].
  - apply Qle_refl.
  - assert (H1 : 0 <= 1 / inject_Z (2 * Z.of_nat k + 1)).
    { apply Qle_shift_div_l.
      - change 0 with (inject_Z 0). rewrite <- Zlt_Qlt. lia.
      - rewrite Qmult_0_l. discriminate. }
    pose proof (Qmult_le_0_compat _ _ Hy (IH (S k))) as H2.
    apply (Qplus_le_compat 0 _ 0 _ H1 H2).
Qed.

Lemma rationalMath_log_nonpositive : log_nonpositive_on_unit rationalMath.
Proof.
  intros q H0 H1. cbn [ln_pos rationalMath]. unfold RationalMath.ln.
  rewrite Qred_correct.
  set (z := Qred ((q - 1) / (q + 1))).
  assert (Hz : z <= 0).
  { unfold z. rewrite Qred_correct. apply Qle_shift_div_r; lra. }
  assert (Hzz : 0 <= Qred (z * z)).
  { rewrite Qred_correct. nra. }
  pose proof (atanh_tail_nonneg 0 11 Hzz) as Ht.
  nra.
Qed.

Lemma unit_stream_const (q : Q) : 0 <= q -> q < 1 -> unit_stream (constStream q).
Proof. intros H0 H1 n. split; assumption. Qed.

(** ** Service durations *)

Section ServiceFacts.

Context {ML : MathLib}.
Variable fuel : nat.
Variable params : SimParams.

Lemma startPrimary_remainingTime (currentTime : num) (station : Station)
  (st : SimState) w station' st' w' :
  startPrimary fuel params currentTime station st w = Ok (station', st') w' ->
  station' = station \/ num_lt (remainingTime station') (Fin 0) = false.
Proof.
  unfold startPrimary. destruct (_ && _)%bool.
  - destruct (queue station) as [|head rest].
    + intros H. inv_ret H. inversion E. left. reflexivity.
    + intros H. inv_bind H. inv_ret H. inversion E; subst. right. cbn.
      eapply truncatedNormal_loop_not_negative. exact Hm.
  - intros H. inv_ret H. inversion E. left. reflexivity.
Qed.

Lemma startSenior_remainingTime (st : SimState) w st' w' :
  startSenior fuel params st w = Ok st' w' ->
  seniorStation st' = seniorStation st
  \/ num_lt (remainingTime (seniorStation st')) (Fin 0) = false.
Proof.
  unfold startSenior. destruct (_ && _)%bool.
  - destruct (queue (seniorStation st)) as [|head rest].
    + intros H. inv_ret H. left. reflexivity.
    + intros H. inv_bind H. inv_ret H. right. cbn.
      eapply truncatedNormal_loop_not_negative. exact Hm.
  - intros H. inv_ret H. left. reflexivity.
Qed.

End ServiceFacts.

(** * The claims *)

(** The run of [lightParams] on [halfWorld]: the first traveler arrives in
    step 6, is served at once and is still in service at the horizon. *)
Lemma lightRun_state :
  exists st w',
    simulate 10 lightParams halfWorld = Ok st w' /\
    length (waitingTimes st) = 1%nat /\
    Forall (fun t => num_eq t (Fin 0)) (waitingTimes st) /\
    primaryCompleted st = 0%nat /\
    map busy (primaryStations st) = [true].
Proof.
  eexists. eexists. split; [vm_compute; reflexivity|].
  split; [reflexivity|]. split; [|split; reflexivity].
  repeat constructor.
Qed.

(** ** C1 *)

(** C1, as stated, fails: at arrivalRate = 10, mu1 = 30000, numStations = 2
    the traffic intensity is not below 1 (and the queue length is
    negative). *)
Lemma C1_counterexample :
  ~ (let r := Theoretical.calculateTheoretical documentedParams in
     num_lt (Theoretical.utilization r) (Fin 1) = true /\
     finite_nonneg (Theoretical.avgQueueLength r) /\
     finite_nonneg (Theoretical.avgWaitTime r) /\
     finite_nonneg (Theoretical.avgSystemTime r)).
Proof.
  intros [H _]. vm_compute in H. discriminate.
Qed.

(** C1 (amended): at arrivalRate = 10, mu1 = 30000, numStations = 2,
    [calculateTheoretical] yields rho = 5/2, which is not below 1, and the
    finite but negative values Lq = -125/21, Wq = -250/7, Ws = -40/7. *)
Theorem C1_documented_input_is_unstable (params : SimParams) :
  arrivalRate params = Fin 10 ->
  mu1 params = Fin 30000 ->
  numStations params = 2%Z ->
  let r := Theoretical.calculateTheoretical params in
  num_eq (Theoretical.utilization r) (Fin (5 # 2)) /\
  num_lt (Theoretical.utilization r) (Fin 1) = false /\
  num_eq (Theoretical.avgQueueLength r) (Fin (-125 # 21)) /\
  num_eq (Theoretical.avgWaitTime r) (Fin (-250 # 7)) /\
  num_eq (Theoretical.avgSystemTime r) (Fin (-40 # 7)).
Proof.
  intros Ha Hm Hc. unfold Theoretical.calculateTheoretical.
  rewrite Ha, Hm, Hc. vm_compute. repeat split; reflexivity.
Qed.

Lemma C1_documented_input_witness :
  let r := Theoretical.calculateTheoretical documentedParams in
  num_eq (Theoretical.utilization r) (Fin (5 # 2)) /\
  num_lt (Theoretical.utilization r) (Fin 1) = false /\
  num_eq (Theoretical.avgQueueLength r) (Fin (-125 # 21)) /\
  num_eq (Theoretical.avgWaitTime r) (Fin (-250 # 7)) /\
  num_eq (Theoretical.avgSystemTime r) (Fin (-40 # 7)).
Proof.
  apply (@C1_documented_input_is_unstable documentedParams); reflexivity.
Defined.

(** ** C2 *)

(** C2 (the code at the failing input): with the waiting times [0, 0, 0]
    the histogram does not fault, but the bin index is [NaN] and no count
    is incremented: every count is 0, where the claim wants counts[0] = 3.
    The run of [lightParams] on [halfWorld] produces such a sample. *)
Theorem C2_all_zero_samples_are_dropped :
  let ws := [Fin 0; Fin 0; Fin 0] in
  counts (calculateWaitingTimeDistribution ws) = repeat 0%nat numBins /\
  nth 0 (counts (calculateWaitingTimeDistribution ws)) 0%nat <> length ws /\
  exists r w',
    runSimulation 10 lightParams halfWorld = Ok r w' /\
    counts (waitingTimeDistribution r) = repeat 0%nat numBins.
Proof.
  cbv zeta. split; [|split].
  - apply all_zero_counts. repeat constructor; reflexivity.
  - vm_compute. discriminate.
  - destruct lightRun_state as (st & w' & E & _ & Hw & _).
    exists (aggregate lightParams st), w'. split.
    + unfold runSimulation, bind. rewrite E. reflexivity.
    + cbn [aggregate waitingTimeDistribution].
      apply all_zero_counts. exact Hw.
Qed.

(** ** C3 *)

(** C3, as stated, fails: in the run of [lightParams] on [halfWorld] one
    waiting time is recorded and no traveler has completed primary
    service. *)
Lemma C3_counterexample :
  exists st w',
    simulate 10 lightParams halfWorld = Ok st w' /\
    length (waitingTimes st) = 1%nat /\
    primaryCompleted st = 0%nat /\
    primaryCompleted st <> length (waitingTimes st).
Proof.
  destruct lightRun_state as (st & w' & E & Hw & _ & Hc & _).
  exists st, w'. rewrite Hw, Hc.
  split; [exact E|]. split; [reflexivity|]. split; [reflexivity|].
  discriminate.
Qed.

(** C3 (amended): for every run, the number of waiting-time samples
    recorded equals the number of travelers that completed primary service
    plus the number of primary stations in service at the end of the
    horizon. *)
Theorem C3_samples_are_service_starts (ML : MathLib) (fuel : nat)
  (params : SimParams) (w : World) (st : SimState) (w' : World) :
  simulate fuel params w = Ok st w' ->
  length (waitingTimes st)
  = (primaryCompleted st + countBusy (primaryStations st))%nat.
Proof. apply simulate_conserved. Qed.

Lemma C3_samples_are_service_starts_witness :
  exists st w',
    simulate 10 lightParams halfWorld = Ok st w' /\
    length (waitingTimes st)
    = (primaryCompleted st + countBusy (primaryStations st))%nat.
Proof.
  assert (X : isOk (simulate 10 lightParams halfWorld) = true)
    by (vm_compute; reflexivity).
  destruct (simulate 10 lightParams halfWorld)
    as [st w'|e w'|w'] eqn:E; try discriminate X.
  exists st, w'. split; [reflexivity|].
  apply (@C3_samples_are_service_starts rationalMath 10 lightParams
           halfWorld st w' E).
Defined.

(** ** C4 *)

(** C4: for a number of stations [c], [calculateTheoretical] computes the
    documented closed form: lambda = arrivalRate / 60, mu = 1000 / mu1,
    rho = lambda / (c mu), P0 the inverse of the sum over k < c of
    (c rho)^k / k! plus (c rho)^c / (c! (1 - rho)),
    C = (c rho)^c P0 / (c! (1 - rho)), and it returns utilization = rho,
    avgQueueLength = C rho / (1 - rho), avgWaitTime = Lq / lambda,
    avgSystemTime = Wq + 1 / mu. *)
Theorem C4_calculateTheoretical_closed_form (params : SimParams) (c : nat) :
  numStations params = Z.of_nat c ->
  results_eq (Theoretical.calculateTheoretical params)
             (closedForm (arrivalRate params) (mu1 params) c).
Proof. apply calculateTheoretical_closedForm. Qed.

Lemma C4_calculateTheoretical_closed_form_witness :
  results_eq (Theoretical.calculateTheoretical documentedParams)
             (closedForm (Fin 10) (Fin 30000) 2).
Proof.
  apply (@C4_calculateTheoretical_closed_form documentedParams 2).
  reflexivity.
Defined.

(** ** C5 *)

Lemma first_shortest_snapshot (i : nat) :
  first_shortest [2; 0; 3]%nat i -> i = 1%nat.
Proof.
  intros (li & Hn & Hmin & _).
  assert (H0 : (li <= 0)%nat) by (apply (Hmin 1%nat); reflexivity).
  assert (li = 0%nat) by lia. subst li.
  destruct i as [|[|[|i]]]; simpl in Hn; try discriminate; try reflexivity.
  destruct i; discriminate.
Qed.

(** With at least one station, handling the arrivals of a step returns. *)
Lemma handleArrivals_total (ML : MathLib) (params : SimParams)
  (currentTime : num) (st : SimState) (w : World) :
  primaryStations st <> [] ->
  exists st' w', handleArrivals params currentTime st w = Ok st' w'.
Proof.
  intros Hne. unfold handleArrivals. destruct (num_le _ _).
  - destruct (primaryStations st) as [|s rest] eqn:E; [congruence|].
    destruct (shortestQueueIndex_total s rest w) as [i Hi].
    unfold bind at 1. rewrite Hi.
    unfold bind, Math_random, sampleInterArrival, Math_log, ret.
    eexists. eexists. reflexivity.
  - eexists. eexists. reflexivity.
Qed.

(** C5: with at least one station the arrivals of a step are handled
    without a fault; when an arrival is due, the traveler is pushed onto
    the primary queue of minimum length, the lowest index winning a tie;
    for the queue lengths [2, 0, 3] this is station 1. *)
Theorem C5_arrival_joins_first_shortest_queue (ML : MathLib)
  (params : SimParams) (currentTime : num) (st : SimState) (w : World) :
  (primaryStations st <> [] ->
   exists st' w', handleArrivals params currentTime st w = Ok st' w') /\
  forall (st' : SimState) (w' : World),
    num_le (num_sub (timeToNextArrival st) stepSize) (Fin 0) = true ->
    handleArrivals params currentTime st w = Ok st' w' ->
    exists (i : nat) (arrival : Traveler),
      first_shortest (map queueLength (primaryStations st)) i /\
      arrivalTime arrival = currentTime /\
      primaryStations st'
      = update_nth (primaryStations st) i
                   (fun s => set_queue (queue s ++ [arrival]) s) /\
      (map queueLength (primaryStations st) = [2; 0; 3]%nat -> i = 1%nat).
Proof.
  split; [apply handleArrivals_total|].
  intros st' w' Hdue H. unfold handleArrivals in H. rewrite Hdue in H.
  inv_bind H. inv_bind H. inv_bind H. inv_ret H.
  apply shortestQueueIndex_spec in Hm. destruct Hm as [_ Hfirst].
  exists a.
  exists {| arrivalTime := currentTime;
            needsScreening := num_lt a0 (screenProb params);
            startServiceTime := None;
            endServiceTime := None |}.
  split; [exact Hfirst|]. split; [|split].
  - reflexivity.
  - reflexivity.
  - intros E. rewrite E in Hfirst. apply first_shortest_snapshot. assumption.
Qed.

Lemma C5_arrival_joins_first_shortest_queue_witness :
  exists st' w',
    handleArrivals lightParams (Fin 0) snapshotState halfWorld = Ok st' w' /\
    map queueLength (primaryStations st') = [2; 1; 3]%nat.
Proof.
  assert (X : isOk (handleArrivals lightParams (Fin 0) snapshotState halfWorld)
              = true) by (vm_compute; reflexivity).
  destruct (handleArrivals lightParams (Fin 0) snapshotState halfWorld)
    as [st' w'|e w'|w'] eqn:E; try discriminate X.
  exists st', w'. split; [reflexivity|].
  destruct (@C5_arrival_joins_first_shortest_queue rationalMath lightParams
              (Fin 0) snapshotState halfWorld) as [_ H].
  destruct (H st' w' eq_refl E) as (i & arrival & _ & _ & E' & Hi).
  rewrite E', (Hi eq_refl). reflexivity.
Defined.

(** ** C6 *)



(** ** C7 *)

Lemma histogram_total (ws : list num) :
  ws <> [] ->
  Forall finite_nonneg ws ->
  num_seq (Math_max ws) (Fin 0) = false ->
  let d := calculateWaitingTimeDistribution ws in
  length (counts d) = numBins /\
  list_sum (counts d) = length ws /\
  exists m : Q,
    Math_max ws = Fin m /\ 0 < m /\
    forall q : Q,
      In (Fin q) ws ->
      array_index (binIndexOf (Fin (m / inject_Z 20)) (Fin q))
      = Some (Z.to_nat (Z.min (Qfloor (q / (m / inject_Z 20))) 19)).
Proof.
  intros Hne Hall Hmax. destruct ws as [|t ws]; [congruence|]. clear Hne.
  assert (Hfin : Forall finite (t :: ws)).
  { eapply Forall_impl; [|exact Hall]. intros x (q & -> & _). exists q.
    reflexivity. }
  destruct (Math_max_finite Hfin) as (m & Em & Hle).
  assert (Hm : 0 < m).
  { inversion Hall as [|? ? (q0 & E0 & Hq0) _]; subst.
    inversion Hle as [|? ? (q1 & E1 & Hq1) _]; subst.
    inversion E1; subst. rewrite Em in Hmax. cbn [num_seq] in Hmax.
    apply Qeq_bool_false in Hmax.
    destruct (Qlt_le_dec 0 m) as [L|L]; [assumption|].
    exfalso. apply Hmax. apply Qle_antisym; [assumption | lra]. }
  assert (Hb : 0 < m / inject_Z 20).
  { apply Qlt_shift_div_l; [reflexivity|]. rewrite Qmult_0_l. assumption. }
  cbv zeta. unfold calculateWaitingTimeDistribution. cbn [counts].
  rewrite Em. cbn [num_div num_of_nat num_of_Z].
  change (Qeq_bool (inject_Z (Z.of_nat numBins)) 0) with false. cbv iota.
  change (Z.of_nat numBins) with 20%Z.
  destruct (@fold_counts_sum (m / inject_Z 20) (t :: ws) (repeat 0%nat numBins)
              Hb Hall eq_refl) as [L S].
  split; [exact L|]. split; [rewrite S; reflexivity|].
  exists m. split; [reflexivity|]. split; [assumption|].
  intros q Hin. apply binIndexOf_floor_clamped; [assumption|].
  rewrite Forall_forall in Hall. destruct (Hall _ Hin) as (q' & E & Hq').
  inversion E; subst. assumption.
Qed.

(** The samples of a run meet the conditions: when their maximum is not
    zero, the histogram of the result counts every one of them. *)
Lemma runSimulation_histogram_total (ML : MathLib) (fuel : nat)
  (params : SimParams) (w : World) (r : SimulationResult) (w' : World) :
  runSimulation fuel params w = Ok r w' ->
  exists st : SimState,
    simulate fuel params w = Ok st w' /\ r = aggregate params st /\
    Forall finite_nonneg (waitingTimes st) /\
    (num_seq (Math_max (waitingTimes st)) (Fin 0) = false ->
     list_sum (counts (waitingTimeDistribution r)) = length (waitingTimes st)).
Proof.
  intros H. unfold runSimulation in H. inv_bind H. inv_ret H.
  exists a. split; [assumption|]. split; [reflexivity|].
  pose proof (simulate_waits _ _ _ Hm) as Hw. split; [assumption|].
  intros Hmax. cbn [aggregate waitingTimeDistribution].
  destruct (waitingTimes a) as [|t ws] eqn:E; [reflexivity|].
  rewrite <- E in *. apply histogram_total; try assumption.
  rewrite E. discriminate.
Qed.



(** ** C8 *)

(** C8: every primary station and the senior station are busy exactly when
    they hold a traveler; this holds in the initial all-idle state, is
    preserved by every step, and so holds at the end of every run. *)
Theorem C8_busy_iff_traveler (ML : MathLib) (fuel : nat) (params : SimParams) :
  (forall w st w', initialState params w = Ok st w' -> stations_ok st) /\
  (forall step st w st' w',
      stations_ok st -> simStep fuel params step st w = Ok st' w' ->
      stations_ok st') /\
  (forall w st w', simulate fuel params w = Ok st w' -> stations_ok st).
Proof.
  split; [|split].
  - intros w st w'. apply initialState_ok.
  - intros step st w st' w' Hok H. eapply simStep_ok; eauto.
  - intros w st w'. apply simulate_ok.
Qed.

Lemma C8_busy_iff_traveler_witness :
  exists st w',
    simulate 10 lightParams halfWorld = Ok st w' /\ stations_ok st.
Proof.
  assert (X : isOk (simulate 10 lightParams halfWorld) = true)
    by (vm_compute; reflexivity).
  destruct (simulate 10 lightParams halfWorld)
    as [st w'|e w'|w'] eqn:E; try discriminate X.
  exists st, w'. split; [reflexivity|].
  destruct (@C8_busy_iff_traveler rationalMath 10 lightParams)
    as (_ & _ & H).
  apply (H halfWorld st w' E).
Defined.

(** ** C9 *)

(** C9: whatever the way a call of [truncatedNormal] ends, every argument
    it has passed to [Math.log] is not zero; whenever it returns, its
    result is not negative, and it is a number >= 0 when mu and sigma are
    numbers and the draws lie in [0, 1); so is every service duration
    written to a station's remainingTime. *)
Theorem C9_truncatedNormal_nonnegative_log_defined (ML : MathLib)
  (fuel : nat) (mu sigma : num) (w : World) :
  (exists l : list num,
      logArgs (worldOf (truncatedNormal fuel mu sigma w)) = logArgs w ++ l /\
      Forall nonzero l) /\
  (forall v w',
      truncatedNormal fuel mu sigma w = Ok v w' -> num_lt v (Fin 0) = false) /\
  (log_nonpositive_on_unit ML -> unit_stream (randomStream w) ->
   finite mu -> finite sigma ->
   forall v w', truncatedNormal fuel mu sigma w = Ok v w' -> finite_nonneg v) /\
  (forall params currentTime station st station' st' w',
      startPrimary fuel params currentTime station st w = Ok (station', st') w' ->
      station' = station \/ num_lt (remainingTime station') (Fin 0) = false) /\
  (forall params st st' w',
      startSenior fuel params st w = Ok st' w' ->
      seniorStation st' = seniorStation st \/
      num_lt (remainingTime (seniorStation st')) (Fin 0) = false).
Proof.
  split; [|split; [|split; [|split]]].
  - apply truncatedNormal_log_nonzero.
  - intros v w'. apply truncatedNormal_loop_not_negative.
  - intros Hlaw Hs [m ->] [s ->] v w'.
    apply truncatedNormal_loop_finite; assumption.
  - intros params currentTime station st station' st' w'.
    apply startPrimary_remainingTime.
  - intros params st st' w'. apply startSenior_remainingTime.
Qed.

Lemma C9_truncatedNormal_nonnegative_log_defined_witness :
  exists v w',
    truncatedNormal 5 (Fin 2) (Fin 1) halfWorld = Ok v w' /\
    finite_nonneg v /\ Forall nonzero (logArgs w').
Proof.
  assert (X : isOk (truncatedNormal 5 (Fin 2) (Fin 1) halfWorld) = true)
    by (vm_compute; reflexivity).
  destruct (truncatedNormal 5 (Fin 2) (Fin 1) halfWorld)
    as [v w'|e w'|w'] eqn:E; try discriminate X.
  exists v, w'. split; [reflexivity|].
  destruct (@C9_truncatedNormal_nonnegative_log_defined rationalMath 5
              (Fin 2) (Fin 1) halfWorld) as ((l & El & Hl) & _ & Hfin & _).
  split.
  + apply (Hfin rationalMath_log_nonpositive
             (@unit_stream_const (1 # 2) ltac:(discriminate) ltac:(reflexivity))
             (ex_intro _ 2 eq_refl) (ex_intro _ 1 eq_refl) v w' E).
  + rewrite E in El. cbn [worldOf] in El. rewrite El. exact Hl.
Defined.

(** ** C10 *)

(** C10: the inter-arrival sampling passes a draw of zero to [Math.log] as
    it is (the sample is then [Infinity / rate]); there is a stream of
    draws in [0, 1) on which a run evaluates the logarithm at zero, while
    [truncatedNormal] never does. *)
Theorem C10_interarrival_log_at_zero (ML : MathLib) (fuel : nat)
  (params : SimParams) :
  (0 <= numStations params <= 4294967295)%Z ->
  (forall w,
      randomStream w (cursor w) == 0 ->
      exists x w',
        sampleInterArrival params w
        = Ok (num_div PInf (arrivalRatePerSecond params)) w' /\
        logArgs w' = logArgs w ++ [x] /\ num_seq x (Fin 0) = true) /\
  (exists f : nat -> Q,
      unit_stream f /\
      exists x : num,
        In x (logArgs (worldOf (runSimulation fuel params (newWorld f)))) /\
        num_seq x (Fin 0) = true) /\
  (forall mu sigma w,
      exists l : list num,
        logArgs (worldOf (truncatedNormal fuel mu sigma w)) = logArgs w ++ l /\
        Forall nonzero l).
Proof.
  intros Hn. split; [|split].
  - intros w. apply sampleInterArrival_zero.
  - exists (constStream 0). split.
    + apply unit_stream_const; [apply Qle_refl | reflexivity].
    + apply runSimulation_logs_zero; [assumption | reflexivity].
  - intros mu sigma w. apply truncatedNormal_log_nonzero.
Qed.

Lemma C10_interarrival_log_at_zero_witness :
  (0 <= numStations lightParams <= 4294967295)%Z /\
  exists f : nat -> Q,
    unit_stream f /\
    exists x : num,
      In x (logArgs (worldOf (runSimulation 10 lightParams (newWorld f)))) /\
      num_seq x (Fin 0) = true.
Proof.
  assert (Hn : (0 <= numStations lightParams <= 4294967295)%Z)
    by (vm_compute; split; discriminate).
  split; [exact Hn|].
  destruct (@C10_interarrival_log_at_zero rationalMath 10 lightParams Hn)
    as (_ & H & _).
  exact H.
Defined.

(** * Further properties of the engine *)

(** ** Each operation, case by case *)

Section Operations.

Context {ML : MathLib}.
Variable fuel : nat.
Variable params : SimParams.

Lemma handleArrivals_Ok (currentTime : num) (st : SimState) w st' w' :
  handleArrivals params currentTime st w = Ok st' w' ->
  (num_le (num_sub (timeToNextArrival st) stepSize) (Fin 0) = false /\
   st' = set_timeToNextArrival (num_sub (timeToNextArrival st) stepSize) st /\
   w' = w)
  \/ (num_le (num_sub (timeToNextArrival st) stepSize) (Fin 0) = true /\
      exists (i : nat) (t' : num),
        first_shortest (map queueLength (primaryStations st)) i /\
        st' = set_timeToNextArrival t'
                (set_primaryStations
                   (update_nth (primaryStations st) i
                      (fun s =>
                         set_queue
                           (queue s ++
                              [newArrival params currentTime
                                 (Fin (randomStream w (cursor w)))]) s))
                   st)).
Proof.
  unfold handleArrivals. destruct (num_le _ _).
  - intros H. inv_bind H. inv_bind H. inv_bind H. inv_ret H. right.
    split; [reflexivity|]. apply shortestQueueIndex_spec in Hm.
    destruct Hm as [-> Hfirst]. unfold Math_random in Hm0.
    inversion Hm0; subst; clear Hm0.
    exists a, a1. split; [assumption | reflexivity].
  - intros H. inv_ret H. left. repeat split; reflexivity.
Qed.

Lemma startPrimary_Ok (currentTime : num) (s1 : Station) (st1 : SimState)
  w s2 st2 w' :
  startPrimary fuel params currentTime s1 st1 w = Ok (s2, st2) w' ->
  (s2 = s1 /\ st2 = st1 /\ w' = w /\ (busy s1 = true \/ queue s1 = []))
  \/ exists (head : Traveler) (rest : list Traveler) (v : num),
       busy s1 = false /\ queue s1 = head :: rest /\
       truncatedNormal fuel (mu1 params) (sigma1 params) w = Ok v w' /\
       s2 = {| busy := true; remainingTime := v;
               traveler :=
                 Some {| arrivalTime := arrivalTime head;
                         needsScreening := needsScreening head;
                         startServiceTime := Some currentTime;
                         endServiceTime := endServiceTime head |};
               queue := rest |} /\
       st2 = set_primaryServiceTimes (primaryServiceTimes st1 ++ [v])
               (set_waitingTimes
                  (waitingTimes st1 ++ [num_sub currentTime (arrivalTime head)])
                  st1).
Proof.
  unfold startPrimary. destruct (busy s1) eqn:Eb; cbn [negb andb].
  - intros H. inv_ret H. inversion E; subst. left.
    repeat split; try reflexivity. left. reflexivity.
  - destruct (queue s1) as [|head rest] eqn:Eq; cbn [length Nat.ltb Nat.leb].
    + intros H. inv_ret H. inversion E; subst. left.
      repeat split; try reflexivity. right. reflexivity.
    + intros H. inv_bind H. inv_ret H. inversion E; subst. right.
      exists head, rest, a. repeat split; try reflexivity. exact Hm.
Qed.

Lemma startSenior_Ok (st : SimState) w st' w' :
  startSenior fuel params st w = Ok st' w' ->
  (st' = st /\ w' = w /\
   (busy (seniorStation st) = true \/ queue (seniorStation st) = []))
  \/ exists (head : Traveler) (rest : list Traveler) (v : num),
       busy (seniorStation st) = false /\
       queue (seniorStation st) = head :: rest /\
       truncatedNormal fuel (mu2 params) (sigma2 params) w = Ok v w' /\
       st' = set_seniorServiceTimes (seniorServiceTimes st ++ [v])
               (set_seniorStation
                  {| busy := true; remainingTime := v;
                     traveler := Some head; queue := rest |} st).
Proof.
  unfold startSenior. destruct (busy (seniorStation st)) eqn:Eb;
    cbn [negb andb].
  - intros H. inv_ret H. left. repeat split; try reflexivity.
    left. reflexivity.
  - destruct (queue (seniorStation st)) as [|head rest] eqn:Eq;
      cbn [length Nat.ltb Nat.leb].
    + intros H. inv_ret H. left. repeat split; try reflexivity.
      right. reflexivity.
    + intros H. inv_bind H. inv_ret H. right.
      exists head, rest, a. repeat split; try reflexivity. exact Hm.
Qed.

Lemma simStep_Ok (k : nat) (st : SimState) w st' w' :
  simStep fuel params k st w = Ok st' w' ->
  exists s1 w1 s2 w2 s3,
    handleArrivals params (Fin (timeOfStep k)) st w = Ok s1 w1 /\
    forEachIndex (seq 0 (length (primaryStations s1)))
      (processPrimaryStation fuel params (Fin (timeOfStep k))) s1 w1
    = Ok s2 w2 /\
    startSenior fuel params (tickSenior s2) w2 = Ok s3 w' /\
    st' = recordTimeSeries (Fin (timeOfStep k)) s3.
Proof.
  unfold simStep. rewrite currentTime_timeOfStep. intros H.
  inv_bind H. inv_bind H. inv_bind H. inv_ret H.
  exists a, w0, a0, w1, a1. repeat split; assumption.
Qed.

(** *** Invariants that may speak of the world *)

Lemma forEachIndex_invariant_w (P : nat -> SimState -> World -> Prop)
  (body : nat -> SimState -> M SimState) :
  (forall i st w st' w', body i st w = Ok st' w' -> P i st w -> P (S i) st' w') ->
  forall n a st w st' w',
    forEachIndex (seq a n) body st w = Ok st' w' -> P a st w ->
    P (a + n)%nat st' w'.
Proof.
  intros Hbody. induction n as [|n IH]; intros a st w st' w' H HP; simpl in H.
  - inv_ret H. rewrite Nat.add_0_r. assumption.
  - inv_bind H. replace (a + S n)%nat with (S a + n)%nat by lia.
    eapply IH; [exact H|]. eapply Hbody; eauto.
Qed.

Lemma mainLoop_invariant_w (P : nat -> SimState -> World -> Prop) :
  (forall k st w st' w',
      num_lt (num_of_nat k) (totalSteps params) = true ->
      simStep fuel params k st w = Ok st' w' -> P k st w -> P (S k) st' w') ->
  forall n k st w st' w',
    mainLoop fuel params n k st w = Ok st' w' -> P k st w ->
    exists K : nat,
      P K st' w' /\ num_lt (num_of_nat K) (totalSteps params) = false.
Proof.
  intros Hstep. induction n as [|n IH]; intros k st w st' w' H HP;
    cbn [mainLoop] in H;
    destruct (num_lt (num_of_nat k) (totalSteps params)) eqn:E.
  - discriminate.
  - inv_ret H. exists k. split; assumption.
  - inv_bind H. eapply IH; [exact H|]. eapply Hstep; eauto.
  - inv_ret H. exists k. split; assumption.
Qed.

(** A step is its four phases: arrivals, the primary stations, the
    senior station, recording. *)
Lemma simStep_phases (I0 I J : SimState -> World -> Prop) (k : nat) :
  (forall st w st' w',
      handleArrivals params (Fin (timeOfStep k)) st w = Ok st' w' ->
      I0 st w -> I st' w') ->
  (forall i st w st' w',
      processPrimaryStation fuel params (Fin (timeOfStep k)) i st w = Ok st' w' ->
      I st w -> I st' w') ->
  (forall st w st' w',
      startSenior fuel params (tickSenior st) w = Ok st' w' ->
      I st w -> I st' w') ->
  (forall st w, I st w -> J (recordTimeSeries (Fin (timeOfStep k)) st) w) ->
  forall st w st' w',
    simStep fuel params k st w = Ok st' w' -> I0 st w -> J st' w'.
Proof.
  intros Ha Hp Hs Hr st w st' w' H HI.
  apply simStep_Ok in H.
  destruct H as (s1 & w1 & s2 & w2 & s3 & H1 & H2 & H3 & ->).
  apply Hr. eapply Hs; [exact H3|].
  pose proof (@forEachIndex_invariant_w (fun _ => I)
                (processPrimaryStation fuel params (Fin (timeOfStep k)))) as L.
  eapply L; [|exact H2|].
  - intros i a b c d Hi. eapply Hp. exact Hi.
  - eapply Ha; eauto.
Qed.

(** The stream of draws is the same at the end of each operation. *)
Lemma stream_of_Ok (A : Type) (m : M A) w a w' :
  log_calls anyLog m -> m w = Ok a w' -> randomStream w' = randomStream w.
Proof.
  intros L H. specialize (L w). rewrite H in L. apply L.
Qed.

Lemma tickPrimary_frame (i : nat) (s : Station) (st : SimState) s1 st1 :
  tickPrimary i s st = (s1, st1) ->
  timeSeries st1 = timeSeries st /\
  primaryServiceTimes st1 = primaryServiceTimes st /\
  seniorServiceTimes st1 = seniorServiceTimes st /\
  timeToNextArrival st1 = timeToNextArrival st.
Proof.
  unfold tickPrimary, dispatchToSenior.
  destruct (busy s); [destruct (num_le _ _)|];
    [destruct (traveler s) as [t|]; [destruct (needsScreening t)|]| |];
    intros H; inversion H; subst; repeat split; reflexivity.
Qed.

Lemma tickSenior_frame (st : SimState) :
  timeSeries (tickSenior st) = timeSeries st /\
  primaryServiceTimes (tickSenior st) = primaryServiceTimes st /\
  seniorServiceTimes (tickSenior st) = seniorServiceTimes st /\
  queue (seniorStation (tickSenior st)) = queue (seniorStation st).
Proof.
  unfold tickSenior. destruct (busy (seniorStation st)) eqn:Eb;
    [destruct (num_le _ _)|]; repeat split; reflexivity.
Qed.

End Operations.

(** ** The ledger of a run *)

Lemma fold_add_sum (l : list nat) (a : nat) :
  fold_left Nat.add l a = (a + list_sum l)%nat.
Proof.
  revert a. induction l as [|x l IH]; intros a; simpl; [lia|].
  rewrite IH. lia.
Qed.

Lemma queued_replace (l : list Station) (i : nat) (s s' : Station) :
  nth_error l i = Some s ->
  (queued (update_nth l i (fun _ => s')) + queueLength s
   = queued l + queueLength s')%nat.
Proof.
  unfold queued. revert i.
  induction l as [|x l IH]; intros [|i] H; simpl in *; try discriminate.
  - inversion H; subst. lia.
  - specialize (IH i H). lia.
Qed.

Lemma queued_push (l : list Station) (i : nat) (t : Traveler) :
  (queued (update_nth l i (fun s => set_queue (queue s ++ [t]) s))
   <= S (queued l))%nat.
Proof.
  unfold queued. revert i.
  induction l as [|x l IH]; intros [|i]; simpl; try lia.
  - unfold queueLength at 1. cbn. rewrite length_app. simpl.
    unfold queueLength. lia.
  - specialize (IH i). lia.
Qed.

Lemma queued_push_exact (l : list Station) (i : nat) (t : Traveler) :
  (i < length l)%nat ->
  queued (update_nth l i (fun s => set_queue (queue s ++ [t]) s))
  = S (queued l).
Proof.
  unfold queued. revert i.
  induction l as [|x l IH]; intros [|i] H; simpl in *; try lia.
  - unfold queueLength at 1. cbn. rewrite length_app. simpl.
    unfold queueLength. lia.
  - rewrite IH by lia. lia.
Qed.

Lemma queued_idle (n : nat) : queued (repeat idleStation n) = 0%nat.
Proof. unfold queued. induction n; simpl; auto. Qed.

Section LedgerFacts.

Context {ML : MathLib}.
Variable fuel : nat.
Variable params : SimParams.

Lemma handleArrivals_ledger (n k : nat) (currentTime : num) (st : SimState)
  w st' w' :
  handleArrivals params currentTime st w = Ok st' w' ->
  ledger n k k st -> ledger n k (S k) st'.
Proof.
  intros H (L1 & L2 & L3 & L4 & L5 & L6). apply handleArrivals_Ok in H.
  destruct H as [(_ & -> & _)|(_ & i & t' & _ & ->)]; unfold ledger; cbn.
  - repeat split; try assumption. lia.
  - rewrite update_nth_length. repeat split; try assumption.
    pose proof (queued_push (primaryStations st) i
                  (newArrival params currentTime
                     (Fin (randomStream w (cursor w))))) as Q.
    lia.
Qed.

Lemma processPrimaryStation_ledger (n k a : nat) (currentTime : num) (i : nat)
  (st : SimState) w st' w' :
  processPrimaryStation fuel params currentTime i st w = Ok st' w' ->
  ledger n k a st -> ledger n k a st'.
Proof.
  intros H (L1 & L2 & L3 & L4 & L5 & L6).
  pose proof H as N. apply processPrimaryStation_lengths in N.
  destruct N as [N1 N2].
  apply processPrimaryStation_Ok in H.
  destruct H as [[_ ->]|(s0 & s1 & st1 & s2 & st2 & w1 & En & Et & Es & ->)];
    [repeat split; assumption|].
  cbn in N1, N2.
  pose proof Et as Q1. apply tickPrimary_queue in Q1.
  pose proof Et as F. apply tickPrimary_frame in F. destruct F as (F1 & F2 & _).
  apply tickPrimary_facts in Et. destruct Et as (T1 & T2 & _).
  apply startPrimary_Ok in Es.
  unfold ledger. cbn. rewrite N1, N2.
  destruct Es as [(-> & -> & _)|(head & rest & v & Eb & Eq & _ & -> & ->)].
  - rewrite T1, T2, F1, F2.
    pose proof (@queued_replace _ _ _ s1 En) as R.
    unfold queueLength in R. rewrite Q1 in R.
    repeat split; try assumption. lia.
  - cbn. rewrite T1, T2, F1, F2, !length_app. cbn.
    pose proof (@queued_replace _ _ _
                  {| busy := true; remainingTime := v;
                     traveler :=
                       Some {| arrivalTime := arrivalTime head;
                               needsScreening := needsScreening head;
                               startServiceTime := Some currentTime;
                               endServiceTime := endServiceTime head |};
                     queue := rest |} En) as R.
    unfold queueLength in R. cbn [queue] in R. rewrite <- Q1, Eq in R.
    cbn [length] in R. repeat split; try assumption; lia.
Qed.

Lemma senior_ledger (n k a : nat) (st : SimState) w st' w' :
  startSenior fuel params (tickSenior st) w = Ok st' w' ->
  ledger n k a st -> ledger n k a st'.
Proof.
  intros H (L1 & L2 & L3 & L4 & L5 & L6).
  destruct (tickSenior_facts st) as (Q1 & Q2 & Q3 & _).
  destruct (tickSenior_frame st) as (F1 & F2 & _).
  apply startSenior_Ok in H.
  destruct H as [(-> & _)|(head & rest & v & _ & _ & _ & ->)];
    unfold ledger; cbn; rewrite Q1, Q2, Q3, F1, F2;
    repeat split; assumption.
Qed.

Lemma recordTimeSeries_ledger (n k : nat) (st : SimState) :
  ledger n k (S k) st ->
  ledger n (S k) (S k) (recordTimeSeries (Fin (timeOfStep k)) st).
Proof.
  intros (L1 & L2 & L3 & L4 & L5 & L6).
  unfold ledger, recordTimeSeries, set_timeSeries.
  cbn [primaryStations stationBusyTime timeSeries primaryServiceTimes
       waitingTimes].
  repeat split; try assumption.
  - rewrite map_app, seq_S, map_app, L3. reflexivity.
  - apply Forall_app. split; [assumption|]. constructor; [|constructor].
    split; cbn.
    + rewrite length_map. assumption.
    + rewrite fold_add_sum. reflexivity.
Qed.

Lemma simStep_ledger (n k : nat) (st : SimState) w st' w' :
  simStep fuel params k st w = Ok st' w' ->
  ledger n k k st -> ledger n (S k) (S k) st'.
Proof.
  intros H L.
  apply (@simStep_phases _ fuel params
           (fun s _ => ledger n k k s) (fun s _ => ledger n k (S k) s)
           (fun s _ => ledger n (S k) (S k) s) k) with (5 := H); try assumption.
  - intros a b c d. apply handleArrivals_ledger.
  - intros i a b c d. apply processPrimaryStation_ledger.
  - intros a b c d. apply senior_ledger.
  - intros a _. apply recordTimeSeries_ledger.
Qed.

Lemma initialState_ledger w st w' :
  initialState params w = Ok st w' ->
  ledger (Z.to_nat (numStations params)) 0 0 st.
Proof.
  intros H. unfold initialState in H. inv_bind H. inv_bind H. inv_bind H.
  inv_ret H. apply Array_new_Ok in Hm, Hm0.
  destruct Hm as (-> & _), Hm0 as (-> & _).
  unfold ledger. cbn. rewrite !repeat_length, queued_idle.
  repeat split; try reflexivity. constructor.
Qed.

(** The number of iterations a returning loop has made. *)
Lemma loop_exit_count (K : nat) :
  num_lt (num_of_nat K) (totalSteps params) = false ->
  (K <> 0%nat -> num_lt (num_of_nat (pred K)) (totalSteps params) = true) ->
  K = stepCount (simulationTime params).
Proof.
  unfold totalSteps, stepCount, stepSize.
  destruct (simulationTime params) as [t| | |]; cbn [num_div].
  - change (Qeq_bool (1 # 10) 0) with false. cbv iota.
    unfold num_of_nat, num_of_Z. cbn [Math_ceil num_lt]. unfold num_of_Z.
    intros H1 H2. apply Qlt_bool_false in H1. rewrite <- Zle_Qle in H1.
    destruct K as [|k]; [lia|].
    assert (N : S k <> 0%nat) by congruence. specialize (H2 N).
    cbn [pred] in H2. apply Qlt_bool_iff in H2. rewrite <- Zlt_Qlt in H2.
    lia.
  - cbn. discriminate.
  - cbn. intros _ H. destruct K as [|k]; [reflexivity|].
    assert (N : S k <> 0%nat) by congruence. specialize (H N). discriminate.
  - cbn. intros _ H. destruct K as [|k]; [reflexivity|].
    assert (N : S k <> 0%nat) by congruence. specialize (H N). discriminate.
Qed.

Lemma simulate_ledger w st w' :
  simulate fuel params w = Ok st w' ->
  ledger (Z.to_nat (numStations params))
         (stepCount (simulationTime params))
         (stepCount (simulationTime params)) st.
Proof.
  unfold simulate. intros H. inv_bind H.
  apply initialState_ledger in Hm.
  set (n := Z.to_nat (numStations params)) in *.
  set (P := fun (k : nat) (s : SimState) (_ : World) =>
              ledger n k k s /\
              (k <> 0%nat ->
               num_lt (num_of_nat (pred k)) (totalSteps params) = true)).
  assert (Hstep : forall k s1 v1 s2 v2,
             num_lt (num_of_nat k) (totalSteps params) = true ->
             simStep fuel params k s1 v1 = Ok s2 v2 ->
             P k s1 v1 -> P (S k) s2 v2).
  { intros k s1 v1 s2 v2 Hlt Hs [L _]. split.
    - eapply simStep_ledger; eauto.
    - intros _. exact Hlt. }
  destruct (@mainLoop_invariant_w _ fuel params P Hstep _ _ _ _ _ _ H)
    as (K & [HK Hlast] & Hexit).
  { split; [assumption | congruence]. }
  rewrite <- (loop_exit_count Hexit Hlast). assumption.
Qed.

End LedgerFacts.

(** ** Exceptions *)

Lemma throws_bind (A B : Type) (P : exn -> Prop) (m : M A) (f : A -> M B) w :
  throws P (m w) ->
  (forall a w1, m w = Ok a w1 -> throws P (f a w1)) ->
  throws P (bind m f w).
Proof.
  unfold bind. destruct (m w) as [a w1|e w1|w1]; simpl; auto.
Qed.

Lemma throws_weaken (A : Type) (P Q : exn -> Prop) (o : outcome A) :
  (forall e, P e -> Q e) -> throws P o -> throws Q o.
Proof. destruct o; simpl; auto. Qed.

Section ExceptionFacts.

Context {ML : MathLib}.
Variable fuel : nat.
Variable params : SimParams.

Lemma quiet_drawNonZero (n : nat) w : quiet (drawNonZero n w).
Proof.
  revert w. induction n as [|n IH]; intros w; simpl; [exact I|].
  unfold bind, Math_random. destruct (num_seq _ _); [apply IH | exact I].
Qed.

Lemma quiet_truncatedNormal_loop (n : nat) (mu sigma : num) w :
  quiet (truncatedNormal_loop fuel n mu sigma w).
Proof.
  revert w. induction n as [|n IH]; intros w; cbn [truncatedNormal_loop];
    [exact I|].
  apply throws_bind; [apply quiet_drawNonZero|]. intros u w1 _.
  apply throws_bind; [apply quiet_drawNonZero|]. intros v w2 _.
  apply throws_bind; [exact I|]. intros l w3 _.
  destruct (num_lt _ _); [apply IH | exact I].
Qed.

Lemma quiet_startPrimary (currentTime : num) (s : Station) (st : SimState) w :
  quiet (startPrimary fuel params currentTime s st w).
Proof.
  unfold startPrimary. destruct (_ && _)%bool; [|exact I].
  destruct (queue s); [exact I|].
  apply throws_bind; [apply quiet_truncatedNormal_loop|]. intros; exact I.
Qed.

Lemma quiet_processPrimaryStation (currentTime : num) (i : nat)
  (st : SimState) w :
  quiet (processPrimaryStation fuel params currentTime i st w).
Proof.
  unfold processPrimaryStation. destruct (nth_error _ _); [|exact I].
  destruct (tickPrimary _ _ _).
  apply throws_bind; [apply quiet_startPrimary|]. intros [s2 st2] w1 _. exact I.
Qed.

Lemma quiet_forEachIndex (idxs : list nat)
  (body : nat -> SimState -> M SimState) (st : SimState) w :
  (forall i s v, quiet (body i s v)) -> quiet (forEachIndex idxs body st w).
Proof.
  intros Hb. revert st w. induction idxs as [|i idxs IH]; intros st w; simpl;
    [exact I|].
  apply throws_bind; [apply Hb|]. intros; apply IH.
Qed.

Lemma quiet_startSenior (st : SimState) w : quiet (startSenior fuel params st w).
Proof.
  unfold startSenior. destruct (_ && _)%bool; [|exact I].
  destruct (queue _); [exact I|].
  apply throws_bind; [apply quiet_truncatedNormal_loop|]. intros; exact I.
Qed.

(** Handling arrivals throws only the TypeError of the empty [reduce], and
    only when there is no station. *)
Lemma throws_handleArrivals (currentTime : num) (st : SimState) w :
  throws (fun e => e = TypeError /\ primaryStations st = [])
         (handleArrivals params currentTime st w).
Proof.
  unfold handleArrivals. destruct (num_le _ _); [|exact I].
  apply throws_bind.
  - unfold shortestQueueIndex.
    destruct (primaryStations st); simpl; auto.
  - intros i w1 _. apply throws_bind; [exact I|]. intros r w2 _.
    apply throws_bind; [|intros; exact I].
    unfold sampleInterArrival, bind, Math_random, Math_log. exact I.
Qed.

Lemma handleArrivals_no_station (currentTime : num) (st : SimState) w :
  primaryStations st = [] ->
  num_le (num_sub (timeToNextArrival st) stepSize) (Fin 0) = true ->
  handleArrivals params currentTime st w = Throw TypeError w.
Proof.
  intros E Hdue. unfold handleArrivals. rewrite Hdue, E. reflexivity.
Qed.

Lemma throws_simStep (k : nat) (st : SimState) w :
  throws (fun e => e = TypeError /\ primaryStations st = [])
         (simStep fuel params k st w).
Proof.
  unfold simStep. apply throws_bind; [apply throws_handleArrivals|].
  intros s1 w1 _. apply throws_bind.
  { eapply throws_weaken; [|apply quiet_forEachIndex].
    - intros e [].
    - intros i s v. apply quiet_processPrimaryStation. }
  intros s2 w2 _. apply throws_bind.
  { eapply throws_weaken; [|apply quiet_startSenior]. intros e []. }
  intros; exact I.
Qed.

Lemma throws_mainLoop (n0 n k : nat) (st : SimState) w :
  ledger n k k st ->
  throws (fun e => e = TypeError /\ n = 0%nat)
         (mainLoop fuel params n0 k st w).
Proof.
  revert k st w. induction n0 as [|n0 IH]; intros k st w L; cbn [mainLoop];
    destruct (num_lt _ _); try exact I.
  apply throws_bind.
  - eapply throws_weaken; [|apply throws_simStep].
    intros e [-> E]. split; [reflexivity|].
    destruct L as (L1 & _). rewrite E in L1. simpl in L1. congruence.
  - intros s1 w1 Hs. apply IH. eapply simStep_ledger; eauto.
Qed.

Lemma initialState_range w :
  ((numStations params < 0)%Z \/ (4294967295 < numStations params)%Z ->
   initialState params w = Throw RangeError w) /\
  ((0 <= numStations params <= 4294967295)%Z ->
   exists st w', initialState params w = Ok st w').
Proof.
  unfold initialState, Array_new. split.
  - intros H.
    assert (E : ((numStations params <? 0)
                 || (4294967295 <? numStations params))%Z%bool = true).
    { apply orb_true_iff. destruct H; [left | right]; apply Z.ltb_lt; assumption. }
    unfold bind at 1. rewrite E. reflexivity.
  - intros H.
    assert (E : ((numStations params <? 0)
                 || (4294967295 <? numStations params))%Z%bool = false).
    { apply orb_false_iff. split; apply Z.ltb_ge; lia. }
    unfold bind, sampleInterArrival, Math_random, Math_log, ret, bind.
    rewrite E. cbn. eexists. eexists. reflexivity.
Qed.

(** A run throws a RangeError for an invalid number of stations, and then
    before any draw; a TypeError only with zero stations; nothing else. *)
Lemma runSimulation_exceptions w :
  ((numStations params < 0)%Z \/ (4294967295 < numStations params)%Z ->
   runSimulation fuel params w = Throw RangeError w) /\
  ((0 <= numStations params <= 4294967295)%Z ->
   throws (fun e => e = TypeError /\ numStations params = 0%Z)
          (runSimulation fuel params w)).
Proof.
  split.
  - intros H. unfold runSimulation, simulate. unfold bind at 1. unfold bind at 1.
    destruct (initialState_range w) as [R _]. rewrite (R H). reflexivity.
  - intros H. unfold runSimulation. apply throws_bind; [|intros; exact I].
    unfold simulate. apply throws_bind.
    + destruct (initialState_range w) as [_ R].
      destruct (R H) as (st & w' & E). rewrite E. exact I.
    + intros st w1 Hi. apply initialState_ledger in Hi.
      eapply throws_weaken; [|apply throws_mainLoop; exact Hi].
      intros e [-> E]. split; [reflexivity|]. lia.
Qed.

(** *** No station *)

Lemma handleArrivals_deserted (currentTime : num) (st : SimState) w st' w' :
  handleArrivals params currentTime st w = Ok st' w' ->
  deserted st -> deserted st'.
Proof.
  intros H (D1 & D2 & D3 & D4). apply handleArrivals_Ok in H.
  destruct H as [(_ & -> & _)|(_ & i & t' & (li & Hn & _) & _)].
  - repeat split; assumption.
  - rewrite D1 in Hn. destruct i; discriminate.
Qed.

Lemma processPrimaryStation_deserted (currentTime : num) (i : nat)
  (st : SimState) w st' w' :
  processPrimaryStation fuel params currentTime i st w = Ok st' w' ->
  deserted st -> deserted st'.
Proof.
  intros H D. apply processPrimaryStation_Ok in H.
  destruct H as [[_ ->]|(s0 & _ & _ & _ & _ & _ & En & _)]; [assumption|].
  destruct D as (D1 & _). rewrite D1 in En. destruct i; discriminate.
Qed.

Lemma senior_deserted (st : SimState) w st' w' :
  startSenior fuel params (tickSenior st) w = Ok st' w' ->
  deserted st -> deserted st'.
Proof.
  intros H (D1 & D2 & D3 & D4).
  destruct (tickSenior_facts st) as (Q1 & Q2 & _).
  destruct (tickSenior_frame st) as (F1 & _ & _ & F4).
  apply startSenior_Ok in H.
  destruct H as [(-> & _)|(head & rest & v & _ & Eq & _)].
  - unfold deserted. rewrite Q1, Q2, F1, F4. repeat split; assumption.
  - rewrite F4, D3 in Eq. discriminate.
Qed.

Lemma recordTimeSeries_deserted (currentTime : num) (st : SimState) :
  deserted st -> deserted (recordTimeSeries currentTime st).
Proof.
  intros (D1 & D2 & D3 & D4). unfold deserted, recordTimeSeries. cbn.
  repeat split; try assumption.
  apply Forall_app. split; [assumption|]. constructor; [|constructor].
  cbn. rewrite D1, D3. reflexivity.
Qed.

Lemma simulate_deserted w st w' :
  numStations params = 0%Z ->
  simulate fuel params w = Ok st w' -> deserted st.
Proof.
  intros Hn. unfold simulate. intros H. inv_bind H.
  assert (D0 : deserted a).
  { pose proof (initialState_ledger _ _ Hm) as (_ & _ & L3 & _).
    apply map_eq_nil in L3.
    apply initialState_Ok in Hm. destruct Hm as (E1 & E2 & E3 & _).
    unfold deserted. rewrite E1, E2, E3, Hn, L3. repeat split. constructor. }
  assert (Hstep : forall k s1 v1 s2 v2,
             num_lt (num_of_nat k) (totalSteps params) = true ->
             simStep fuel params k s1 v1 = Ok s2 v2 ->
             deserted s1 -> deserted s2).
  { intros k s1 v1 s2 v2 _ Hs D.
    apply (@simStep_phases _ fuel params
             (fun s _ => deserted s) (fun s _ => deserted s)
             (fun s _ => deserted s) k) with (5 := Hs); try assumption.
    - intros x b c d. apply handleArrivals_deserted.
    - intros i x b c d. apply processPrimaryStation_deserted.
    - intros x b c d. apply senior_deserted.
    - intros x _. apply recordTimeSeries_deserted. }
  destruct (@mainLoop_invariant _ fuel params (fun _ => deserted) Hstep
              _ _ _ _ _ _ H D0) as (K & HK & _).
  assumption.
Qed.

End ExceptionFacts.

(** ** Queues and service *)



Lemma not_le_notNegative (x : num) :
  num_le x (Fin 0) = false -> notNegative x.
Proof.
  unfold notNegative. destruct x as [q| | |]; simpl; try reflexivity;
    try discriminate.
  intros H. apply Qle_bool_false in H. unfold Qlt_bool.
  destruct (Qle_bool 0 q) eqn:E; [reflexivity|].
  apply Qle_bool_false in E. lra.
Qed.

Section QueueFacts.

Context {ML : MathLib}.
Variable fuel : nat.
Variable params : SimParams.








(** *** Service durations and additional screening *)

Lemma tickPrimary_service (i : nat) (s : Station) (st : SimState) s1 st1 :
  tickPrimary i s st = (s1, st1) ->
  (busy s = true -> notNegative (remainingTime s)) ->
  service_ok st ->
  (busy s1 = true -> notNegative (remainingTime s1)) /\ service_ok st1.
Proof.
  unfold tickPrimary, dispatchToSenior. intros H Hs (V1 & V2 & V3 & V4 & V5 & V6).
  destruct (busy s) eqn:Eb.
  - destruct (num_le _ _) eqn:El.
    + destruct (traveler s) as [t|] eqn:Et;
        [destruct (needsScreening t) eqn:En|];
        inversion H; subst; cbn; (split; [discriminate|]);
        unfold service_ok; cbn; repeat split; try assumption.
      apply Forall_app. split; [assumption|]. constructor; [assumption|constructor].
    + inversion H; subst; cbn. split.
      * intros _. apply not_le_notNegative. assumption.
      * unfold service_ok; cbn; repeat split; assumption.
  - inversion H; subst. split; [congruence|].
    unfold service_ok; repeat split; assumption.
Qed.

Lemma processPrimaryStation_service (currentTime : num) (i : nat)
  (st : SimState) w st' w' :
  processPrimaryStation fuel params currentTime i st w = Ok st' w' ->
  service_ok st -> service_ok st'.
Proof.
  intros H V. apply processPrimaryStation_Ok in H.
  destruct H as [[_ ->]|(s0 & s1 & st1 & s2 & st2 & w1 & En & Et & Es & ->)];
    [exact V|].
  assert (V0 : busy s0 = true -> notNegative (remainingTime s0)).
  { destruct V as (_ & _ & V3 & _).
    rewrite Forall_forall in V3. apply V3. eapply nth_error_In. exact En. }
  pose proof Et as T. apply tickPrimary_facts in T. destruct T as (T1 & _).
  destruct (@tickPrimary_service _ _ _ _ _ Et V0 V) as [W1 (V1 & V2 & V3 & V4 & V5 & V6)].
  apply startPrimary_Ok in Es.
  destruct Es as [(-> & -> & _)|(head & rest & v & _ & _ & Hv & -> & ->)];
    unfold service_ok; cbn; repeat split; try assumption.
  - apply update_nth_Forall; [assumption|]. intros x _ _. exact W1.
  - apply Forall_app. split; [assumption|]. constructor; [|constructor].
    eapply truncatedNormal_loop_not_negative. exact Hv.
  - apply update_nth_Forall; [assumption|]. intros x _ _ _. cbn.
    eapply truncatedNormal_loop_not_negative. exact Hv.
Qed.

Lemma handleArrivals_service (currentTime : num) (st : SimState) w st' w' :
  handleArrivals params currentTime st w = Ok st' w' ->
  service_ok st -> service_ok st'.
Proof.
  intros H (V1 & V2 & V3 & V4 & V5 & V6). apply handleArrivals_Ok in H.
  destruct H as [(_ & -> & _)|(_ & i & t' & _ & ->)];
    unfold service_ok; cbn; repeat split; try assumption.
  apply update_nth_Forall; [assumption|]. intros x _ Hx. exact Hx.
Qed.

Lemma senior_service (st : SimState) w st' w' :
  startSenior fuel params (tickSenior st) w = Ok st' w' ->
  service_ok st -> service_ok st'.
Proof.
  intros H (V1 & V2 & V3 & V4 & V5 & V6).
  assert (T : service_ok (tickSenior st)).
  { unfold tickSenior. destruct (busy (seniorStation st)) eqn:Eb;
      [destruct (num_le _ _) eqn:El|];
      unfold service_ok; cbn; repeat split; try assumption; try discriminate;
      try congruence.
    intros _. apply not_le_notNegative. assumption. }
  destruct T as (T1 & T2 & T3 & T4 & T5 & T6).
  apply startSenior_Ok in H.
  destruct H as [(-> & _)|(head & rest & v & _ & Eq & Hv & ->)];
    [repeat split; assumption|].
  rewrite Eq in T5. inversion T5; subst.
  unfold service_ok; cbn; repeat split; try assumption.
  - apply Forall_app. split; [assumption|]. constructor; [|constructor].
    eapply truncatedNormal_loop_not_negative. exact Hv.
  - intros _. eapply truncatedNormal_loop_not_negative. exact Hv.
  - intros t Et. inversion Et; subst. assumption.
Qed.

Lemma simulate_service w st w' :
  simulate fuel params w = Ok st w' -> service_ok st.
Proof.
  unfold simulate. intros H. inv_bind H.
  assert (V0 : service_ok a).
  { unfold initialState in Hm. inv_bind Hm. inv_bind Hm. inv_bind Hm.
    inv_ret Hm. apply Array_new_Ok in Hm0. destruct Hm0 as (-> & _).
    unfold service_ok. cbn. repeat split; try constructor; try discriminate.
    apply Forall_repeat_intro. discriminate. }
  assert (Hstep : forall k s1 v1 s2 v2,
             num_lt (num_of_nat k) (totalSteps params) = true ->
             simStep fuel params k s1 v1 = Ok s2 v2 ->
             service_ok s1 -> service_ok s2).
  { intros k s1 v1 s2 v2 _ Hs V.
    apply (@simStep_phases _ fuel params
             (fun s _ => service_ok s) (fun s _ => service_ok s)
             (fun s _ => service_ok s) k) with (5 := Hs); try assumption.
    - intros x b c d. apply handleArrivals_service.
    - intros i x b c d. apply processPrimaryStation_service.
    - intros x b c d. apply senior_service.
    - intros x _ V'. exact V'. }
  destruct (@mainLoop_invariant _ fuel params (fun _ => service_ok) Hstep
              _ _ _ _ _ _ H V0) as (K & HK & _).
  assumption.
Qed.

End QueueFacts.

(** ** Sums, means and maxima *)

Lemma fold_add_nonneg (l : list num) (a : Q) :
  0 <= a -> Forall finite_nonneg l ->
  exists s : Q, fold_left num_add l (Fin a) = Fin s /\ a <= s.
Proof.
  revert a. induction l as [|x l IH]; intros a Ha Hl; simpl.
  - exists a. split; [reflexivity | lra].
  - inversion Hl as [|? ? (q & -> & Hq) Hl']; subst. cbn [num_add].
    destruct (IH (a + q)) as (s & Es & Hs); [lra | assumption |].
    exists s. split; [assumption | lra].
Qed.


Lemma inject_nat_pos (n : nat) : (0 < n)%nat -> 0 < inject_Z (Z.of_nat n).
Proof.
  intros H. change 0 with (inject_Z 0). rewrite <- Zlt_Qlt. lia.
Qed.

Lemma num_div_by_nat (s : Q) (n : nat) :
  (0 < n)%nat ->
  num_div (Fin s) (num_of_nat n) = Fin (s / inject_Z (Z.of_nat n)).
Proof.
  intros H. unfold num_of_nat, num_of_Z, num_div.
  destruct (Qeq_bool (inject_Z (Z.of_nat n)) 0) eqn:E; [|reflexivity].
  apply Qeq_bool_iff in E. pose proof (inject_nat_pos H). lra.
Qed.

Lemma mean_nil : mean [] = NaN.
Proof. reflexivity. Qed.

Lemma mean_nonneg (l : list num) :
  l <> [] -> Forall finite_nonneg l -> finite_nonneg (mean l).
Proof.
  intros Hne Hl. unfold mean, sum_num.
  destruct (@fold_add_nonneg l 0) as (s & -> & Hs); [lra | assumption |].
  assert (Hn : (0 < length l)%nat) by (destruct l; [congruence | simpl; lia]).
  rewrite num_div_by_nat by assumption.
  exists (s / inject_Z (Z.of_nat (length l))). split; [reflexivity|].
  apply Qle_shift_div_l; [apply inject_nat_pos; assumption | lra].
Qed.


Lemma or_zero_nonneg (x : num) :
  x = NaN \/ finite_nonneg x -> finite_nonneg (or_zero x).
Proof.
  intros [->|(q & -> & Hq)]; simpl.
  - exists 0. split; [reflexivity | lra].
  - destruct (Qeq_bool q 0).
    + exists 0. split; [reflexivity | lra].
    + exists q. split; [reflexivity | assumption].
Qed.

Lemma or_zero_mean_nonneg (l : list num) :
  Forall finite_nonneg l -> finite_nonneg (or_zero (mean l)).
Proof.
  intros Hl. apply or_zero_nonneg. destruct l as [|x l].
  - left. reflexivity.
  - right. apply mean_nonneg; [discriminate | assumption].
Qed.

Lemma finite_nonneg_add (a b : num) :
  finite_nonneg a -> finite_nonneg b ->
  exists p q : Q, a = Fin p /\ num_add a b = Fin q /\ 0 <= p /\ p <= q.
Proof.
  intros (p & -> & Hp) (q & -> & Hq). exists p, (p + q).
  repeat split; try reflexivity; lra.
Qed.

(** *** Natural numbers as samples *)

Lemma Math_max2_nat (a b : nat) :
  Math_max2 (num_of_nat a) (num_of_nat b) = num_of_nat (Nat.max a b).
Proof.
  unfold num_of_nat, num_of_Z, Math_max2, num_le.
  destruct (Qle_bool _ _) eqn:E.
  - apply Qle_bool_iff in E. rewrite <- Zle_Qle in E.
    rewrite Nat.max_r by lia. reflexivity.
  - apply Qle_bool_false in E. rewrite <- Zlt_Qlt in E.
    rewrite Nat.max_l by lia. reflexivity.
Qed.

Lemma fold_max_nat (l : list nat) (a : nat) :
  fold_left Math_max2 (map num_of_nat l) (num_of_nat a)
  = num_of_nat (fold_left Nat.max l a).
Proof.
  revert a. induction l as [|x l IH]; intros a; cbn [map fold_left];
    [reflexivity|].
  rewrite Math_max2_nat. apply IH.
Qed.

Lemma fold_nat_max_spec (l : list nat) (a : nat) :
  In (fold_left Nat.max l a) (a :: l) /\
  (a <= fold_left Nat.max l a)%nat /\
  Forall (fun x => (x <= fold_left Nat.max l a)%nat) l.
Proof.
  revert a. induction l as [|x l IH]; intros a; cbn [fold_left In].
  - repeat split; [left; reflexivity | lia | constructor].
  - destruct (IH (Nat.max a x)) as (I1 & I2 & I3). split; [|split].
    + cbn [In] in I1. destruct I1 as [I1|I1]; [|right; right; assumption].
      destruct (Nat.max_spec a x) as [[_ E]|[_ E]]; rewrite E in I1 |- *.
      * right. left. assumption.
      * left. assumption.
    + lia.
    + constructor; [lia | assumption].
Qed.

Lemma Math_max_nat (x : nat) (l : list nat) :
  Math_max (map num_of_nat (x :: l)) = num_of_nat (fold_left Nat.max l x).
Proof.
  unfold Math_max. cbn [map fold_left].
  change (Math_max2 NInf (num_of_nat x)) with (num_of_nat x).
  apply fold_max_nat.
Qed.

Lemma fold_add_nat (l : list nat) (a : Q) :
  exists s : Q,
    fold_left num_add (map num_of_nat l) (Fin a) = Fin s /\
    s == a + inject_Z (Z.of_nat (list_sum l)).
Proof.
  revert a. induction l as [|x l IH]; intros a; simpl.
  - exists a. split; [reflexivity|]. change (inject_Z 0) with 0. lra.
  - destruct (IH (a + inject_Z (Z.of_nat x))) as (s & Es & Hs).
    exists s. split; [exact Es|]. rewrite Hs, Nat2Z.inj_add, inject_Z_plus. lra.
Qed.

Lemma list_sum_le_max (l : list nat) (m : nat) :
  Forall (fun x => (x <= m)%nat) l -> (list_sum l <= length l * m)%nat.
Proof.
  induction 1; simpl; lia.
Qed.

(** The maximum and the mean of a non-empty list of natural numbers. *)
Lemma nat_statistics (x : nat) (l : list nat) :
  exists (m : nat) (a : Q),
    Math_max (map num_of_nat (x :: l)) = num_of_nat m /\
    In m (x :: l) /\
    Forall (fun y => (y <= m)%nat) (x :: l) /\
    mean (map num_of_nat (x :: l)) = Fin a /\
    a * inject_Z (Z.of_nat (length (x :: l)))
    == inject_Z (Z.of_nat (list_sum (x :: l))) /\
    0 <= a /\ a <= inject_Z (Z.of_nat m).
Proof.
  destruct (fold_nat_max_spec l x) as (M1 & M2 & M3).
  set (m := fold_left Nat.max l x) in *.
  assert (Hall : Forall (fun y => (y <= m)%nat) (x :: l))
    by (constructor; assumption).
  destruct (fold_add_nat (x :: l) 0) as (s & Es & Hs).
  assert (Hn : (0 < length (x :: l))%nat) by (simpl; lia).
  pose proof (inject_nat_pos Hn) as Hp.
  exists m, (s / inject_Z (Z.of_nat (length (x :: l)))).
  split; [apply Math_max_nat|]. split; [assumption|]. split; [assumption|].
  split.
  { unfold mean, sum_num. rewrite Es, length_map.
    apply num_div_by_nat. assumption. }
  assert (Hs' : s == inject_Z (Z.of_nat (list_sum (x :: l)))) by lra.
  split; [|split].
  - rewrite <- Hs'. field. lra.
  - apply Qle_shift_div_l; [assumption|]. rewrite Hs'.
    change 0 with (inject_Z 0) at 1. rewrite Qmult_0_l.
    change 0 with (inject_Z 0). rewrite <- Zle_Qle. lia.
  - apply Qle_shift_div_r; [assumption|]. rewrite Hs'.
    rewrite <- inject_Z_mult, <- Zle_Qle.
    pose proof (list_sum_le_max Hall). nia.
Qed.



(** ** Invariants under an assumption on the draws *)

Section StreamFacts.

Context {ML : MathLib}.
Variable fuel : nat.
Variable params : SimParams.

Lemma initialState_stream w st w' :
  initialState params w = Ok st w' -> randomStream w' = randomStream w.
Proof.
  unfold initialState. intros H. inv_bind H. inv_bind H. inv_bind H. inv_ret H.
  apply Array_new_Ok in Hm, Hm0.
  destruct Hm as (_ & E1 & _), Hm0 as (_ & E2 & _). subst.
  eapply stream_of_Ok; [apply log_calls_sampleInterArrival | exact Hm1].
Qed.

(** An invariant of the state that holds as long as the stream of draws
    satisfies [S] holds at the end of every run on such a stream. *)
Lemma simulate_invariant_w (S : (nat -> Q) -> Prop) (P : SimState -> Prop) :
  (forall currentTime st w st' w',
      S (randomStream w) ->
      handleArrivals params currentTime st w = Ok st' w' -> P st -> P st') ->
  (forall currentTime i st w st' w',
      S (randomStream w) ->
      processPrimaryStation fuel params currentTime i st w = Ok st' w' ->
      P st -> P st') ->
  (forall st w st' w',
      S (randomStream w) ->
      startSenior fuel params (tickSenior st) w = Ok st' w' -> P st -> P st') ->
  (forall currentTime st, P st -> P (recordTimeSeries currentTime st)) ->
  forall w st w',
    S (randomStream w) ->
    (forall st0 w0, initialState params w = Ok st0 w0 -> P st0) ->
    simulate fuel params w = Ok st w' -> P st.
Proof.
  intros Ha Hp Hs Hr w st w' HS Hi H. unfold simulate in H. inv_bind H.
  pose proof (initialState_stream _ Hm) as Ew.
  assert (I0 : S (randomStream w0) /\ P a)
    by (split; [rewrite Ew; assumption | eapply Hi; eassumption]).
  assert (Hstep : forall k s1 v1 s2 v2,
             num_lt (num_of_nat k) (totalSteps params) = true ->
             simStep fuel params k s1 v1 = Ok s2 v2 ->
             S (randomStream v1) /\ P s1 -> S (randomStream v2) /\ P s2).
  { intros k s1 v1 s2 v2 _ Hstep I1.
    apply (@simStep_phases _ fuel params
             (fun s v => S (randomStream v) /\ P s)
             (fun s v => S (randomStream v) /\ P s)
             (fun s v => S (randomStream v) /\ P s) k) with (5 := Hstep);
      try assumption.
    - intros x b c d Hx [X1 X2]. split.
      + pose proof Hx as Ex. apply stream_of_Ok in Ex;
          [rewrite Ex; assumption | apply log_calls_handleArrivals].
      + eapply Ha; eassumption.
    - intros i x b c d Hx [X1 X2]. split.
      + pose proof Hx as Ex. apply stream_of_Ok in Ex;
          [rewrite Ex; assumption | apply log_calls_processPrimaryStation].
      + eapply Hp; eassumption.
    - intros x b c d Hx [X1 X2]. split.
      + pose proof Hx as Ex. apply stream_of_Ok in Ex;
          [rewrite Ex; assumption | apply log_calls_startSenior].
      + eapply Hs; eassumption.
    - intros x b [X1 X2]. split; [assumption | apply Hr; assumption]. }
  destruct (@mainLoop_invariant_w _ fuel params
              (fun _ s v => S (randomStream v) /\ P s) Hstep
              _ _ _ _ _ _ H I0) as (K & [_ HK] & _).
  assumption.
Qed.

End StreamFacts.

Lemma never_selected (r : Q) (p : num) :
  0 <= r -> num_lt (Fin 0) p = false -> num_lt (Fin r) p = false.
Proof.
  intros Hr. destruct p as [q| | |]; simpl; try reflexivity; try discriminate.
  unfold Qlt_bool. intros H. apply negb_false_iff in H.
  apply Qle_bool_iff in H. apply negb_false_iff. apply Qle_bool_iff. lra.
Qed.

Section ScreeningFacts.

Context {ML : MathLib}.
Variable fuel : nat.
Variable params : SimParams.

Lemma processPrimaryStation_cases (currentTime : num) (i : nat)
  (st : SimState) w st' w' :
  processPrimaryStation fuel params currentTime i st w = Ok st' w' ->
  (nth_error (primaryStations st) i = None /\ st' = st /\ w' = w)
  \/ exists station station1 st1 station2 st2,
       nth_error (primaryStations st) i = Some station /\
       tickPrimary i station st = (station1, st1) /\
       startPrimary fuel params currentTime station1 st1 w
       = Ok (station2, st2) w' /\
       st' = set_primaryStations
               (update_nth (primaryStations st2) i (fun _ => station2)) st2.
Proof.
  unfold processPrimaryStation.
  destruct (nth_error (primaryStations st) i) as [station|] eqn:En.
  - destruct (tickPrimary i station st) as [station1 st1] eqn:Et.
    intros H. inv_bind H. destruct a as [station2 st2]. inv_ret H.
    right. exists station, station1, st1, station2, st2.
    repeat split; assumption.
  - intros H. inv_ret H. left. repeat split; reflexivity.
Qed.

Hypothesis never : num_lt (Fin 0) (screenProb params) = false.

Lemma handleArrivals_unscreened (currentTime : num) (st : SimState) w st' w' :
  (forall n, 0 <= randomStream w n) ->
  handleArrivals params currentTime st w = Ok st' w' ->
  unscreened st -> unscreened st'.
Proof.
  intros Hw H (U1 & U2 & U3 & U4 & U5). apply handleArrivals_Ok in H.
  destruct H as [(_ & -> & _)|(_ & i & t' & _ & ->)];
    unfold unscreened; cbn; repeat split; try assumption.
  apply update_nth_Forall; [assumption|]. intros s _ [Hq Ht]. cbn.
  split; [|assumption]. apply Forall_app. split; [assumption|].
  constructor; [|constructor]. cbn. apply never_selected; [apply Hw | exact never].
Qed.

Lemma tickPrimary_unscreened (i : nat) (s : Station) (st : SimState) s1 st1 :
  tickPrimary i s st = (s1, st1) ->
  (forall t, traveler s = Some t -> needsScreening t = false) ->
  unscreened st ->
  (forall t, traveler s1 = Some t -> needsScreening t = false) /\
  unscreened st1.
Proof.
  unfold tickPrimary, dispatchToSenior. intros H Hs (U1 & U2 & U3 & U4 & U5).
  destruct (busy s) eqn:Eb.
  - destruct (num_le _ _) eqn:El.
    + destruct (traveler s) as [t|] eqn:Et.
      * rewrite (Hs t eq_refl) in H. inversion H; subst; cbn.
        split; [discriminate|]. repeat split; assumption.
      * inversion H; subst; cbn.
        split; [discriminate|]. repeat split; assumption.
    + inversion H; subst; cbn. split; [assumption|]. repeat split; assumption.
  - inversion H; subst. split; [assumption|]. repeat split; assumption.
Qed.

Lemma processPrimaryStation_unscreened (currentTime : num) (i : nat)
  (st : SimState) w st' w' :
  processPrimaryStation fuel params currentTime i st w = Ok st' w' ->
  unscreened st -> unscreened st'.
Proof.
  intros H U. apply processPrimaryStation_cases in H.
  destruct H as [(_ & -> & _)|(s0 & s1 & st1 & s2 & st2 & En & Et & Es & ->)];
    [exact U|].
  assert (U0 : Forall (fun t => needsScreening t = false) (queue s0) /\
               (forall t, traveler s0 = Some t -> needsScreening t = false)).
  { destruct U as (U1 & _). rewrite Forall_forall in U1. apply U1.
    eapply nth_error_In. exact En. }
  destruct U0 as [Uq Ut].
  pose proof Et as Q1. apply tickPrimary_queue in Q1.
  destruct (@tickPrimary_unscreened _ _ _ _ _ Et Ut U)
    as [W1 (U1 & U2 & U3 & U4 & U5)].
  apply startPrimary_Ok in Es.
  destruct Es as [(-> & -> & _)|(head & rest & v & _ & Eq & _ & -> & ->)];
    unfold unscreened; cbn; repeat split; try assumption.
  - apply update_nth_Forall; [assumption|]. intros x _ _.
    rewrite Q1. split; assumption.
  - apply update_nth_Forall; [assumption|]. intros x _ _. cbn.
    rewrite <- Q1, Eq in Uq. inversion Uq; subst. split; [assumption|].
    intros t Et'. inversion Et'; subst. cbn. assumption.
Qed.

Lemma senior_unscreened (st : SimState) w st' w' :
  startSenior fuel params (tickSenior st) w = Ok st' w' ->
  unscreened st -> unscreened st'.
Proof.
  intros H U. pose proof U as (U1 & U2 & U3 & U4 & U5).
  assert (E : tickSenior st = st) by (unfold tickSenior; rewrite U2; reflexivity).
  rewrite E in H. apply startSenior_Ok in H.
  destruct H as [(-> & _)|(head & rest & v & _ & Eq & _)]; [exact U|].
  rewrite U2 in Eq. discriminate.
Qed.

Lemma recordTimeSeries_unscreened (currentTime : num) (st : SimState) :
  unscreened st -> unscreened (recordTimeSeries currentTime st).
Proof.
  intros (U1 & U2 & U3 & U4 & U5). unfold unscreened, recordTimeSeries. cbn.
  repeat split; try assumption.
  apply Forall_app. split; [assumption|]. constructor; [|constructor].
  cbn. rewrite U2. reflexivity.
Qed.

Lemma simulate_unscreened w st w' :
  (forall n, 0 <= randomStream w n) ->
  simulate fuel params w = Ok st w' -> unscreened st.
Proof.
  intros Hw H.
  apply (@simulate_invariant_w _ fuel params
           (fun f => forall n, 0 <= f n) unscreened) with (7 := H);
    try assumption.
  - intros ct s v s' v' Hv. apply handleArrivals_unscreened. assumption.
  - intros ct i s v s' v' _. apply processPrimaryStation_unscreened.
  - intros s v s' v' _. apply senior_unscreened.
  - apply recordTimeSeries_unscreened.
  - intros st0 w0 Hi. unfold initialState in Hi.
    inv_bind Hi. inv_bind Hi. inv_bind Hi. inv_ret Hi.
    unfold unscreened. cbn. repeat split; try constructor.
    apply Forall_repeat_intro. cbn. split; [constructor | discriminate].
Qed.

End ScreeningFacts.

Section DurationFacts.

Context {ML : MathLib}.
Variable fuel : nat.
Variable params : SimParams.

Hypothesis law : log_nonpositive_on_unit ML.
Hypothesis finite_mu1 : finite (mu1 params).
Hypothesis finite_sigma1 : finite (sigma1 params).
Hypothesis finite_mu2 : finite (mu2 params).
Hypothesis finite_sigma2 : finite (sigma2 params).

Lemma simulate_timed w st w' :
  unit_stream (randomStream w) ->
  simulate fuel params w = Ok st w' -> timed st.
Proof.
  intros Hw H.
  apply (@simulate_invariant_w _ fuel params unit_stream timed) with (7 := H);
    try assumption.
  - intros ct s v s' v' _ Ha [T1 T2]. apply handleArrivals_Ok in Ha.
    destruct Ha as [(_ & -> & _)|(_ & i & t' & _ & ->)]; split; assumption.
  - intros ct i s v s' v' Hv Hp [T1 T2]. apply processPrimaryStation_cases in Hp.
    destruct Hp as [(_ & -> & _)|(s0 & s1 & st1 & s2 & st2 & En & Et & Es & ->)];
      [split; assumption|].
    apply tickPrimary_frame in Et. destruct Et as (_ & F2 & F3 & _).
    apply startPrimary_Ok in Es.
    destruct Es as [(-> & -> & _)|(head & rest & x & _ & _ & Hx & -> & ->)];
      unfold timed; cbn; rewrite F2, F3; split; try assumption.
    apply Forall_app. split; [assumption|]. constructor; [|constructor].
    destruct finite_mu1 as [m Em], finite_sigma1 as [sg Esg].
    rewrite Em, Esg in Hx.
    eapply truncatedNormal_loop_finite; [exact law | exact Hv | exact Hx].
  - intros s v s' v' Hv Hs [T1 T2].
    destruct (tickSenior_frame s) as (_ & F2 & F3 & _).
    apply startSenior_Ok in Hs.
    destruct Hs as [(-> & _)|(head & rest & x & _ & _ & Hx & ->)];
      unfold timed; cbn; rewrite F2, F3; split; try assumption.
    apply Forall_app. split; [assumption|]. constructor; [|constructor].
    destruct finite_mu2 as [m Em], finite_sigma2 as [sg Esg].
    rewrite Em, Esg in Hx.
    eapply truncatedNormal_loop_finite; [exact law | exact Hv | exact Hx].
  - intros ct s T. exact T.
  - intros st0 w0 Hi. unfold initialState in Hi.
    inv_bind Hi. inv_bind Hi. inv_bind Hi. inv_ret Hi.
    split; constructor.
Qed.

End DurationFacts.

(** ** The histogram of any sample *)

Lemma fold_counts_any (binSize : num) (ws : list num) (cs : list nat) :
  length cs = numBins ->
  length
    (fold_left (fun cs time => counts_incr cs (binIndexOf binSize time)) ws cs)
  = numBins /\
  (list_sum cs
   <= list_sum
        (fold_left (fun cs time => counts_incr cs (binIndexOf binSize time))
                   ws cs)
   <= list_sum cs + length ws)%nat.
Proof.
  revert cs. induction ws as [|t ws IH]; intros cs Hl; cbn [fold_left length].
  - split; [assumption | lia].
  - assert (Hc : length (counts_incr cs (binIndexOf binSize t)) = numBins /\
                 (list_sum cs
                  <= list_sum (counts_incr cs (binIndexOf binSize t))
                  <= S (list_sum cs))%nat).
    { unfold counts_incr.
      destruct (array_index (binIndexOf binSize t)) as [i|] eqn:E.
      - apply binIndexOf_never_extends in E.
        rewrite incr_nth_length, incr_nth_sum by (rewrite Hl; exact E).
        split; [assumption | lia].
      - split; [assumption | lia]. }
    destruct Hc as [Hc1 Hc2]. destruct (IH _ Hc1) as [I1 I2].
    split; [assumption | lia].
Qed.

Lemma list_sum_repeat_zero (n : nat) : list_sum (repeat 0%nat n) = 0%nat.
Proof. induction n; simpl; auto. Qed.

Lemma histogram_any (ws : list num) :
  length (bins (calculateWaitingTimeDistribution ws)) = numBins /\
  length (counts (calculateWaitingTimeDistribution ws)) = numBins /\
  (list_sum (counts (calculateWaitingTimeDistribution ws)) <= length ws)%nat.
Proof.
  unfold calculateWaitingTimeDistribution. cbn [bins counts].
  split; [rewrite length_map, length_seq; reflexivity|].
  destruct (@fold_counts_any
              (num_div (Math_max ws) (num_of_nat numBins)) ws
              (repeat 0%nat numBins)) as [H1 H2];
    [apply repeat_length|].
  rewrite list_sum_repeat_zero in H2. split; [assumption | lia].
Qed.

(** ** The loops of truncatedNormal *)

Section LoopFacts.

Context {ML : MathLib}.

(** [while (u === 0) u = Math.random()] skips the draws equal to zero and
    returns the first one that is not. *)
Lemma drawNonZero_first (n fuel : nat) w :
  (forall j, (j < n)%nat -> randomStream w (cursor w + j) == 0) ->
  ~ randomStream w (cursor w + n) == 0 ->
  (n < fuel)%nat ->
  drawNonZero fuel w
  = Ok (Fin (randomStream w (cursor w + n)))
       {| randomStream := randomStream w;
          cursor := cursor w + S n;
          logArgs := logArgs w |}.
Proof.
  revert fuel w. induction n as [|n IH]; intros fuel w Hz Hn Hf;
    (destruct fuel as [|fuel]; [lia|]); cbn [drawNonZero];
    unfold bind, Math_random; cbn [num_seq].
  - rewrite Nat.add_0_r in Hn.
    destruct (Qeq_bool _ 0) eqn:E; [apply Qeq_bool_iff in E; contradiction|].
    unfold ret. rewrite Nat.add_0_r, Nat.add_1_r. reflexivity.
  - assert (E : Qeq_bool (randomStream w (cursor w)) 0 = true).
    { apply Qeq_bool_iff. specialize (Hz 0%nat). rewrite Nat.add_0_r in Hz.
      apply Hz. lia. }
    rewrite E. rewrite IH; cbn [randomStream cursor logArgs].
    + replace (S (cursor w) + n)%nat with (cursor w + S n)%nat by lia.
      replace (S (cursor w) + S n)%nat with (cursor w + S (S n))%nat by lia.
      reflexivity.
    + intros j Hj. replace (S (cursor w) + j)%nat with (cursor w + S j)%nat by lia.
      apply Hz. lia.
    + replace (S (cursor w) + n)%nat with (cursor w + S n)%nat by lia. exact Hn.
    + lia.
Qed.

(** On draws that are all zero the loop does not end. *)
Lemma drawNonZero_zeros (fuel : nat) w :
  (forall j, randomStream w (cursor w + j) == 0) ->
  isOk (drawNonZero fuel w) = false /\ quiet (drawNonZero fuel w).
Proof.
  revert w. induction fuel as [|fuel IH]; intros w Hz; cbn [drawNonZero].
  - split; [reflexivity | exact I].
  - unfold bind, Math_random. cbn [num_seq].
    assert (E : Qeq_bool (randomStream w (cursor w)) 0 = true).
    { apply Qeq_bool_iff. specialize (Hz 0%nat). rewrite Nat.add_0_r in Hz.
      exact Hz. }
    rewrite E. apply IH. cbn [randomStream cursor]. intros j.
    replace (S (cursor w) + j)%nat with (cursor w + S j)%nat by lia. apply Hz.
Qed.

(** With [sigma = 0] the sample is [mu]: one round of the loop, two draws. *)
Lemma truncatedNormal_sigma_zero (fuel : nat) (m : Q) w :
  log_nonpositive_on_unit ML ->
  0 <= m ->
  0 < randomStream w (cursor w) -> randomStream w (cursor w) < 1 ->
  ~ randomStream w (S (cursor w)) == 0 ->
  exists v : Q,
    truncatedNormal (S fuel) (Fin m) (Fin 0) w
    = Ok (Fin v)
         {| randomStream := randomStream w;
            cursor := cursor w + 2;
            logArgs := logArgs w ++ [Fin (randomStream w (cursor w))] |} /\
    v == m.
Proof.
  intros law Hm Hu0 Hu1 Hv.
  unfold truncatedNormal. cbn [truncatedNormal_loop].
  unfold bind at 1.
  rewrite (@drawNonZero_first 0 (S fuel) w);
    [|intros j Hj; lia | rewrite Nat.add_0_r; lra | lia].
  rewrite Nat.add_0_r. unfold bind at 1.
  rewrite (@drawNonZero_first 0 (S fuel));
    cbn [randomStream cursor logArgs];
    [|intros j Hj; lia
     |rewrite Nat.add_0_r, Nat.add_1_r; exact Hv | lia].
  unfold bind at 1. unfold Math_log. cbn [randomStream cursor logArgs log_value].
  set (u := randomStream w (cursor w)) in *.
  assert (Eu : (u ?= 0) = Gt) by (apply Qgt_alt; exact Hu0).
  rewrite Eu.
  pose proof (law u Hu0 Hu1) as Hl.
  cbn [num_mul]. unfold Math_sqrt.
  assert (Es : Qle_bool 0 (-2 * ln_pos u) = true) by (apply Qle_bool_iff; lra).
  rewrite Es. cbn [Math_cos num_mul num_add num_lt].
  match goal with
  | |- context [Qlt_bool ?x 0] => set (val := x)
  end.
  assert (Ev : val == m) by (unfold val; ring).
  assert (En : Qlt_bool val 0 = false).
  { unfold Qlt_bool. apply negb_false_iff. apply Qle_bool_iff. lra. }
  rewrite En. unfold ret. exists val. split; [|exact Ev].
  f_equal. f_equal. lia.
Qed.

End LoopFacts.

(** ** The M/M/c formulas at and below saturation *)

Lemma num_div_Fin (p q : Q) : ~ q == 0 -> num_div (Fin p) (Fin q) = Fin (p / q).
Proof.
  intros H. unfold num_div. destruct (Qeq_bool q 0) eqn:E; [|reflexivity].
  apply Qeq_bool_iff in E. contradiction.
Qed.

Lemma num_div_pos_zero (p z : Q) :
  0 < p -> z == 0 -> num_div (Fin p) (Fin z) = PInf.
Proof.
  intros Hp Hz. unfold num_div.
  apply Qeq_bool_iff in Hz. rewrite Hz.
  apply Qgt_alt in Hp. rewrite Hp. reflexivity.
Qed.

Lemma num_div_zero_zero (p z : Q) :
  p == 0 -> z == 0 -> num_div (Fin p) (Fin z) = NaN.
Proof.
  intros Hp Hz. unfold num_div.
  apply Qeq_bool_iff in Hz. rewrite Hz.
  apply Qeq_alt in Hp. rewrite Hp. reflexivity.
Qed.

Lemma positive_finite_nonneg (x : num) : positive x -> finite_nonneg x.
Proof. intros (q & -> & H). exists q. split; [reflexivity | lra]. Qed.

(** At [rho = 1] the last term of the sum is infinite, [p0] is zero and
    the Erlang quotient is 0/0. *)
Lemma calculateTheoretical_saturated (params : SimParams) (c : nat) (a m : Q) :
  numStations params = Z.of_nat c -> (1 <= c)%nat ->
  arrivalRate params = Fin a -> 0 < a ->
  mu1 params = Fin m -> 0 < m ->
  let r := Theoretical.calculateTheoretical params in
  num_seq (Theoretical.utilization r) (Fin 1) = true ->
  Theoretical.avgQueueLength r = NaN /\
  Theoretical.avgWaitTime r = NaN /\
  Theoretical.avgSystemTime r = NaN.
Proof.
  intros Hc Hc1 Ha Ha0 Hm Hm0. unfold Theoretical.calculateTheoretical.
  rewrite Hc, Ha, Hm. cbv zeta.
  cbn [Theoretical.utilization Theoretical.avgQueueLength
       Theoretical.avgWaitTime Theoretical.avgSystemTime].
  rewrite sum_Array_from, !Math_pow_nat.
  change (num_of_Z (Z.of_nat c)) with (num_of_nat c).
  assert (Hl : positive (num_div (Fin a) (Fin 60))).
  { apply positive_div; apply positive_Fin; [assumption | reflexivity]. }
  set (lambda := num_div (Fin a) (Fin 60)) in *.
  assert (Hmu : positive (num_div (Fin 1) (num_div (Fin m) (Fin 1000)))).
  { apply positive_div; [apply positive_Fin; reflexivity|].
    apply positive_div; apply positive_Fin; [assumption | reflexivity]. }
  set (mu := num_div (Fin 1) (num_div (Fin m) (Fin 1000))) in *.
  pose proof (positive_of_nat Hc1) as Hcn.
  assert (Hrho : positive (num_div lambda (num_mul (num_of_nat c) mu))).
  { apply positive_div; [assumption|]. apply positive_mul; assumption. }
  set (rho := num_div lambda (num_mul (num_of_nat c) mu)) in *.
  intros Hone.
  pose proof (positive_mul Hcn Hrho) as Hcr.
  set (cr := num_mul (num_of_nat c) rho) in *.
  assert (Hsum : finite_nonneg
            (bigsum (fun k => num_div (Math_pow cr (Z.of_nat k))
                                      (Theoretical.factorial (Z.of_nat k))) c)).
  { apply bigsum_nonneg. intros k. rewrite Math_pow_nat.
    apply positive_div; [apply positive_pow; assumption|].
    apply positive_factorial. }
  destruct Hsum as (s & -> & _).
  destruct (positive_pow c Hcr) as (p & -> & Hp).
  destruct (positive_factorial (Z.of_nat c)) as (f & -> & Hf).
  destruct Hrho as (q & -> & Hq). cbn [num_seq] in Hone.
  apply Qeq_bool_iff in Hone.
  cbn [num_sub num_neg num_add num_mul].
  assert (Hz : f * (1 + - q) == 0) by (rewrite Hone; ring).
  clearbody lambda mu.
  rewrite (num_div_pos_zero Hp Hz). cbn [num_add].
  change (num_div (Fin 1) PInf) with (Fin 0). cbn [num_mul].
  rewrite num_div_zero_zero; [|ring | exact Hz].
  cbn [num_mul num_div num_add]. repeat split; reflexivity.
Qed.

Lemma utilization_value (params : SimParams) (c : nat) (a m : Q) :
  numStations params = Z.of_nat c -> (1 <= c)%nat ->
  arrivalRate params = Fin a -> mu1 params = Fin m -> 0 < m ->
  exists r : Q,
    Theoretical.utilization (Theoretical.calculateTheoretical params) = Fin r /\
    r == a * m / (60000 * inject_Z (Z.of_nat c)).
Proof.
  intros Hc Hc1 Ha Hm Hm0. unfold Theoretical.calculateTheoretical.
  rewrite Hc, Ha, Hm. cbv zeta. cbn [Theoretical.utilization].
  pose proof (inject_nat_pos Hc1) as Hp.
  unfold num_of_Z.
  rewrite (@num_div_Fin a 60) by discriminate.
  rewrite (@num_div_Fin m 1000) by discriminate.
  assert (H1 : 0 < m / 1000) by (apply Qlt_shift_div_l; lra).
  rewrite (@num_div_Fin 1 (m / 1000)) by lra.
  assert (H2 : 0 < 1 / (m / 1000)) by (apply Qlt_shift_div_l; lra).
  cbn [num_mul].
  assert (H3 : 0 < inject_Z (Z.of_nat c) * (1 / (m / 1000)))
    by (apply Qmult_lt_0_compat; assumption).
  rewrite num_div_Fin by lra.
  eexists. split; [reflexivity|]. field. repeat split; lra.
Qed.

Lemma num_mul_Fin (p q : Q) : num_mul (Fin p) (Fin q) = Fin (p * q).
Proof. reflexivity. Qed.

Lemma num_add_Fin (p q : Q) : num_add (Fin p) (Fin q) = Fin (p + q).
Proof. reflexivity. Qed.

Lemma num_sub_Fin (p q : Q) : num_sub (Fin p) (Fin q) = Fin (p + - q).
Proof. reflexivity. Qed.

(** With one station the formulas are those of the M/M/1 queue. *)
Lemma calculateTheoretical_single (params : SimParams) (a m : Q) :
  numStations params = 1%Z ->
  arrivalRate params = Fin a -> 0 < a ->
  mu1 params = Fin m -> 0 < m ->
  a * m < 60000 ->
  let r := Theoretical.calculateTheoretical params in
  let lambda := a / 60 in
  let mu := 1000 / m in
  let rho := lambda / mu in
  num_eq (Theoretical.utilization r) (Fin rho) /\
  num_eq (Theoretical.avgQueueLength r) (Fin (rho * rho / (1 - rho))) /\
  num_eq (Theoretical.avgWaitTime r) (Fin (rho / (mu - lambda))) /\
  num_eq (Theoretical.avgSystemTime r) (Fin (1 / (mu - lambda))).
Proof.
  intros Hc Ha Ha0 Hm Hm0 Hs. unfold Theoretical.calculateTheoretical.
  rewrite Hc, Ha, Hm. cbv zeta.
  cbn [Theoretical.utilization Theoretical.avgQueueLength
       Theoretical.avgWaitTime Theoretical.avgSystemTime].
  change (Theoretical.Array_from 1 ?f) with [f 0%Z].
  change (Theoretical.factorial 1) with (Fin 1).
  change (Theoretical.factorial 0) with (Fin 1).
  unfold sum_num. cbn [fold_left]. unfold num_of_Z. change (inject_Z 1) with 1.
  rewrite (@num_div_Fin a 60) by discriminate.
  rewrite (@num_div_Fin m 1000) by discriminate.
  assert (H1 : 0 < m / 1000) by (apply Qlt_shift_div_l; lra).
  rewrite (@num_div_Fin 1 (m / 1000)) by lra.
  assert (H2 : 0 < 1 / (m / 1000)) by (apply Qlt_shift_div_l; lra).
  assert (Hl : 0 < a / 60) by (apply Qlt_shift_div_l; lra).
  rewrite !num_mul_Fin.
  assert (H3 : 0 < 1 * (1 / (m / 1000))) by lra.
  rewrite num_div_Fin by lra.
  assert (Er : a / 60 / (1 * (1 / (m / 1000))) == a * m / 60000)
    by (field; lra).
  assert (Hr0 : 0 < a / 60 / (1 * (1 / (m / 1000)))).
  { rewrite Er. apply Qlt_shift_div_l; [lra | rewrite Qmult_0_l; nra]. }
  assert (Hr1 : a / 60 / (1 * (1 / (m / 1000))) < 1).
  { rewrite Er. apply Qlt_shift_div_r; lra. }
  assert (Erho : a / 60 / (1000 / m) == a / 60 / (1 * (1 / (m / 1000))))
    by (field; lra).
  assert (Emu : 1000 / m == 1 / (m / 1000)) by (field; lra).
  set (lam := a / 60) in *.
  set (mu := 1 / (m / 1000)) in *.
  set (r := lam / (1 * mu)) in *.
  rewrite !num_mul_Fin.
  change (Math_pow (Fin (1 * r)) 0) with (Fin 1).
  change (Math_pow (Fin (1 * r)) 1) with (Fin (1 * r * 1)).
  change (Theoretical.factorial 0) with (Fin 1).
  rewrite !num_sub_Fin, !num_mul_Fin.
  rewrite (@num_div_Fin 1 1) by discriminate.
  assert (D1 : 0 < 1 * (1 + - r)) by lra.
  rewrite (@num_div_Fin _ (1 * (1 + - r))) by lra.
  assert (D2 : 0 < 1 * r * 1 / (1 * (1 + - r))).
  { apply Qlt_shift_div_l; lra. }
  rewrite !num_add_Fin.
  assert (D3 : 0 < 0 + 1 / 1 + 1 * r * 1 / (1 * (1 + - r))).
  { assert (X : 1 / 1 == 1) by reflexivity. lra. }
  rewrite (@num_div_Fin 1 _) by lra.
  rewrite !num_mul_Fin.
  rewrite (@num_div_Fin _ (1 * (1 + - r))) by lra.
  rewrite !num_mul_Fin.
  rewrite (@num_div_Fin _ (1 + - r)) by lra.
  rewrite (@num_div_Fin _ lam) by lra.
  rewrite (@num_div_Fin 1 mu) by lra.
  rewrite !num_add_Fin. cbn [num_eq].
  assert (Elam : lam == r * mu) by (unfold r; field; lra).
  assert (Dml : 0 < mu - lam) by nra.
  rewrite Erho, Emu.
  split; [reflexivity|]. split; [|split].
  - field. repeat split; lra.
  - rewrite Elam. field. repeat split; try lra; nra.
  - rewrite Elam. field. repeat split; try lra; nra.
Qed.

(** * Further theorems *)

(** ** The time series *)

Lemma stepCount_pos (t : Q) : 0 < t -> (0 < stepCount (Fin t))%nat.
Proof.
  intros H. unfold stepCount.
  assert (H1 : 0 < t / (1 # 10)) by (apply Qlt_shift_div_l; lra).
  pose proof (Qle_ceiling (t / (1 # 10))) as H2.
  assert (H3 : (0 < Qceiling (t / (1 # 10)))%Z).
  { rewrite Zlt_Qlt. change (inject_Z 0) with 0. lra. }
  lia.
Qed.

(** X1: the result of a run has one time-series point per iteration of the
    loop, in order; point number k carries the instant k * 0.1, one queue
    length per primary station, and a total that is the sum of these and of
    the senior queue length.  There are ceil(simulationTime / 0.1) points,
    so at least one when simulationTime is a positive number, and
    perStationUtilization has one entry per station. *)
Theorem X1_timeSeries_shape (ML : MathLib) (fuel : nat) (params : SimParams)
  (w : World) (r : SimulationResult) (w' : World) :
  runSimulation fuel params w = Ok r w' ->
  length (res_timeSeries r) = stepCount (simulationTime params) /\
  map time (res_timeSeries r)
  = map (fun j => Fin (timeOfStep j))
        (seq 0 (stepCount (simulationTime params))) /\
  Forall (point_ok (Z.to_nat (numStations params))) (res_timeSeries r) /\
  length (perStationUtilization r) = Z.to_nat (numStations params) /\
  (forall t : Q, simulationTime params = Fin t -> 0 < t ->
                 res_timeSeries r <> []).
Proof.
  intros H. unfold runSimulation in H. inv_bind H. inv_ret H.
  destruct (simulate_ledger _ _ _ Hm) as (L1 & L2 & L3 & L4 & _).
  cbn [aggregate res_timeSeries perStationUtilization].
  assert (Hlen : length (timeSeries a) = stepCount (simulationTime params)).
  { rewrite <- (length_map time), L3, length_map, length_seq. reflexivity. }
  split; [assumption|]. split; [assumption|]. split; [assumption|].
  split; [rewrite length_map; assumption|].
  intros t Et Ht E. rewrite E, Et in Hlen. pose proof (stepCount_pos Ht).
  cbn [length] in Hlen. lia.
Qed.

Lemma X1_timeSeries_shape_witness :
  exists r w',
    runSimulation 10 lightParams halfWorld = Ok r w' /\
    length (res_timeSeries r) = 10%nat /\
    res_timeSeries r <> [].
Proof.
  assert (X : isOk (runSimulation 10 lightParams halfWorld) = true)
    by (vm_compute; reflexivity).
  destruct (runSimulation 10 lightParams halfWorld)
    as [r w'|e w'|w'] eqn:E; try discriminate X.
  exists r, w'. split; [reflexivity|].
  destruct (@X1_timeSeries_shape rationalMath 10 lightParams halfWorld r w' E)
    as (H1 & _ & _ & _ & H5).
  split; [exact H1|]. apply (H5 1); reflexivity.
Defined.

(** ** Exceptions *)





(** X4: with zero stations the run throws a TypeError (the reduce of the
    empty array) in the first iteration in which an arrival is due, and
    nothing else; a run that returns has seen no arrival: no utilization
    entry, utilization NaN (0 / 0), average waiting time 0 and only zero
    totals in the time series. *)
Theorem X4_no_station (ML : MathLib) (fuel : nat) (params : SimParams)
  (w : World) :
  numStations params = 0%Z ->
  throws (fun e => e = TypeError) (runSimulation fuel params w) /\
  (forall currentTime st v,
      primaryStations st = [] ->
      num_le (num_sub (timeToNextArrival st) stepSize) (Fin 0) = true ->
      handleArrivals params currentTime st v = Throw TypeError v) /\
  (forall r w',
      runSimulation fuel params w = Ok r w' ->
      perStationUtilization r = [] /\
      utilization r = NaN /\
      avgWaitingTime r = Fin 0 /\
      Forall (fun p => totalQueueLength p = 0%nat) (res_timeSeries r)).
Proof.
  intros Hn. split; [|split].
  - destruct (runSimulation_exceptions fuel params w) as [_ R].
    eapply throws_weaken; [|apply R; lia]. intros e [E _]. exact E.
  - intros currentTime st v. apply handleArrivals_no_station.
  - intros r w' H. unfold runSimulation in H. inv_bind H. inv_ret H.
    destruct (simulate_deserted _ _ _ Hn Hm) as (D1 & D2 & D3 & D4).
    destruct (simulate_ledger _ _ _ Hm) as (_ & L2 & _).
    rewrite Hn in L2. cbn in L2. apply length_zero_iff_nil in L2.
    cbn [aggregate perStationUtilization utilization avgWaitingTime
         res_timeSeries].
    rewrite L2, D2, Hn. repeat split; try reflexivity. assumption.
Qed.

Lemma X4_no_station_witness :
  exists w', runSimulation 10 noStationParams halfWorld = Throw TypeError w'.
Proof.
  assert (X : (match runSimulation 10 noStationParams halfWorld with
               | Throw _ _ => true
               | _ => false
               end) = true) by (vm_compute; reflexivity).
  destruct (@X4_no_station rationalMath 10 noStationParams halfWorld eq_refl)
    as (H & _).
  destruct (runSimulation 10 noStationParams halfWorld)
    as [r w'|e w'|w'] eqn:E; try discriminate X.
  exists w'. cbn in H. rewrite H. reflexivity.
Defined.

(** ** Averages *)

(** X5: the average waiting time of a result is always a number >= 0: the
    samples are numbers >= 0, and the 0/0 of a run without service start is
    replaced by 0. *)
Theorem X5_avgWaitingTime_nonneg (ML : MathLib) (fuel : nat)
  (params : SimParams) (w : World) (r : SimulationResult) (w' : World) :
  runSimulation fuel params w = Ok r w' ->
  finite_nonneg (avgWaitingTime r) /\
  exists st : SimState,
    simulate fuel params w = Ok st w' /\ r = aggregate params st /\
    Forall finite_nonneg (waitingTimes st) /\
    (waitingTimes st = [] -> avgWaitingTime r = Fin 0).
Proof.
  intros H. unfold runSimulation in H. inv_bind H. inv_ret H.
  pose proof (simulate_waits _ _ _ Hm) as Hw.
  cbn [aggregate avgWaitingTime]. split.
  - apply or_zero_mean_nonneg. assumption.
  - exists a. split; [assumption|]. split; [reflexivity|].
    split; [assumption|]. intros ->. reflexivity.
Qed.

Lemma X5_avgWaitingTime_nonneg_witness :
  exists r w',
    runSimulation 10 lightParams halfWorld = Ok r w' /\
    finite_nonneg (avgWaitingTime r).
Proof.
  assert (X : isOk (runSimulation 10 lightParams halfWorld) = true)
    by (vm_compute; reflexivity).
  destruct (runSimulation 10 lightParams halfWorld)
    as [r w'|e w'|w'] eqn:E; try discriminate X.
  exists r, w'. split; [reflexivity|].
  apply (@X5_avgWaitingTime_nonneg rationalMath 10 lightParams halfWorld r w' E).
Defined.

(** X6: when mu1, sigma1, mu2 and sigma2 are numbers, the draws lie in
    [0, 1) and Math.log is not positive there, every recorded service
    duration is a number >= 0, and the average system time of the result is
    a number not below the average waiting time. *)
Theorem X6_avgSystemTime_bounds (ML : MathLib) (fuel : nat)
  (params : SimParams) (w : World) (r : SimulationResult) (w' : World) :
  log_nonpositive_on_unit ML ->
  unit_stream (randomStream w) ->
  finite (mu1 params) -> finite (sigma1 params) ->
  finite (mu2 params) -> finite (sigma2 params) ->
  runSimulation fuel params w = Ok r w' ->
  exists p q : Q,
    avgWaitingTime r = Fin p /\ avgSystemTime r = Fin q /\ 0 <= p /\ p <= q.
Proof.
  intros law Hw F1 F2 F3 F4 H. unfold runSimulation in H. inv_bind H. inv_ret H.
  pose proof (simulate_waits _ _ _ Hm) as Hwt.
  destruct (@simulate_timed _ fuel params law F1 F2 F3 F4 _ _ _ Hw Hm)
    as [T1 T2].
  cbn [aggregate avgWaitingTime avgSystemTime].
  pose proof (or_zero_mean_nonneg Hwt) as (p & Ep & Hp).
  pose proof (or_zero_mean_nonneg T1) as (q1 & Eq1 & Hq1).
  assert (S3 : finite_nonneg
                 (if (0 <? length (seniorServiceTimes a))%nat
                  then mean (seniorServiceTimes a) else Fin 0)).
  { destruct (seniorServiceTimes a) as [|x l] eqn:E; cbn [length Nat.ltb Nat.leb].
    - exists 0. split; [reflexivity | lra].
    - apply mean_nonneg; [discriminate | assumption]. }
  destruct S3 as (q2 & Eq2 & Hq2).
  rewrite Ep, Eq1, Eq2. cbn [num_add].
  exists p, (p + q1 + q2). repeat split; try reflexivity; lra.
Qed.

Lemma X6_avgSystemTime_bounds_witness :
  exists r w' p q,
    runSimulation 10 lightParams halfWorld = Ok r w' /\
    avgWaitingTime r = Fin p /\ avgSystemTime r = Fin q /\ 0 <= p /\ p <= q.
Proof.
  assert (X : isOk (runSimulation 10 lightParams halfWorld) = true)
    by (vm_compute; reflexivity).
  destruct (runSimulation 10 lightParams halfWorld)
    as [r w'|e w'|w'] eqn:E; try discriminate X.
  destruct (@X6_avgSystemTime_bounds rationalMath 10 lightParams halfWorld r w')
    as (p & q & H).
  - exact rationalMath_log_nonpositive.
  - apply unit_stream_const; [discriminate | reflexivity].
  - exists 30. reflexivity.
  - exists 0. reflexivity.
  - exists 120. reflexivity.
  - exists 0. reflexivity.
  - exact E.
  - exists r, w', p, q. split; [reflexivity | exact H].
Defined.

(** X7: maxQueueLength and avgQueueLength are the maximum and the exact
    mean of the totals of the time series.  With at least one point the
    maximum is a natural number attained by some point and the mean is a
    number between 0 and the maximum; with no point (no iteration) the
    maximum is -Infinity and the mean is NaN. *)
Theorem X7_queue_statistics (ML : MathLib) (fuel : nat) (params : SimParams)
  (w : World) (r : SimulationResult) (w' : World) :
  runSimulation fuel params w = Ok r w' ->
  (res_timeSeries r = [] ->
   maxQueueLength r = NInf /\ avgQueueLength r = NaN) /\
  (res_timeSeries r <> [] ->
   exists (m : nat) (a : Q),
     maxQueueLength r = num_of_nat m /\
     Exists (fun p => totalQueueLength p = m) (res_timeSeries r) /\
     Forall (fun p => (totalQueueLength p <= m)%nat) (res_timeSeries r) /\
     avgQueueLength r = Fin a /\
     a * inject_Z (Z.of_nat (length (res_timeSeries r)))
     == inject_Z (Z.of_nat (list_sum (map totalQueueLength (res_timeSeries r)))) /\
     0 <= a /\ a <= inject_Z (Z.of_nat m)).
Proof.
  intros H. unfold runSimulation in H. inv_bind H. inv_ret H.
  cbn [aggregate res_timeSeries maxQueueLength avgQueueLength].
  rewrite <- (map_map totalQueueLength num_of_nat).
  split.
  - intros ->. split; reflexivity.
  - intros Hne. remember (timeSeries a) as ts eqn:Ets.
    destruct ts as [|p0 ps]; [congruence|]. clear Hne Ets.
    destruct (nat_statistics (totalQueueLength p0) (map totalQueueLength ps))
      as (m & q & M1 & M2 & M3 & M4 & M5 & M6 & M7).
    change (totalQueueLength p0 :: map totalQueueLength ps)
      with (map totalQueueLength (p0 :: ps)) in *.
    exists m, q. split; [assumption|]. split; [|split; [|split; [|split]]].
    + apply Exists_exists. apply in_map_iff in M2.
      destruct M2 as (p & Ep & Hp). exists p. split; assumption.
    + rewrite Forall_map in M3. exact M3.
    + assumption.
    + rewrite length_map in M5. exact M5.
    + split; assumption.
Qed.

Lemma X7_queue_statistics_witness :
  exists r w' m,
    runSimulation 10 lightParams halfWorld = Ok r w' /\
    maxQueueLength r = num_of_nat m /\
    Forall (fun p => (totalQueueLength p <= m)%nat) (res_timeSeries r).
Proof.
  assert (X : isOk (runSimulation 10 lightParams halfWorld) = true)
    by (vm_compute; reflexivity).
  destruct (runSimulation 10 lightParams halfWorld)
    as [r w'|e w'|w'] eqn:E; try discriminate X.
  destruct (@X7_queue_statistics rationalMath 10 lightParams halfWorld r w' E)
    as [_ H].
  assert (Hne : res_timeSeries r <> []).
  { assert (L : (match runSimulation 10 lightParams halfWorld with
                 | Ok r _ => length (res_timeSeries r)
                 | _ => 0%nat
                 end) = 10%nat) by (vm_compute; reflexivity).
    rewrite E in L. intros N. rewrite N in L. discriminate. }
  destruct (H Hne) as (m & a & H1 & _ & H3 & _).
  exists r, w', m. split; [reflexivity|]. split; assumption.
Defined.



(** ** Screening, service and queueing discipline *)

(** X9: when screenProb is not a positive number (zero, negative or NaN) and
    no draw is negative, no traveler is ever selected for additional
    screening and the senior station is never used: it stays idle with an
    empty queue, no senior service duration is drawn, its busy time is 0
    and every point of the time series has seniorQueueLength 0. *)
Theorem X9_no_screening_senior_unused (ML : MathLib) (fuel : nat)
  (params : SimParams) (w : World) (r : SimulationResult) (w' : World) :
  num_lt (Fin 0) (screenProb params) = false ->
  (forall n, 0 <= randomStream w n) ->
  runSimulation fuel params w = Ok r w' ->
  seniorUtilization r = num_div (Fin 0) (simulationTime params) /\
  Forall (fun p => seniorQueueLength p = 0%nat) (res_timeSeries r) /\
  exists st : SimState,
    simulate fuel params w = Ok st w' /\ r = aggregate params st /\
    seniorStation st = idleStation /\ seniorServiceTimes st = [] /\
    Forall (fun s =>
              Forall (fun t => needsScreening t = false) (queue s) /\
              (forall t, traveler s = Some t -> needsScreening t = false))
           (primaryStations st).
Proof.
  intros Hp Hw H. unfold runSimulation in H. inv_bind H. inv_ret H.
  destruct (@simulate_unscreened _ fuel params Hp _ _ _ Hw Hm)
    as (U1 & U2 & U3 & U4 & U5).
  cbn [aggregate seniorUtilization res_timeSeries]. rewrite U4.
  split; [reflexivity|]. split; [assumption|].
  exists a. repeat split; assumption.
Qed.

Lemma X9_no_screening_senior_unused_witness :
  exists r w',
    runSimulation 10 lightParams halfWorld = Ok r w' /\
    seniorUtilization r = Fin 0 /\
    Forall (fun p => seniorQueueLength p = 0%nat) (res_timeSeries r).
Proof.
  assert (X : isOk (runSimulation 10 lightParams halfWorld) = true)
    by (vm_compute; reflexivity).
  destruct (runSimulation 10 lightParams halfWorld)
    as [r w'|e w'|w'] eqn:E; try discriminate X.
  exists r, w'. split; [reflexivity|].
  destruct (@X9_no_screening_senior_unused rationalMath 10 lightParams
              halfWorld r w' eq_refl) as (H1 & H2 & _).
  - intros n. discriminate.
  - exact E.
  - split; [exact H1 | exact H2].
Defined.



(** X11: no service duration is ever negative, whatever the parameters and
    the draws are: at the end of every run no recorded primary or senior
    service time is below zero, and neither is the remaining time of a
    station that is busy. *)
Theorem X11_durations_not_negative (ML : MathLib) (fuel : nat)
  (params : SimParams) (w : World) (st : SimState) (w' : World) :
  simulate fuel params w = Ok st w' ->
  Forall notNegative (primaryServiceTimes st) /\
  Forall notNegative (seniorServiceTimes st) /\
  Forall (fun s => busy s = true -> notNegative (remainingTime s))
         (primaryStations st) /\
  (busy (seniorStation st) = true ->
   notNegative (remainingTime (seniorStation st))).
Proof.
  intros H. destruct (simulate_service _ _ _ H) as (V1 & V2 & V3 & V4 & _).
  repeat split; assumption.
Qed.

Lemma X11_durations_not_negative_witness :
  exists st w',
    simulate 10 lightParams halfWorld = Ok st w' /\
    Forall notNegative (primaryServiceTimes st) /\
    Forall (fun s => busy s = true -> notNegative (remainingTime s))
           (primaryStations st).
Proof.
  assert (X : isOk (simulate 10 lightParams halfWorld) = true)
    by (vm_compute; reflexivity).
  destruct (simulate 10 lightParams halfWorld)
    as [st w'|e w'|w'] eqn:E; try discriminate X.
  exists st, w'. split; [reflexivity|].
  destruct (@X11_durations_not_negative rationalMath 10 lightParams halfWorld
              st w' E) as (H1 & _ & H3 & _).
  split; assumption.
Defined.



(** X13: at most one traveler arrives per iteration.  At the end of every
    run the travelers that started primary service and those still waiting
    in the primary queues are together at most ceil(simulationTime / 0.1);
    one primary service duration has been recorded per waiting time; and
    the histogram of the result counts at most that many travelers. *)
Theorem X13_one_arrival_per_step (ML : MathLib) (fuel : nat)
  (params : SimParams) (w : World) (r : SimulationResult) (w' : World) :
  runSimulation fuel params w = Ok r w' ->
  exists st : SimState,
    simulate fuel params w = Ok st w' /\ r = aggregate params st /\
    (length (waitingTimes st) + queued (primaryStations st)
     <= stepCount (simulationTime params))%nat /\
    length (primaryServiceTimes st) = length (waitingTimes st) /\
    (list_sum (counts (waitingTimeDistribution r))
     <= stepCount (simulationTime params))%nat.
Proof.
  intros H. unfold runSimulation in H. inv_bind H. inv_ret H.
  destruct (simulate_ledger _ _ _ Hm) as (_ & _ & _ & _ & L5 & L6).
  exists a. split; [assumption|]. split; [reflexivity|].
  split; [assumption|]. split; [assumption|].
  cbn [aggregate waitingTimeDistribution].
  pose proof (histogram_any (waitingTimes a)) as (_ & _ & Hs). lia.
Qed.

Lemma X13_one_arrival_per_step_witness :
  exists r w',
    runSimulation 10 lightParams halfWorld = Ok r w' /\
    (list_sum (counts (waitingTimeDistribution r)) <= 10)%nat.
Proof.
  assert (X : isOk (runSimulation 10 lightParams halfWorld) = true)
    by (vm_compute; reflexivity).
  destruct (runSimulation 10 lightParams halfWorld)
    as [r w'|e w'|w'] eqn:E; try discriminate X.
  exists r, w'. split; [reflexivity|].
  destruct (@X13_one_arrival_per_step rationalMath 10 lightParams halfWorld
              r w' E) as (st & _ & _ & _ & _ & H).
  exact H.
Defined.

(** ** The histogram *)

(** X14: whatever the sample is (also empty, with negative numbers, NaN or
    infinities), the histogram has 20 bin edges and 20 counts and counts no
    more values than the sample has: an index that is not an array index
    is dropped, the array is never extended.  Of an empty sample the counts
    are all 0 and no bin edge is a finite number. *)
Theorem X14_histogram_any_sample (ws : list num) :
  length (bins (calculateWaitingTimeDistribution ws)) = 20%nat /\
  length (counts (calculateWaitingTimeDistribution ws)) = 20%nat /\
  (list_sum (counts (calculateWaitingTimeDistribution ws)) <= length ws)%nat /\
  counts (calculateWaitingTimeDistribution []) = repeat 0%nat 20 /\
  Forall (fun b => ~ finite b) (bins (calculateWaitingTimeDistribution [])).
Proof.
  destruct (histogram_any ws) as (H1 & H2 & H3).
  split; [exact H1|]. split; [exact H2|]. split; [exact H3|].
  split; [reflexivity|].
  cbv. repeat constructor; intros [q Hq]; discriminate.
Qed.

(** ** The formulas of the M/M/c queue *)





(** X17: at a utilization of exactly 1 (at least one station,
    arrivalRate > 0, mu1 > 0) the average queue length, waiting time and
    system time are NaN: the last term of the sum is a division by zero,
    p0 is 0 and the Erlang quotient is 0 / 0. *)
Theorem X17_saturated_results_nan (params : SimParams) (c : nat) (a m : Q) :
  numStations params = Z.of_nat c -> (1 <= c)%nat ->
  arrivalRate params = Fin a -> 0 < a ->
  mu1 params = Fin m -> 0 < m ->
  num_seq (Theoretical.utilization (Theoretical.calculateTheoretical params))
          (Fin 1) = true ->
  Theoretical.avgQueueLength (Theoretical.calculateTheoretical params) = NaN /\
  Theoretical.avgWaitTime (Theoretical.calculateTheoretical params) = NaN /\
  Theoretical.avgSystemTime (Theoretical.calculateTheoretical params) = NaN.
Proof.
  intros Hc Hc1 Ha Ha0 Hm Hm0 Hone.
  exact (@calculateTheoretical_saturated params c a m Hc Hc1 Ha Ha0 Hm Hm0 Hone).
Qed.

Lemma X17_saturated_results_nan_witness :
  Theoretical.avgQueueLength (Theoretical.calculateTheoretical saturatedParams)
  = NaN.
Proof.
  destruct (@X17_saturated_results_nan saturatedParams 1 60 1000
              eq_refl (le_n 1) eq_refl eq_refl eq_refl eq_refl eq_refl)
    as (H & _).
  exact H.
Defined.

(** X18: with one station the results are the formulas of the M/M/1 queue:
    for lambda = arrivalRate / 60 and mu = 1000 / mu1 with lambda < mu,
    utilization = rho = lambda / mu, avgQueueLength = rho^2 / (1 - rho),
    avgWaitTime = rho / (mu - lambda) and avgSystemTime = 1 / (mu - lambda). *)
Theorem X18_single_station_mm1 (params : SimParams) (a m : Q) :
  numStations params = 1%Z ->
  arrivalRate params = Fin a -> 0 < a ->
  mu1 params = Fin m -> 0 < m ->
  a * m < 60000 ->
  num_eq (Theoretical.utilization (Theoretical.calculateTheoretical params))
         (Fin (a / 60 / (1000 / m))) /\
  num_eq (Theoretical.avgQueueLength (Theoretical.calculateTheoretical params))
         (Fin (a / 60 / (1000 / m) * (a / 60 / (1000 / m))
               / (1 - a / 60 / (1000 / m)))) /\
  num_eq (Theoretical.avgWaitTime (Theoretical.calculateTheoretical params))
         (Fin (a / 60 / (1000 / m) / (1000 / m - a / 60))) /\
  num_eq (Theoretical.avgSystemTime (Theoretical.calculateTheoretical params))
         (Fin (1 / (1000 / m - a / 60))).
Proof.
  intros Hc Ha Ha0 Hm Hm0 Hs.
  exact (@calculateTheoretical_single params a m Hc Ha Ha0 Hm Hm0 Hs).
Qed.

Lemma X18_single_station_mm1_witness :
  num_eq (Theoretical.avgSystemTime
            (Theoretical.calculateTheoretical lightParams))
         (Fin (1 / (1000 / 30 - 60 / 60))).
Proof.
  destruct (@X18_single_station_mm1 lightParams 60 30
              eq_refl eq_refl eq_refl eq_refl eq_refl eq_refl)
    as (_ & _ & _ & H).
  exact H.
Defined.

(** X19: for every value the sliders of the form can give to numStations
    (1 to 10), arrivalRate (1 to 120) and mu1 (5 to 120), the computed
    utilization is arrivalRate * mu1 / (60000 * numStations), at most
    6/25, so the formulas are evaluated in the stable regime and the four
    theoretical results are positive numbers. *)
Theorem X19_slider_range_stable (params : SimParams) :
  (1 <= numStations params <= 10)%Z ->
  within 1 120 (arrivalRate params) ->
  within 5 120 (mu1 params) ->
  (exists a m rho : Q,
      arrivalRate params = Fin a /\ mu1 params = Fin m /\
      Theoretical.utilization (Theoretical.calculateTheoretical params)
      = Fin rho /\
      rho == a * m / (60000 * inject_Z (numStations params)) /\
      0 < rho /\ rho <= 6 # 25) /\
  positive (Theoretical.avgQueueLength (Theoretical.calculateTheoretical params)) /\
  positive (Theoretical.avgWaitTime (Theoretical.calculateTheoretical params)) /\
  positive (Theoretical.avgSystemTime (Theoretical.calculateTheoretical params)).
Proof.
  intros Hc (a & Ha & Ha1 & Ha2) (m & Hm & Hm1 & Hm2).
  assert (Ec : numStations params = Z.of_nat (Z.to_nat (numStations params)))
    by (rewrite Z2Nat.id; lia).
  assert (Hc1 : (1 <= Z.to_nat (numStations params))%nat) by lia.
  assert (Hm0 : 0 < m) by lra.
  assert (Ha0 : 0 < a) by lra.
  destruct (@utilization_value params _ a m Ec Hc1 Ha Hm Hm0) as (rho & Er & Hr).
  rewrite <- Ec in Hr.
  assert (Hcq : 1 <= inject_Z (numStations params)).
  { change 1 with (inject_Z 1). rewrite <- Zle_Qle. lia. }
  assert (Hd : 0 < 60000 * inject_Z (numStations params)) by lra.
  assert (Hr0 : 0 < rho).
  { rewrite Hr. apply Qlt_shift_div_l; [assumption|]. rewrite Qmult_0_l. nra. }
  assert (Hr1 : rho <= 6 # 25).
  { rewrite Hr. apply Qle_shift_div_r; [assumption|]. nra. }
  assert (Hlt : num_lt (Theoretical.utilization
                          (Theoretical.calculateTheoretical params))
                       (Fin 1) = true).
  { rewrite Er. cbn [num_lt]. apply Qlt_bool_iff. lra. }
  destruct (@calculateTheoretical_stable params _ a m Ec Hc1 Ha Ha0 Hm Hm0 Hlt)
    as (_ & P2 & P3 & P4).
  split; [|repeat split; assumption].
  exists a, m, rho. repeat split; assumption.
Qed.

Lemma X19_slider_range_stable_witness :
  positive (Theoretical.avgWaitTime
              (Theoretical.calculateTheoretical defaultParams)).
Proof.
  destruct (@X19_slider_range_stable defaultParams) as (_ & _ & H & _).
  - cbn. lia.
  - exists 10. split; [reflexivity|]. split; discriminate.
  - exists 30. split; [reflexivity|]. split; discriminate.
  - exact H.
Defined.

(** ** The loops of truncatedNormal *)

(** X20: with sigma = 0 and mu >= 0 truncatedNormal returns mu after one
    round of its loop: when the next draw lies in (0, 1) and the one after
    it is not zero, exactly two draws are consumed and Math.log is called
    once, on the first of them. *)
Theorem X20_truncatedNormal_sigma_zero (ML : MathLib) (fuel : nat) (m : Q)
  (w : World) :
  log_nonpositive_on_unit ML ->
  0 <= m ->
  0 < randomStream w (cursor w) -> randomStream w (cursor w) < 1 ->
  ~ randomStream w (S (cursor w)) == 0 ->
  exists v : Q,
    truncatedNormal (S fuel) (Fin m) (Fin 0) w
    = Ok (Fin v)
         {| randomStream := randomStream w;
            cursor := cursor w + 2;
            logArgs := logArgs w ++ [Fin (randomStream w (cursor w))] |} /\
    v == m.
Proof.
  intros law Hm H0 H1 Hv. apply truncatedNormal_sigma_zero; assumption.
Qed.

Lemma X20_truncatedNormal_sigma_zero_witness :
  exists v : Q,
    isOk (truncatedNormal 1 (Fin 30) (Fin 0) halfWorld) = true /\
    truncatedNormal 1 (Fin 30) (Fin 0) halfWorld
    = Ok (Fin v)
         {| randomStream := constStream (1 # 2); cursor := 2;
            logArgs := [Fin (1 # 2)] |} /\
    v == 30.
Proof.
  destruct (@X20_truncatedNormal_sigma_zero rationalMath 0 30 halfWorld)
    as (v & Hv & Ev).
  - exact rationalMath_log_nonpositive.
  - discriminate.
  - reflexivity.
  - reflexivity.
  - discriminate.
  - exists v. split; [rewrite Hv; reflexivity|]. split; [exact Hv | exact Ev].
Defined.

(** X21: the loop while (u === 0) u = Math.random() returns the first draw
    that is not zero and consumes the draws up to it; on draws that are all
    zero it never returns (and does not throw). *)
Theorem X21_drawNonZero_first (n fuel : nat) (w : World) :
  (forall j, (j < n)%nat -> randomStream w (cursor w + j) == 0) ->
  ((~ randomStream w (cursor w + n) == 0) -> (n < fuel)%nat ->
   drawNonZero fuel w
   = Ok (Fin (randomStream w (cursor w + n)))
        {| randomStream := randomStream w;
           cursor := cursor w + S n;
           logArgs := logArgs w |}) /\
  ((forall j, randomStream w (cursor w + j) == 0) ->
   isOk (drawNonZero fuel w) = false /\ quiet (drawNonZero fuel w)).
Proof.
  intros Hz. split.
  - intros Hn Hf. apply drawNonZero_first; assumption.
  - intros Hall. apply drawNonZero_zeros. assumption.
Qed.

Lemma X21_drawNonZero_first_witness :
  drawNonZero 5 (newWorld (zerosThen 3 (1 # 2)))
  = Ok (Fin (1 # 2))
       {| randomStream := zerosThen 3 (1 # 2); cursor := 4; logArgs := [] |}.
Proof.
  destruct (@X21_drawNonZero_first 3 5 (newWorld (zerosThen 3 (1 # 2))))
    as [H _].
  - intros j Hj. cbn [newWorld randomStream cursor]. unfold zerosThen.
    cbn [Nat.add]. destruct (Nat.ltb_spec j 3) as [_|Hge]; [reflexivity | lia].
  - apply H; [discriminate | lia].
Defined.

(** ** No arrival *)

Lemma idle_queues_sum (l : list Station) :
  Forall (fun s => s = idleStation) l ->
  fold_left Nat.add (map (fun s => length (queue s)) l) 0%nat = 0%nat.
Proof.
  intros H. rewrite fold_add_sum. induction H as [|s l Hs _ IH]; simpl.
  - reflexivity.
  - rewrite Hs. simpl in *. exact IH.
Qed.

Section NoArrivalFacts.

Context {ML : MathLib}.
Variable fuel : nat.
Variable params : SimParams.

Hypothesis law : log_nonpositive_on_unit ML.
Hypothesis no_rate : num_seq (arrivalRate params) (Fin 0) = true.

Lemma sampleInterArrival_no_rate w t w' :
  unit_stream (randomStream w) ->
  sampleInterArrival params w = Ok t w' -> t = PInf \/ t = NaN.
Proof.
  intros Hw H. unfold sampleInterArrival in H.
  inv_bind H. inv_bind H. inv_ret H.
  unfold Math_random in Hm. inversion Hm; subst; clear Hm.
  unfold Math_log in Hm0. inversion Hm0; subst; clear Hm0.
  unfold arrivalRatePerSecond.
  destruct (arrivalRate params) as [a| | |]; try discriminate no_rate.
  cbn [num_seq] in no_rate. apply Qeq_bool_iff in no_rate.
  assert (Ez : Qeq_bool (a / 60) 0 = true).
  { apply Qeq_bool_iff. rewrite no_rate. reflexivity. }
  assert (El : Qle_bool 0 (a / 60) = true).
  { apply Qle_bool_iff. rewrite no_rate. discriminate. }
  rewrite (@num_div_Fin a 60) by discriminate.
  destruct (Hw (cursor w)) as [H0 H1].
  set (u := randomStream w (cursor w)) in *.
  unfold log_value. destruct (u ?= 0) eqn:Ec.
  - left. cbn [num_neg num_div]. rewrite El. reflexivity.
  - apply Qlt_alt in Ec. lra.
  - apply Qgt_alt in Ec. pose proof (law Ec H1) as Hl.
    cbn [num_neg]. unfold num_div. rewrite Ez.
    destruct (- ln_pos u ?= 0) eqn:Es; cbn [signed].
    + right. reflexivity.
    + apply Qlt_alt in Es. lra.
    + left. reflexivity.
Qed.

Lemma handleArrivals_calm (currentTime : num) (st : SimState) w st' w' :
  handleArrivals params currentTime st w = Ok st' w' ->
  calm st -> calm st'.
Proof.
  intros H (C1 & C2 & C3 & C4 & C5 & C6 & C7). apply handleArrivals_Ok in H.
  destruct H as [(_ & -> & _)|(Hdue & _)].
  - unfold calm. cbn. repeat split; try assumption.
    destruct C6 as [-> | ->]; [left | right]; reflexivity.
  - destruct C6 as [E|E]; rewrite E in Hdue; discriminate.
Qed.

Lemma processPrimaryStation_calm (currentTime : num) (i : nat)
  (st : SimState) w st' w' :
  processPrimaryStation fuel params currentTime i st w = Ok st' w' ->
  calm st -> calm st'.
Proof.
  intros H C. apply processPrimaryStation_cases in H.
  destruct H as [(_ & -> & _)|(s0 & s1 & st1 & s2 & st2 & En & Et & Es & ->)];
    [exact C|].
  destruct C as (C1 & C2 & C3 & C4 & C5 & C6 & C7).
  assert (E0 : s0 = idleStation).
  { rewrite Forall_forall in C1. apply C1. eapply nth_error_In. exact En. }
  subst s0. cbn in Et. inversion Et; subst s1 st1; clear Et.
  apply startPrimary_Ok in Es.
  destruct Es as [(-> & -> & _)|(head & rest & v & _ & Eq & _)];
    [|discriminate].
  unfold calm. cbn. repeat split; try assumption.
  apply update_nth_Forall; [assumption|]. intros; reflexivity.
Qed.

Lemma senior_calm (st : SimState) w st' w' :
  startSenior fuel params (tickSenior st) w = Ok st' w' ->
  calm st -> calm st'.
Proof.
  intros H C. pose proof C as (C1 & C2 & C3 & C4 & C5 & C6 & C7).
  assert (E : tickSenior st = st) by (unfold tickSenior; rewrite C2; reflexivity).
  rewrite E in H. apply startSenior_Ok in H.
  destruct H as [(-> & _)|(head & rest & v & _ & Eq & _)]; [exact C|].
  rewrite C2 in Eq. discriminate.
Qed.

Lemma recordTimeSeries_calm (currentTime : num) (st : SimState) :
  calm st -> calm (recordTimeSeries currentTime st).
Proof.
  intros (C1 & C2 & C3 & C4 & C5 & C6 & C7). unfold calm, recordTimeSeries.
  cbn [primaryStations seniorStation waitingTimes stationBusyTime
       seniorBusyTime timeToNextArrival timeSeries set_timeSeries].
  repeat split; try assumption.
  apply Forall_app. split; [assumption|]. constructor; [|constructor].
  cbn [totalQueueLength]. rewrite idle_queues_sum by assumption.
  rewrite C2. reflexivity.
Qed.

Lemma simulate_calm w st w' :
  unit_stream (randomStream w) ->
  simulate fuel params w = Ok st w' -> calm st.
Proof.
  intros Hw H.
  apply (@simulate_invariant_w _ fuel params unit_stream calm) with (7 := H);
    try assumption.
  - intros ct s v s' v' _. apply handleArrivals_calm.
  - intros ct i s v s' v' _. apply processPrimaryStation_calm.
  - intros s v s' v' _. apply senior_calm.
  - apply recordTimeSeries_calm.
  - intros st0 w0 Hi. unfold initialState in Hi.
    inv_bind Hi. inv_bind Hi. inv_bind Hi. inv_ret Hi.
    apply Array_new_Ok in Hm, Hm0.
    destruct Hm as (_ & E1 & _), Hm0 as (_ & E2 & _). subst.
    apply sampleInterArrival_no_rate in Hm1; [|assumption].
    unfold calm. cbn. repeat split; try assumption; try constructor;
      apply Forall_repeat_intro; reflexivity.
Qed.

End NoArrivalFacts.

(** X22: with arrivalRate = 0 (draws in [0, 1), Math.log not positive
    there) the first inter-arrival time is Infinity or NaN and no traveler
    ever arrives: the average waiting time is 0, every total of the time
    series is 0, every station has utilization 0 / simulationTime and the
    histogram counts nothing. *)
Theorem X22_no_arrival_rate (ML : MathLib) (fuel : nat) (params : SimParams)
  (w : World) (r : SimulationResult) (w' : World) :
  log_nonpositive_on_unit ML ->
  unit_stream (randomStream w) ->
  num_seq (arrivalRate params) (Fin 0) = true ->
  runSimulation fuel params w = Ok r w' ->
  avgWaitingTime r = Fin 0 /\
  Forall (fun p => totalQueueLength p = 0%nat) (res_timeSeries r) /\
  Forall (fun u => u = num_div (Fin 0) (simulationTime params))
         (perStationUtilization r) /\
  seniorUtilization r = num_div (Fin 0) (simulationTime params) /\
  counts (waitingTimeDistribution r) = repeat 0%nat 20.
Proof.
  intros law Hw Hr H. unfold runSimulation in H. inv_bind H. inv_ret H.
  destruct (@simulate_calm _ fuel params law Hr _ _ _ Hw Hm)
    as (C1 & C2 & C3 & C4 & C5 & C6 & C7).
  cbn [aggregate avgWaitingTime res_timeSeries perStationUtilization
       seniorUtilization waitingTimeDistribution].
  rewrite C3, C5. repeat split; try reflexivity; try assumption.
  apply Forall_map. eapply Forall_impl; [|exact C4].
  intros b ->. reflexivity.
Qed.

Lemma X22_no_arrival_rate_witness :
  exists r w',
    runSimulation 10 idleParams halfWorld = Ok r w' /\
    avgWaitingTime r = Fin 0 /\
    Forall (fun p => totalQueueLength p = 0%nat) (res_timeSeries r).
Proof.
  assert (X : isOk (runSimulation 10 idleParams halfWorld) = true)
    by (vm_compute; reflexivity).
  destruct (runSimulation 10 idleParams halfWorld)
    as [r w'|e w'|w'] eqn:E; try discriminate X.
  exists r, w'. split; [reflexivity|].
  destruct (@X22_no_arrival_rate rationalMath 10 idleParams halfWorld r w')
    as (H1 & H2 & _).
  - exact rationalMath_log_nonpositive.
  - apply unit_stream_const; [discriminate | reflexivity].
  - reflexivity.
  - exact E.
  - split; assumption.
Defined.
